(** * RadioManager: secure radio link layer

    A shallow embedding of [SimpleCha2.cpp], [Base64.h] and
    [RadioManager.cpp], followed by the properties of the link layer:
    secure-channel replay rejection, fragmentation and reassembly, the send
    guards, the device directory, the pairing state machine and the
    configuration export/import.

    Integers of the C++ code are [Z] with their wrap-around written out
    ([uint8], [uint16], [uint32]); byte buffers ([std::vector<uint8_t>] and
    [uint8_t[]]) are [list byte]; Arduino [String]s are [string]; the
    [pairedDevices] array is a list indexed with stdpp's lookup and insert.

    The collaborators that are not part of the repository are interfaces:
    the ChaCha20 key stream and the X25519 derivation (class [Crypto]), the
    ArduinoJson printer and parser (class [JsonCodec]), the clock and the
    entropy source (arguments [now] and [iv]) and the RF24 transceiver (record
    [Radio.t], a receive queue, a log of the frames written and the
    acknowledgements still to come). *)

From Stdlib Require Import ZArith NArith List Bool Lia String Ascii.
From Stdlib Require Import Strings.Byte.
From Stdlib Require Import DecimalString.
From stdpp Require Import base option list.
Import ListNotations.

Open Scope Z_scope.

(** ** Bytes and machine integers *)

Abbreviation Bytes := (list byte).

Definition uint8 (z : Z) : Z := z mod 2 ^ 8.
Definition uint16 (z : Z) : Z := z mod 2 ^ 16.
Definition uint32 (z : Z) : Z := z mod 2 ^ 32.

Definition byte_of_N (n : N) : byte :=
  match Byte.of_N (n mod 256) with
  | Some b => b
  | None => x00
  end.

Definition byte_of_Z (z : Z) : byte := byte_of_N (Z.to_N (z mod 256)).

Definition Z_of_byte (b : byte) : Z := Z.of_N (Byte.to_N b).

Definition is_zero_byte (b : byte) : bool := Byte.eqb b x00.

(** [memcpy] of an integer to and from a buffer on the little-endian target. *)
Definition le16_bytes (v : Z) : Bytes :=
  [byte_of_Z v; byte_of_Z (Z.shiftr v 8)].

Definition le32_bytes (v : Z) : Bytes :=
  [byte_of_Z v; byte_of_Z (Z.shiftr v 8);
   byte_of_Z (Z.shiftr v 16); byte_of_Z (Z.shiftr v 24)].

Fixpoint le_Z (bs : Bytes) : Z :=
  match bs with
  | [] => 0
  | b :: r => Z_of_byte b + 256 * le_Z r
  end.

Definition byte_xor (a b : byte) : byte :=
  let '(a0, (a1, (a2, (a3, (a4, (a5, (a6, a7))))))) := Byte.to_bits a in
  let '(b0, (b1, (b2, (b3, (b4, (b5, (b6, b7))))))) := Byte.to_bits b in
  Byte.of_bits
    (xorb a0 b0, (xorb a1 b1, (xorb a2 b2, (xorb a3 b3,
    (xorb a4 b4, (xorb a5 b5, (xorb a6 b6, xorb a7 b7))))))).

(** The bytes of a [String] ([c_str()] reinterpreted as [uint8_t*]) and the
    [String] built from a buffer and its length. *)
Definition bytes_of_String (s : string) : Bytes := list_byte_of_string s.
Definition String_of_bytes (b : Bytes) : string := string_of_list_byte b.

(** [String(n)] of an unsigned value: its decimal digits. *)
Definition String_of_Z (n : Z) : string :=
  NilZero.string_of_uint (N.to_uint (Z.to_N n)).

(** ** External cryptographic primitives *)

(** [chacha_keystream key nonce i] is byte [i] of the ChaCha20 key stream
    after [setKey(key, 32)] and [setIV(nonce, 12)]; [x25519 peerPublic
    private] is the secret that the mbedtls calls of
    [generateX25519SharedKey] write, [None] when one of them fails. *)
Class Crypto := {
  chacha_keystream : Bytes -> Bytes -> nat -> byte;
  x25519 : Bytes -> Bytes -> option Bytes
}.

(** ** SimpleCha2.cpp *)

Module SimpleCha2.

Definition KEY_SIZE : Z := 32.
Definition NONCE_SIZE : Z := 12.
Definition COUNTER_SIZE : Z := 4.
Definition IV_SIZE : Z := NONCE_SIZE - COUNTER_SIZE.

Record t := mk {
  key : Bytes;
  encryptCounter : Z;
  decryptCounter : Z
}.

Definition resetEncryptCounter (c : t) : t :=
  mk (key c) 0 (decryptCounter c).

Definition resetDecryptCounter (c : t) : t :=
  mk (key c) (encryptCounter c) 0.

Definition setKey (newKey : Bytes) (c : t) : t :=
  resetDecryptCounter (resetEncryptCounter
    (mk newKey (encryptCounter c) (decryptCounter c))).

(** The constructor: counters at 0, then [setKey]. *)
Definition new (initialKey : Bytes) : t := setKey initialKey (mk [] 0 0).

Definition getEncryptCounter (c : t) : Z := encryptCounter c.
Definition getDecryptCounter (c : t) : Z := decryptCounter c.

Definition createNonce (iv : Bytes) (counter : Z) : Bytes :=
  take (Z.to_nat IV_SIZE) iv ++ le32_bytes counter.

Definition extractCounter (nonce : Bytes) : Z :=
  le_Z (take (Z.to_nat COUNTER_SIZE) (drop (Z.to_nat IV_SIZE) nonce)).

Section WithCrypto.
Context {crypto : Crypto}.

(** [chacha.setKey; chacha.setIV; chacha.encrypt] (and [decrypt], the same
    operation): the input xored with the key stream from position 0. *)
Fixpoint xor_stream (ks : nat -> byte) (i : nat) (data : Bytes) : Bytes :=
  match data with
  | [] => []
  | b :: r => byte_xor b (ks i) :: xor_stream ks (S i) r
  end.

Definition chacha (k nonce data : Bytes) : Bytes :=
  xor_stream (chacha_keystream k nonce) 0 data.

(** [encrypt]: [iv] is what [generateIV] (esp_fill_random) returned. *)
Definition encrypt (iv : Bytes) (plaintext : Bytes) (c : t) : Bytes * t :=
  let counter := uint32 (encryptCounter c + 1) in
  let c' := mk (key c) counter (decryptCounter c) in
  let nonce := createNonce iv counter in
  let ciphertext := chacha (key c) nonce plaintext in
  (nonce ++ ciphertext, c').

Definition encryptStr (iv : Bytes) (plaintext : string) (c : t) : Bytes * t :=
  encrypt iv (bytes_of_String plaintext) c.

Definition decrypt (ciphertext : Bytes) (c : t) : Bytes * t :=
  if Z.of_nat (length ciphertext) <? NONCE_SIZE then ([], c)
  else
    let nonce := take (Z.to_nat NONCE_SIZE) ciphertext in
    let receivedCounter := extractCounter nonce in
    if receivedCounter <=? decryptCounter c then ([], c)
    else
      let c' := mk (key c) (encryptCounter c) receivedCounter in
      (chacha (key c) nonce (drop (Z.to_nat NONCE_SIZE) ciphertext), c').

Definition decryptToStr (ciphertext : Bytes) (c : t) : string * t :=
  let '(decrypted, c') := decrypt ciphertext c in
  match decrypted with
  | [] => (EmptyString, c')
  | _ => (String_of_bytes decrypted, c')
  end.

End WithCrypto.

End SimpleCha2.

(** ** Base64.h *)

Module Base64.

Definition encoding_table : string :=
  "ABCDEFGHIJKLMNOPQRSTUVWXYZabcdefghijklmnopqrstuvwxyz0123456789+/".

Definition encoding_char (n : Z) : ascii :=
  match String.get (Z.to_nat n) encoding_table with
  | Some c => c
  | None => "A"%char
  end.

(** One turn of the encoding loop: three octets (0 past the end of the
    data) give four characters. *)
Definition encode_triple (octet_a octet_b octet_c : Z) : list ascii :=
  let triple := Z.shiftl octet_a 16 + Z.shiftl octet_b 8 + octet_c in
  [encoding_char (Z.land (Z.shiftr triple (3 * 6)) 63);
   encoding_char (Z.land (Z.shiftr triple (2 * 6)) 63);
   encoding_char (Z.land (Z.shiftr triple (1 * 6)) 63);
   encoding_char (Z.land (Z.shiftr triple (0 * 6)) 63)].

Fixpoint encode_loop (data : Bytes) : list ascii :=
  match data with
  | [] => []
  | [a] => encode_triple (Z_of_byte a) 0 0
  | [a; b] => encode_triple (Z_of_byte a) (Z_of_byte b) 0
  | a :: b :: c :: r =>
      encode_triple (Z_of_byte a) (Z_of_byte b) (Z_of_byte c) ++ encode_loop r
  end.

Definition encode (data : Bytes) : string :=
  let len := Z.of_nat (length data) in
  let output_length := Z.to_nat (4 * ((len + 2) / 3)) in
  let encoded := encode_loop data in
  let encoded :=
    match len mod 3 with
    | 1 => <[(output_length - 2)%nat := "="%char]>
             (<[(output_length - 1)%nat := "="%char]> encoded)
    | 2 => <[(output_length - 1)%nat := "="%char]> encoded
    | _ => encoded
    end in
  string_of_list_ascii encoded.

Definition encodedLength (len : Z) : Z := 4 * ((len + 2) / 3).

Definition decoding_table : list Z :=
  [64; 64; 64; 64; 64; 64; 64; 64; 64; 64; 64; 64; 64; 64; 64; 64;
   64; 64; 64; 64; 64; 64; 64; 64; 64; 64; 64; 64; 64; 64; 64; 64;
   64; 64; 64; 64; 64; 64; 64; 64; 64; 64; 64; 62; 64; 64; 64; 63;
   52; 53; 54; 55; 56; 57; 58; 59; 60; 61; 64; 64; 64; 64; 64; 64;
   64;  0;  1;  2;  3;  4;  5;  6;  7;  8;  9; 10; 11; 12; 13; 14;
   15; 16; 17; 18; 19; 20; 21; 22; 23; 24; 25; 64; 64; 64; 64; 64;
   64; 26; 27; 28; 29; 30; 31; 32; 33; 34; 35; 36; 37; 38; 39; 40;
   41; 42; 43; 44; 45; 46; 47; 48; 49; 50; 51; 64; 64; 64; 64; 64;
   64; 64; 64; 64; 64; 64; 64; 64; 64; 64; 64; 64; 64; 64; 64; 64;
   64; 64; 64; 64; 64; 64; 64; 64; 64; 64; 64; 64; 64; 64; 64; 64;
   64; 64; 64; 64; 64; 64; 64; 64; 64; 64; 64; 64; 64; 64; 64; 64;
   64; 64; 64; 64; 64; 64; 64; 64; 64; 64; 64; 64; 64; 64; 64; 64;
   64; 64; 64; 64; 64; 64; 64; 64; 64; 64; 64; 64; 64; 64; 64; 64;
   64; 64; 64; 64; 64; 64; 64; 64; 64; 64; 64; 64; 64; 64; 64; 64;
   64; 64; 64; 64; 64; 64; 64; 64; 64; 64; 64; 64; 64; 64; 64; 64].

(** The table has 256 entries; those not listed are 0. *)
Definition sextet (c : ascii) : Z :=
  if Ascii.eqb c "="%char then 0
  else nth (N.to_nat (N_of_ascii c)) decoding_table 0.

Definition decode_quad (a b c d : ascii) : Bytes :=
  let triple := Z.shiftl (sextet a) (3 * 6) + Z.shiftl (sextet b) (2 * 6)
                + Z.shiftl (sextet c) (1 * 6) + Z.shiftl (sextet d) (0 * 6) in
  [byte_of_Z (Z.land (Z.shiftr triple (2 * 8)) 255);
   byte_of_Z (Z.land (Z.shiftr triple (1 * 8)) 255);
   byte_of_Z (Z.land (Z.shiftr triple (0 * 8)) 255)].

Fixpoint decode_loop (input : list ascii) : Bytes :=
  match input with
  | a :: b :: c :: d :: r => decode_quad a b c d ++ decode_loop r
  | _ => []
  end.

Definition is_pad_at (input : list ascii) (i : Z) : bool :=
  if i <? 0 then false
  else match input !! Z.to_nat i with
       | Some c => Ascii.eqb c "="%char
       | None => false
       end.

(** [decodedLength]: [size_t] arithmetic. *)
Definition decodedLength (input : string) : Z :=
  let l := list_ascii_of_string input in
  let input_length := Z.of_nat (length l) in
  let padding :=
    (if is_pad_at l (input_length - 1) then 1 else 0)
    + (if is_pad_at l (input_length - 2) then 1 else 0) in
  uint32 ((input_length / 4) * 3 - padding).

(** [decode(input, uint8_t* output)]: the bytes written and the length
    returned; the loop stores a byte only while [j < output_length]. *)
Definition decode_raw (input : string) : Bytes * Z :=
  let l := list_ascii_of_string input in
  let input_length := Z.of_nat (length l) in
  if negb (input_length mod 4 =? 0) then ([], 0)
  else
    let output_length := input_length / 4 * 3 in
    let output_length :=
      if is_pad_at l (input_length - 1)
      then uint32 (output_length - 1) else output_length in
    let output_length :=
      if is_pad_at l (input_length - 2)
      then uint32 (output_length - 1) else output_length in
    (take (Z.to_nat output_length) (decode_loop l), output_length).

(** [decode(input, Bytes& output)] and [Bytes decode(input)]: the buffer is
    resized (zero-filled) to [decodedLength], then overwritten from the
    start. *)
Definition decode (input : string) : Bytes :=
  let output_length := Z.to_nat (decodedLength input) in
  let written := fst (decode_raw input) in
  take output_length (written ++ replicate (output_length - length written) x00).

End Base64.

(** ** ArduinoJson documents *)

(** The documents the code builds and inspects hold strings, arrays, objects
    and null. The printer and the parser of the library are an interface. *)
Module Json.

#[local] Unset Elimination Schemes.

Inductive t :=
| JNull
| JString (s : string)
| JArray (l : list t)
| JObject (m : list (string * t)).

#[local] Set Elimination Schemes.

Fixpoint assoc_get (k : string) (m : list (string * t)) : t :=
  match m with
  | [] => JNull
  | (k', v) :: r => if String.eqb k k' then v else assoc_get k r
  end.

Fixpoint assoc_set (k : string) (x : t) (m : list (string * t))
  : list (string * t) :=
  match m with
  | [] => [(k, x)]
  | (k', v) :: r =>
      if String.eqb k k' then (k', x) :: r else (k', v) :: assoc_set k x r
  end.

(** [v[k]] read: null unless [v] is an object that has the member. *)
Definition member (k : string) (v : t) : t :=
  match v with
  | JObject m => assoc_get k m
  | _ => JNull
  end.

(** [v[i]] read: null unless [v] is an array that has the element. *)
Definition element (i : nat) (v : t) : t :=
  match v with
  | JArray l => nth i l JNull
  | _ => JNull
  end.

(** [v[k] = x]: a null [v] becomes an object; a value of another type is
    left as it is. *)
Definition set_member (k : string) (x : t) (v : t) : t :=
  match v with
  | JNull => JObject [(k, x)]
  | JObject m => JObject (assoc_set k x m)
  | _ => v
  end.

(** [v[i] = x]: a null [v] becomes an array; an array shorter than [i] is
    extended with nulls. *)
Definition set_element (i : nat) (x : t) (v : t) : t :=
  match v with
  | JNull => JArray (replicate i JNull ++ [x])
  | JArray l =>
      if (i <? length l)%nat then JArray (<[i := x]> l)
      else JArray (l ++ replicate (i - length l) JNull ++ [x])
  | _ => v
  end.

Definition isNull (v : t) : bool :=
  match v with JNull => true | _ => false end.

Definition is_JsonArray (v : t) : bool :=
  match v with JArray _ => true | _ => false end.

Definition is_JsonObject (v : t) : bool :=
  match v with JObject _ => true | _ => false end.

(** [v == "..."]: only a string value compares equal to a string. *)
Definition eq_str (v : t) (s : string) : bool :=
  match v with
  | JString s' => String.eqb s' s
  | _ => false
  end.

End Json.

Class JsonCodec := {
  serializeJson : Json.t -> string;
  deserializeJson : string -> option Json.t
}.

(** [v.as<String>()]: the characters of a string value, the JSON text of
    any other value. *)
Definition as_String {codec : JsonCodec} (v : Json.t) : string :=
  match v with
  | Json.JString s => s
  | _ => serializeJson v
  end.

(** ** The RF24 transceiver *)

(** What the code observes of the driver: the pipes it opened, the received
    payloads waiting in the FIFO with the pipe each arrived on, the fixed
    payload size, the frames handed to [write] and whether each of the next
    writes is acknowledged. *)
Module Radio.

Record t := mk {
  present : bool;
  channel : Z;
  readingPipes : list (Z * string);
  writingPipe : string;
  listening : bool;
  payloadSize : Z;
  rxFifo : list (Z * Bytes);
  acks : list bool;
  txLog : list Bytes
}.

Definition begin (r : t) : bool := present r.

Definition setChannel (c : Z) (r : t) : t :=
  mk (present r) c (readingPipes r) (writingPipe r) (listening r)
     (payloadSize r) (rxFifo r) (acks r) (txLog r).

(** The address a pipe listens on is the one of the last
    [openReadingPipe] for it. *)
Definition openReadingPipe (pipe : Z) (address : string) (r : t) : t :=
  mk (present r) (channel r) ((pipe, address) :: readingPipes r)
     (writingPipe r) (listening r) (payloadSize r) (rxFifo r) (acks r)
     (txLog r).

Fixpoint lookup_pipe (pipe : Z) (l : list (Z * string)) : option string :=
  match l with
  | [] => None
  | (p, a) :: rest => if p =? pipe then Some a else lookup_pipe pipe rest
  end.

Definition readingPipe (pipe : Z) (r : t) : option string :=
  lookup_pipe pipe (readingPipes r).

Definition openWritingPipe (address : string) (r : t) : t :=
  mk (present r) (channel r) (readingPipes r) address (listening r)
     (payloadSize r) (rxFifo r) (acks r) (txLog r).

Definition set_listening (b : bool) (r : t) : t :=
  mk (present r) (channel r) (readingPipes r) (writingPipe r) b
     (payloadSize r) (rxFifo r) (acks r) (txLog r).

Definition startListening : t -> t := set_listening true.
Definition stopListening : t -> t := set_listening false.

(** [available(&pipe_num)]. *)
Definition available (r : t) : option Z :=
  match rxFifo r with
  | [] => None
  | (pipe, _) :: _ => Some pipe
  end.

Definition getPayloadSize (r : t) : Z := payloadSize r.

Definition resize (n : nat) (b : Bytes) : Bytes :=
  take n b ++ replicate (n - length b) x00.

(** [read(buf, len)]: the first [len] bytes of the oldest payload, which
    leaves the FIFO. *)
Definition read (len : Z) (r : t) : Bytes * t :=
  match rxFifo r with
  | [] => (replicate (Z.to_nat len) x00, r)
  | (_, payload) :: rest =>
      (resize (Z.to_nat len) payload,
       mk (present r) (channel r) (readingPipes r) (writingPipe r)
          (listening r) (payloadSize r) rest (acks r) (txLog r))
  end.

(** [write(buf, len)]: the frame on the air is the first [len] bytes of the
    buffer, zero-filled to the payload size; the result is the
    acknowledgement. *)
Definition write (buf : Bytes) (len : Z) (r : t) : bool * t :=
  let frame := resize (Z.to_nat (payloadSize r)) (take (Z.to_nat len) buf) in
  let ack := match acks r with [] => false | a :: _ => a end in
  (ack,
   mk (present r) (channel r) (readingPipes r) (writingPipe r) (listening r)
      (payloadSize r) (rxFifo r) (tl (acks r)) (txLog r ++ [frame])).

(** A payload arriving from the air on a pipe. *)
Definition deliver (pipe : Z) (payload : Bytes) (r : t) : t :=
  mk (present r) (channel r) (readingPipes r) (writingPipe r) (listening r)
     (payloadSize r) (rxFifo r ++ [(pipe, payload)]) (acks r) (txLog r).

Definition set_acks (a : list bool) (r : t) : t :=
  mk (present r) (channel r) (readingPipes r) (writingPipe r) (listening r)
     (payloadSize r) (rxFifo r) a (txLog r).

End Radio.

(** ** RadioManager.h: constants and data *)

Module RadioManager.

Definition KEY_SIZE : Z := 32.
Definition MAX_CHANNELS : Z := 5.
Definition NRF_BUF_SIZE : Z := 32.
Definition CONFIG_CHANNEL : Z := 109.
Definition DATA_CHANNEL : Z := 108.
Definition RECEIVE_TIMEOUT : Z := 1000.
Definition PAIRING_TIMEOUT : Z := 10000.
Definition PAIRING_INTERVAL : Z := 250.
Definition PAIRING_LISTEN_TIME : Z := 5000.
Definition MAX_PACKET_SIZE : Z := 32.
Definition MAX_MSG_SIZE : Z := 2048.
Definition MAX_PACKETS_RCV : Z := 100.
Definition MAX_MAILBOX_MSG : Z := 3.
Definition HEADER_SIZE : Z := 3.
Definition START_CODE : byte := "M"%byte.
Definition CONTINUE_CODE : byte := "C"%byte.

Inductive State :=
| IDLE
| TRANSMITTING
| RECEIVING
| PAIRING_LISTEN
| PAIRING_TRANSMIT.

Definition State_eqb (a b : State) : bool :=
  match a, b with
  | IDLE, IDLE | TRANSMITTING, TRANSMITTING | RECEIVING, RECEIVING
  | PAIRING_LISTEN, PAIRING_LISTEN | PAIRING_TRANSMIT, PAIRING_TRANSMIT => true
  | _, _ => false
  end.

Record PairedDevice := mkPairedDevice {
  addr : string;
  mailbox : list Bytes;
  sharedKey : Bytes;
  publicKey : Bytes;
  chaObject : SimpleCha2.t
}.

(** The [static] locals of [receiveData] and [rxBuffer]. *)
Record Receive := mkReceive {
  rxBuffer : Bytes;
  lastReceiveTime : Z;
  expectedFragments : Z;
  receivedFragments : Z
}.

(** The pairing variables; [tempCha] is a pointer, [None] when null. *)
Record Pairing := mkPairing {
  lastPairingAttempt : Z;
  pairingStartTime : Z;
  isUnpairReq : bool;
  gotPubKey : bool;
  sentPubKey : bool;
  gotAck : bool;
  sentAck : bool;
  tempPublicKey : Bytes;
  tempSharedKey : Bytes;
  tempPayload : Bytes;
  pairingChannel : Z;
  tempCha : option SimpleCha2.t
}.

(** The message being sent; [currentMsgStatus] is the caller's status
    variable, [None] when the pointer is null. *)
Record Outgoing := mkOutgoing {
  outgoingMsg : Bytes;
  outgoingMsgIndex : Z;
  outgoingTargetAddr : string;
  currentMsgStatus : option Z
}.

Record t := mk {
  isEnabled : bool;
  radio : Radio.t;
  currentState : State;
  radioID : string;
  pairedDevices : list PairedDevice;
  rx : Receive;
  pairing : Pairing;
  out : Outgoing;
  personalPublicKey : Bytes;
  privateKey : Bytes
}.

Definition set_isEnabled (v : bool) (s : t) : t :=
  mk v (radio s) (currentState s) (radioID s) (pairedDevices s) (rx s)
     (pairing s) (out s) (personalPublicKey s) (privateKey s).

Definition set_radio (v : Radio.t) (s : t) : t :=
  mk (isEnabled s) v (currentState s) (radioID s) (pairedDevices s) (rx s)
     (pairing s) (out s) (personalPublicKey s) (privateKey s).

Definition set_currentState (v : State) (s : t) : t :=
  mk (isEnabled s) (radio s) v (radioID s) (pairedDevices s) (rx s)
     (pairing s) (out s) (personalPublicKey s) (privateKey s).

Definition set_pairedDevices (v : list PairedDevice) (s : t) : t :=
  mk (isEnabled s) (radio s) (currentState s) (radioID s) v (rx s)
     (pairing s) (out s) (personalPublicKey s) (privateKey s).

Definition set_rx (v : Receive) (s : t) : t :=
  mk (isEnabled s) (radio s) (currentState s) (radioID s) (pairedDevices s) v
     (pairing s) (out s) (personalPublicKey s) (privateKey s).

Definition set_pairing (v : Pairing) (s : t) : t :=
  mk (isEnabled s) (radio s) (currentState s) (radioID s) (pairedDevices s)
     (rx s) v (out s) (personalPublicKey s) (privateKey s).

Definition set_out (v : Outgoing) (s : t) : t :=
  mk (isEnabled s) (radio s) (currentState s) (radioID s) (pairedDevices s)
     (rx s) (pairing s) v (personalPublicKey s) (privateKey s).

Definition set_personalKeys (pub priv : Bytes) (s : t) : t :=
  mk (isEnabled s) (radio s) (currentState s) (radioID s) (pairedDevices s)
     (rx s) (pairing s) (out s) pub priv.

(** Changes to the radio, to one slot of the directory and to the pairing
    variables. *)
Definition on_radio (f : Radio.t -> Radio.t) (s : t) : t :=
  set_radio (f (radio s)) s.

Definition on_device (channel : Z) (f : PairedDevice -> PairedDevice) (s : t)
  : t :=
  set_pairedDevices (alter f (Z.to_nat channel) (pairedDevices s)) s.

Definition on_pairing (f : Pairing -> Pairing) (s : t) : t :=
  set_pairing (f (pairing s)) s.

Definition set_lastPairingAttempt (v : Z) (p : Pairing) : Pairing :=
  mkPairing v (pairingStartTime p) (isUnpairReq p) (gotPubKey p)
    (sentPubKey p) (gotAck p) (sentAck p) (tempPublicKey p) (tempSharedKey p)
    (tempPayload p) (pairingChannel p) (tempCha p).

Definition set_pairingStartTime (v : Z) (p : Pairing) : Pairing :=
  mkPairing (lastPairingAttempt p) v (isUnpairReq p) (gotPubKey p)
    (sentPubKey p) (gotAck p) (sentAck p) (tempPublicKey p) (tempSharedKey p)
    (tempPayload p) (pairingChannel p) (tempCha p).

Definition set_isUnpairReq (v : bool) (p : Pairing) : Pairing :=
  mkPairing (lastPairingAttempt p) (pairingStartTime p) v (gotPubKey p)
    (sentPubKey p) (gotAck p) (sentAck p) (tempPublicKey p) (tempSharedKey p)
    (tempPayload p) (pairingChannel p) (tempCha p).

Definition set_gotPubKey (v : bool) (p : Pairing) : Pairing :=
  mkPairing (lastPairingAttempt p) (pairingStartTime p) (isUnpairReq p) v
    (sentPubKey p) (gotAck p) (sentAck p) (tempPublicKey p) (tempSharedKey p)
    (tempPayload p) (pairingChannel p) (tempCha p).

Definition set_sentPubKey (v : bool) (p : Pairing) : Pairing :=
  mkPairing (lastPairingAttempt p) (pairingStartTime p) (isUnpairReq p)
    (gotPubKey p) v (gotAck p) (sentAck p) (tempPublicKey p) (tempSharedKey p)
    (tempPayload p) (pairingChannel p) (tempCha p).

Definition set_gotAck (v : bool) (p : Pairing) : Pairing :=
  mkPairing (lastPairingAttempt p) (pairingStartTime p) (isUnpairReq p)
    (gotPubKey p) (sentPubKey p) v (sentAck p) (tempPublicKey p)
    (tempSharedKey p) (tempPayload p) (pairingChannel p) (tempCha p).

Definition set_sentAck (v : bool) (p : Pairing) : Pairing :=
  mkPairing (lastPairingAttempt p) (pairingStartTime p) (isUnpairReq p)
    (gotPubKey p) (sentPubKey p) (gotAck p) v (tempPublicKey p)
    (tempSharedKey p) (tempPayload p) (pairingChannel p) (tempCha p).

Definition set_tempPublicKey (v : Bytes) (p : Pairing) : Pairing :=
  mkPairing (lastPairingAttempt p) (pairingStartTime p) (isUnpairReq p)
    (gotPubKey p) (sentPubKey p) (gotAck p) (sentAck p) v (tempSharedKey p)
    (tempPayload p) (pairingChannel p) (tempCha p).

Definition set_tempSharedKey (v : Bytes) (p : Pairing) : Pairing :=
  mkPairing (lastPairingAttempt p) (pairingStartTime p) (isUnpairReq p)
    (gotPubKey p) (sentPubKey p) (gotAck p) (sentAck p) (tempPublicKey p) v
    (tempPayload p) (pairingChannel p) (tempCha p).

Definition set_tempPayload (v : Bytes) (p : Pairing) : Pairing :=
  mkPairing (lastPairingAttempt p) (pairingStartTime p) (isUnpairReq p)
    (gotPubKey p) (sentPubKey p) (gotAck p) (sentAck p) (tempPublicKey p)
    (tempSharedKey p) v (pairingChannel p) (tempCha p).

Definition set_tempCha (v : option SimpleCha2.t) (p : Pairing) : Pairing :=
  mkPairing (lastPairingAttempt p) (pairingStartTime p) (isUnpairReq p)
    (gotPubKey p) (sentPubKey p) (gotAck p) (sentAck p) (tempPublicKey p)
    (tempSharedKey p) (tempPayload p) (pairingChannel p) v.

Definition zero_key : Bytes := replicate (Z.to_nat KEY_SIZE) x00.

(** Unsigned 32-bit subtraction of two [millis()] readings. *)
Definition elapsed (now since : Z) : Z := uint32 (now - since).

(** [*status = v] through a pointer that may be null. *)
Definition store_status (status : option Z) (v : Z) : option Z :=
  match status with
  | None => None
  | Some _ => Some (uint8 v)
  end.

(** ** RadioManager.cpp: construction, mailbox and directory *)

Section Operations.
Context {crypto : Crypto} {codec : JsonCodec}.

Definition empty_device : PairedDevice :=
  mkPairedDevice EmptyString [] zero_key zero_key (SimpleCha2.new zero_key).

(** The [radio_id] is brought to exactly 4 characters. *)
Fixpoint left_pad_0 (n : nat) (tempID : string) : string :=
  match n with
  | O => tempID
  | S n' => left_pad_0 n' ("0" ++ tempID)%string
  end.

Definition adjust_radio_id (radio_id : string) : string :=
  let len := String.length radio_id in
  if (len <? 4)%nat then left_pad_0 (4 - len) radio_id
  else if (4 <? len)%nat then String.substring 0 4 radio_id
  else radio_id.

(** The constructor; [keys] is the pair that [generateX25519KeyPair] wrote
    (public, private).  The members that its initialiser list and body leave
    alone ([outgoingMsgIndex], [currentMsgStatus], the pairing flags, keys
    and channel) are 0 and false here: main.cpp holds the instance in a global,
    whose storage is zeroed before the constructor runs. *)
Definition new (hw : Radio.t) (radio_id : string) (keys : Bytes * Bytes) : t :=
  mk false hw IDLE (adjust_radio_id radio_id)
     (replicate (Z.to_nat MAX_CHANNELS) empty_device)
     (mkReceive [] 0 0 0)
     (mkPairing 0 0 false false false false false [] [] [] 0 None)
     (mkOutgoing [] 0 EmptyString None)
     (fst keys) (snd keys).

Definition device (channel : Z) (s : t) : option PairedDevice :=
  if (0 <=? channel) && (channel <? MAX_CHANNELS)
  then pairedDevices s !! Z.to_nat channel
  else None.

Definition String_isEmpty (a : string) : bool :=
  match a with EmptyString => true | _ => false end.

Definition own_address (n : Z) (s : t) : string :=
  (String_of_Z n ++ radioID s)%string.

Fixpoint open_paired_pipes (i : Z) (devs : list PairedDevice) (id : string)
  (r : Radio.t) : Radio.t :=
  match devs with
  | [] => r
  | d :: rest =>
      let r := if negb (String_isEmpty (addr d))
               then Radio.openReadingPipe (i + 1) (String_of_Z i ++ id)%string r
               else r in
      open_paired_pipes (i + 1) rest id r
  end.

Definition begin (s : t) : bool * t :=
  if negb (Radio.begin (radio s)) then (false, set_isEnabled false s)
  else
    let s := set_isEnabled true s in
    let s := on_radio (Radio.setChannel DATA_CHANNEL) s in
    let s := on_radio (open_paired_pipes 0
                         (take (Z.to_nat MAX_CHANNELS) (pairedDevices s))
                         (radioID s)) s in
    (true, on_radio Radio.startListening s).

Definition getCurrentState (s : t) : State := currentState s.

Definition isBusy (s : t) : bool :=
  State_eqb (currentState s) PAIRING_LISTEN
  || State_eqb (currentState s) PAIRING_TRANSMIT
  || State_eqb (currentState s) TRANSMITTING
  || State_eqb (currentState s) RECEIVING.

Definition isAvailable (s : t) : bool := negb (isBusy s).

Definition isMsgAvailable (channel : Z) (s : t) : Z :=
  match device channel s with
  | Some d =>
      if negb (String_isEmpty (addr d))
      then uint8 (Z.of_nat (length (mailbox d))) else 0
  | None => 0
  end.

Definition set_mailbox (m : list Bytes) (d : PairedDevice) : PairedDevice :=
  mkPairedDevice (addr d) m (sharedKey d) (publicKey d) (chaObject d).

Definition set_chaObject (c : SimpleCha2.t) (d : PairedDevice) : PairedDevice :=
  mkPairedDevice (addr d) (mailbox d) (sharedKey d) (publicKey d) c.

Definition readMsg (channel : Z) (s : t) : Bytes * t :=
  match device channel s with
  | Some d =>
      match mailbox d with
      | msg :: rest =>
          if negb (String_isEmpty (addr d))
          then (msg, on_device channel (set_mailbox rest) s)
          else ([], s)
      | [] => ([], s)
      end
  | None => ([], s)
  end.

Definition clearMessages (channel : Z) (s : t) : t :=
  if channel <? MAX_CHANNELS then on_device channel (set_mailbox []) s else s.

Definition getPairedAddr (channel : Z) (s : t) : string :=
  match device channel s with
  | Some d => addr d
  | None => EmptyString
  end.

(** [substring(1, 5)]. *)
Definition getPairedUID (channel : Z) (s : t) : string :=
  match device channel s with
  | Some d => String.substring 1 4 (addr d)
  | None => EmptyString
  end.

(** The [for] loops over the channels, from [i] for [n] turns. *)
Fixpoint find_channel (p : Z -> bool) (i : Z) (n : nat) : option Z :=
  match n with
  | O => None
  | S n' => if p i then Some i else find_channel p (i + 1) n'
  end.

Definition getPairedChannel (uid : string) (s : t) : Z :=
  match find_channel (fun i => String.eqb (getPairedUID i s) uid) 0
          (Z.to_nat MAX_CHANNELS) with
  | Some i => i
  | None => 255
  end.

Definition getAvailableChannel (s : t) : Z :=
  match find_channel (fun i => String_isEmpty (getPairedAddr i s)) 0
          (Z.to_nat MAX_CHANNELS) with
  | Some i => i
  | None => 255
  end.

(** [generateX25519SharedKey]: [None] is the [false] result, which leaves
    the output buffer as it was. *)
Definition generateX25519SharedKey (peerPublicKey priv : Bytes)
  : option Bytes := x25519 peerPublicKey priv.

Definition clearPairedAddr (channel : Z) (s : t) : t :=
  if (0 <=? channel) && (channel <? MAX_CHANNELS) then
    on_device channel
      (fun d => mkPairedDevice EmptyString [] zero_key zero_key
                  (SimpleCha2.setKey zero_key (chaObject d))) s
  else s.

Definition setDevicePublicKey (channel : Z) (newPublicKey : Bytes) (s : t) : t :=
  if channel <? MAX_CHANNELS then
    on_device channel
      (fun d => mkPairedDevice (addr d) (mailbox d) (sharedKey d) newPublicKey
                  (chaObject d)) s
  else s.

Definition setDeviceSharedKey (channel : Z) (newSharedKey : Bytes) (s : t) : t :=
  if channel <? MAX_CHANNELS then
    on_device channel
      (fun d => mkPairedDevice (addr d) (mailbox d) newSharedKey (publicKey d)
                  (SimpleCha2.setKey newSharedKey (chaObject d))) s
  else s.

(** [setPairedAddr(address, channel, uint8_t* publicKey)]; [None] is the
    null pointer. *)
Definition setPairedAddr (address : string) (channel : Z)
  (pubKey : option Bytes) (s : t) : bool * t :=
  if (0 <=? channel) && (channel <? MAX_CHANNELS) then
    let derived :=
      match pubKey with
      | Some pk => match generateX25519SharedKey pk (privateKey s) with
                   | Some shared => Some (Some (pk, shared))
                   | None => None
                   end
      | None => Some None
      end in
    match derived with
    | None => (false, s)
    | Some keys =>
        let s := clearPairedAddr channel s in
        let s := on_device channel
                   (fun d => mkPairedDevice address (mailbox d) (sharedKey d)
                               (publicKey d) (chaObject d)) s in
        let s := match keys with
                 | Some (pk, shared) =>
                     setDeviceSharedKey channel shared
                       (setDevicePublicKey channel pk s)
                 | None => s
                 end in
        (true, on_radio (Radio.openReadingPipe (channel + 1)
                           (own_address channel s)) s)
    end
  else (false, s).

(** The overload taking [Bytes& publicKey]. *)
Definition setPairedAddrBytes (address : string) (channel : Z)
  (pubKey : Bytes) (s : t) : bool * t :=
  if negb (Z.of_nat (length pubKey) =? KEY_SIZE) then (false, s)
  else setPairedAddr address channel (Some pubKey) s.

Fixpoint open_all_pipes (i : Z) (n : nat) (id : string) (r : Radio.t)
  : Radio.t :=
  match n with
  | O => r
  | S n' =>
      open_all_pipes (i + 1) n' id
        (Radio.openReadingPipe (i + 1) (String_of_Z (i + 1) ++ id)%string r)
  end.

Definition initRadio (s : t) : t :=
  let s := on_radio (Radio.setChannel DATA_CHANNEL) s in
  let s := on_radio (open_all_pipes 0 (Z.to_nat MAX_CHANNELS) (radioID s)) s in
  on_radio Radio.startListening s.

Definition clearPairedUID (uid : string) (s : t) : bool * t :=
  match find_channel (fun i => String.eqb (getPairedUID i s) uid) 0
          (Z.to_nat MAX_CHANNELS) with
  | Some i => (true, clearPairedAddr i s)
  | None => (false, s)
  end.

Definition isAlphaNumeric (c : ascii) : bool :=
  let n := Z.of_N (N_of_ascii c) in
  ((48 <=? n) && (n <=? 57)) || ((65 <=? n) && (n <=? 90))
  || ((97 <=? n) && (n <=? 122)).

Definition checkValidAddr (a : string) : bool :=
  match list_ascii_of_string a with
  | [c0; c1; c2; c3; c4] =>
      let n := Z.of_N (N_of_ascii c0) in
      if (n <? 48) || (53 <? n) then false
      else forallb isAlphaNumeric [c1; c2; c3; c4]
  | _ => false
  end.

Definition setPersonalKeys (pub priv : Bytes) (s : t) : bool * t :=
  if (Z.of_nat (length pub) =? KEY_SIZE) && (Z.of_nat (length priv) =? KEY_SIZE)
  then (true, set_personalKeys pub priv s)
  else (false, s).

Definition getPersonalKeys (s : t) : Bytes * Bytes :=
  (personalPublicKey s, privateKey s).


Definition encryptMessage (iv : Bytes) (channel : Z) (message : Bytes) (s : t)
  : Bytes * t :=
  match (if channel <? MAX_CHANNELS then pairedDevices s !! Z.to_nat channel
         else None) with
  | Some d =>
      let '(c, cha) := SimpleCha2.encrypt iv message (chaObject d) in
      (c, on_device channel (set_chaObject cha) s)
  | None => ([], s)
  end.

Definition decryptMessage (channel : Z) (encryptedMessage : Bytes) (s : t)
  : Bytes * t :=
  match (if channel <? MAX_CHANNELS then pairedDevices s !! Z.to_nat channel
         else None) with
  | Some d =>
      let '(m, cha) := SimpleCha2.decrypt encryptedMessage (chaObject d) in
      (m, on_device channel (set_chaObject cha) s)
  | None => ([], s)
  end.

Definition pad (payload : Bytes) (paddingSize : Z) : Bytes :=
  let size := Z.of_nat (length payload) in
  if size <? paddingSize
  then payload ++ replicate (Z.to_nat (paddingSize - size)) x00
  else if paddingSize <? size then take (Z.to_nat paddingSize) payload
  else payload.

(** [unpad]: the loop pops the last byte while it is zero. *)
Fixpoint unpad_loop (fuel : nat) (payload : Bytes) : Bytes :=
  match fuel with
  | O => payload
  | S fuel' =>
      match last payload with
      | Some b =>
          if is_zero_byte b then unpad_loop fuel' (removelast payload)
          else payload
      | None => payload
      end
  end.

Definition unpad (payload : Bytes) : Bytes :=
  unpad_loop (length payload) payload.

(** ** RadioManager.cpp: sending *)

(** [memcpy(dst + off, src, length src)] inside a buffer. *)
Definition memcpy_at (dst : Bytes) (off : nat) (src : Bytes) : Bytes :=
  take off dst ++ src ++ drop (off + length src) dst.

Definition set_outgoingMsg (m : Bytes) (o : Outgoing) : Outgoing :=
  mkOutgoing m (outgoingMsgIndex o) (outgoingTargetAddr o) (currentMsgStatus o).

Definition set_outgoingMsgIndex (i : Z) (o : Outgoing) : Outgoing :=
  mkOutgoing (outgoingMsg o) i (outgoingTargetAddr o) (currentMsgStatus o).

Definition set_currentMsgStatus (st : option Z) (o : Outgoing) : Outgoing :=
  mkOutgoing (outgoingMsg o) (outgoingMsgIndex o) (outgoingTargetAddr o) st.

Definition sendData (s : t) : t :=
  let PAYLOAD_SIZE := uint16 (MAX_PACKET_SIZE - HEADER_SIZE) in
  let msgSize := Z.of_nat (length (outgoingMsg (out s))) in
  let totalFragments := uint32 (msgSize + PAYLOAD_SIZE - 1) / PAYLOAD_SIZE in
  let index := outgoingMsgIndex (out s) in
  if index <? msgSize then
    let remainingSize := uint32 (msgSize - index) in
    let packetSize := Z.min PAYLOAD_SIZE remainingSize in
    let packet := replicate (Z.to_nat MAX_PACKET_SIZE) x00 in
    let header_code :=
      if index =? 0 then START_CODE else CONTINUE_CODE in
    let header_index :=
      if index =? 0 then uint16 (totalFragments - 1)
      else if remainingSize <=? PAYLOAD_SIZE then 0
           else uint16 (totalFragments - 1 - index / PAYLOAD_SIZE) in
    let packet := memcpy_at packet 0 (header_code :: le16_bytes header_index) in
    let packet :=
      memcpy_at packet (Z.to_nat HEADER_SIZE)
        (take (Z.to_nat packetSize)
           (drop (Z.to_nat index) (outgoingMsg (out s)))) in
    let packet := pad packet MAX_PACKET_SIZE in
    let '(ok, hw) := Radio.write packet (HEADER_SIZE + packetSize) (radio s) in
    let s := set_radio hw s in
    if negb ok then
      let s := set_currentState IDLE s in
      let s := on_radio Radio.startListening s in
      set_out (set_currentMsgStatus
                 (store_status (currentMsgStatus (out s)) (-1)) (out s)) s
    else
      let index := uint32 (index + packetSize) in
      let s := set_out (set_outgoingMsgIndex index (out s)) s in
      if msgSize <=? index then
        let s := set_currentState IDLE s in
        let s := on_radio Radio.startListening s in
        set_out (set_currentMsgStatus
                   (store_status (currentMsgStatus (out s)) 1) (out s)) s
      else s
  else s.

(** The first slot whose address is the target. *)
Definition find_target (targetAddr : string) (s : t) : option Z :=
  find_channel (fun i => match pairedDevices s !! Z.to_nat i with
                         | Some d => String.eqb (addr d) targetAddr
                         | None => false
                         end) 0 (Z.to_nat MAX_CHANNELS).

(** [sendMsgToAddr(const Bytes&, ...)]: the result, the caller's status
    variable after the call and the new state. [iv] is the entropy that an
    encryption would draw. *)
Definition sendMsgToAddr (iv : Bytes) (msg : Bytes) (targetAddr : string)
  (status : option Z) (encryption : bool) (s : t) : bool * option Z * t :=
  if negb (isEnabled s) then (false, store_status status (-1), s)
  else if negb (State_eqb (currentState s) IDLE)
          || (MAX_MSG_SIZE <? Z.of_nat (length msg))
  then (false, store_status status (-1), s)
  else
    let s := set_currentState TRANSMITTING s in
    let s := set_out (set_outgoingMsg [] (out s)) s in
    let s :=
      if encryption then
        match find_target targetAddr s with
        | Some targetChannel =>
            let '(c, s) := encryptMessage iv targetChannel msg s in
            set_out (set_outgoingMsg c (out s)) s
        | None => set_out (set_outgoingMsg msg (out s)) s
        end
      else set_out (set_outgoingMsg msg (out s)) s in
    let s := set_out (mkOutgoing (outgoingMsg (out s)) 0 targetAddr
                        (store_status status 0)) s in
    let s := on_radio Radio.stopListening s in
    let s := on_radio (Radio.openWritingPipe targetAddr) s in
    let s := sendData s in
    (true, currentMsgStatus (out s), s).

(** [sendMsgToAddr(const String&, ...)]. *)
Definition sendMsgToAddrStr (iv : Bytes) (msg : string) (targetAddr : string)
  (status : option Z) (encryption : bool) (s : t) : bool * option Z * t :=
  if negb (isEnabled s) then (false, store_status status (-1), s)
  else sendMsgToAddr iv (bytes_of_String msg) targetAddr status encryption s.

(** [sendMsg(const Bytes&, ...)]. *)
Definition sendMsg (iv : Bytes) (msg : Bytes) (channel : Z)
  (status : option Z) (encryption : bool) (s : t) : bool * option Z * t :=
  if negb (isEnabled s) then (false, store_status status (-1), s)
  else
    match device channel s with
    | Some d =>
        if String_isEmpty (addr d) then (false, store_status status (-1), s)
        else sendMsgToAddr iv msg (addr d) status encryption s
    | None => (false, store_status status (-1), s)
    end.

(** [sendMsg(const String&, ...)]. *)
Definition sendMsgStr (iv : Bytes) (msg : string) (channel : Z)
  (status : option Z) (encryption : bool) (s : t) : bool * option Z * t :=
  if negb (isEnabled s) then (false, store_status status (-1), s)
  else sendMsg iv (bytes_of_String msg) channel status encryption s.

(** ** RadioManager.cpp: receiving *)

(** The packed [PacketHeader] at the start of a buffer: the code and the
    little-endian index. *)
Definition read_header (packet : Bytes) : option (byte * Z) :=
  match packet with
  | code :: i0 :: i1 :: _ => Some (code, le_Z [i0; i1])
  | _ => None
  end.

(** A full mailbox drops its oldest message. *)
Definition push_mailbox (m : Bytes) (d : PairedDevice) : PairedDevice :=
  if Z.of_nat (length (mailbox d)) <? MAX_MAILBOX_MSG
  then set_mailbox (mailbox d ++ [m]) d
  else set_mailbox (tl (mailbox d) ++ [m]) d.

Definition reset_rx (r : Receive) : Receive :=
  mkReceive [] (lastReceiveTime r) 0 0.

(** The block of [receiveData] that processes a complete message: the
    reassembled buffer goes to the slot's secure channel and the plaintext,
    or the buffer itself when nothing was deciphered, into the mailbox.
    [None] where [pairedDevices[channel]] is outside the array. *)
Definition store_message (channel : Z) (buffer : Bytes) (s : t) : option t :=
  d ← pairedDevices s !! Z.to_nat channel;
  if negb (String_isEmpty (addr d)) then
    let '(decryptedData, s) := decryptMessage channel buffer s in
    let messageToStore :=
      match decryptedData with
      | [] => buffer
      | _ => decryptedData
      end in
    Some (on_device channel (push_mailbox messageToStore) s)
  else Some s.

(** The part of [receiveData] that takes a fragment in: a start code
    clears the buffer and sets the expected count, then the payload is
    appended unless [MAX_PACKETS_RCV] fragments were counted. *)
Definition accept_fragment (now : Z) (code : byte) (index : Z)
  (payload : Bytes) (r : Receive) : Receive :=
  let r := if Byte.eqb code START_CODE
           then mkReceive [] (lastReceiveTime r) (uint16 (index + 1)) 0
           else r in
  if receivedFragments r <? MAX_PACKETS_RCV
  then mkReceive (rxBuffer r ++ payload) now (expectedFragments r)
         (uint16 (receivedFragments r + 1))
  else r.

(** The end of [receiveData]: a partial message older than
    [RECEIVE_TIMEOUT] is dropped. *)
Definition expire_partial (now : Z) (s : t) : t :=
  let r := rx s in
  match rxBuffer r with
  | [] => s
  | _ => if RECEIVE_TIMEOUT <? elapsed now (lastReceiveTime r)
         then set_rx (reset_rx r) s else s
  end.

(** [receiveData(pipe_num)] at clock reading [now]. The result is [None]
    where the C++ is undefined: the unpadded packet is shorter than the
    header, whose end the code takes as the start of the payload, or the
    pipe is not the one of a slot. *)
Definition receiveData (now : Z) (pipe_num : Z) (s : t) : option t :=
  if negb (isEnabled s) then Some s
  else
    let channel := uint8 (pipe_num - 1) in
    let packetSize := Radio.getPayloadSize (radio s) in
    s ← (if (HEADER_SIZE <=? packetSize) && (packetSize <=? NRF_BUF_SIZE) then
           let '(packet, hw) := Radio.read packetSize (radio s) in
           let s := set_radio hw s in
           let packet := unpad packet in
           '(code, index) ← read_header packet;
           let r := accept_fragment now code index
                      (drop (Z.to_nat HEADER_SIZE) packet) (rx s) in
           let s := set_rx r s in
           if index =? 0 then
             s ← (if receivedFragments r =? expectedFragments r
                  then store_message channel (rxBuffer r) s
                  else Some s);
             Some (set_rx (reset_rx (rx s)) s)
           else Some s
         else Some s);
    Some (set_currentState IDLE (expire_partial now s)).

(** ** RadioManager.cpp: pairing *)

Definition startPairing (now : Z) (s : t) : bool * t :=
  if negb (isEnabled s) then (false, s)
  else if State_eqb (currentState s) IDLE then
    let s := set_currentState PAIRING_LISTEN s in
    let s := set_pairing
               (mkPairing (lastPairingAttempt (pairing s)) now false false
                  false false false zero_key zero_key [] (getAvailableChannel s)
                  (tempCha (pairing s))) s in
    let s := on_radio (Radio.setChannel DATA_CHANNEL) s in
    let s := on_radio (Radio.openReadingPipe 1 "CFGTX") s in
    let s := on_radio Radio.startListening s in
    (true, on_pairing (set_tempCha (Some (SimpleCha2.new zero_key))) s)
  else (false, s).

(** Control flow of [handlePairing]: fall through to the next statement,
    [return], or undefined behaviour (a null [tempCha] dereferenced). *)
Inductive flow :=
| Next (s : t)
| Return (s : t)
| Undefined.

Definition andThen (f : flow) (k : t -> flow) : flow :=
  match f with
  | Next s => k s
  | Return s => Return s
  | Undefined => Undefined
  end.

Definition with_tempCha (s : t) (k : SimpleCha2.t -> flow) : flow :=
  match tempCha (pairing s) with
  | Some c => k c
  | None => Undefined
  end.

Definition is_available (s : t) : bool :=
  match Radio.available (radio s) with Some _ => true | None => false end.

Definition abort_pairing (s : t) : flow :=
  Return (initRadio (set_currentState IDLE s)).

(** Steps L1 and T2 up to the derivation: the peer's public key is read and
    the shared secret set as the key of [tempCha]. *)
Definition receive_public_key (s : t) : flow :=
  let '(receivedData, hw) := Radio.read KEY_SIZE (radio s) in
  let s := set_radio hw s in
  let s := on_pairing (set_tempPublicKey receivedData) s in
  let s := on_pairing (set_gotPubKey true) s in
  let s := match generateX25519SharedKey (tempPublicKey (pairing s))
                   (privateKey s) with
           | Some shared => on_pairing (set_tempSharedKey shared) s
           | None => s
           end in
  with_tempCha s (fun c =>
    Next (on_pairing
            (set_tempCha
               (Some (SimpleCha2.setKey (tempSharedKey (pairing s)) c))) s)).

(** Steps L2 and T1: the own public key is written to [wr]; the radio then
    listens on [rd] again. *)
Definition send_public_key (now : Z) (wr rd : string) (s : t) : flow :=
  let s := on_pairing (set_lastPairingAttempt now) s in
  let s := on_radio Radio.stopListening s in
  let s := on_radio (Radio.openWritingPipe wr) s in
  let '(ok, hw) := Radio.write (personalPublicKey s) KEY_SIZE (radio s) in
  let s := set_radio hw s in
  let s := if ok then on_pairing (set_sentPubKey true) s else s in
  let s := on_radio (Radio.openReadingPipe 1 rd) s in
  Next (on_radio Radio.startListening s).

(** The pairing address [String(pipeID) + radioID], encrypted. *)
Definition encrypt_pairing_address (iv : Bytes) (pipeID : Z) (s : t) : flow :=
  with_tempCha s (fun c =>
    let pairingID := (String_of_Z pipeID ++ radioID s)%string in
    let '(payload, c) := SimpleCha2.encryptStr iv pairingID c in
    let s := on_pairing (set_tempCha (Some c)) s in
    Next (on_pairing (set_tempPayload payload) s)).

(** The ciphered acknowledgement is read and deciphered; [k] gets the
    address when it is a valid one. *)
Definition receive_ack (s : t) (k : string -> t -> flow) : flow :=
  let packetSize := Radio.getPayloadSize (radio s) in
  let '(packet, hw) := Radio.read packetSize (radio s) in
  let s := set_radio hw s in
  let packet := unpad packet in
  with_tempCha s (fun c =>
    let '(receivedAddr, c) := SimpleCha2.decryptToStr packet c in
    let s := on_pairing (set_tempCha (Some c)) s in
    if checkValidAddr receivedAddr
    then k receivedAddr (on_pairing (set_gotAck true) s)
    else Next s).

Definition listen_step1 (s : t) : flow :=
  if is_available s && negb (gotPubKey (pairing s))
  then receive_public_key s else Next s.

Definition listen_step2 (now : Z) (s : t) : flow :=
  let p := pairing s in
  if gotPubKey p && negb (sentPubKey p)
     && (PAIRING_INTERVAL <? elapsed now (lastPairingAttempt p))
  then send_public_key now "CFGRX" "CFGTX" s else Next s.

Definition listen_step3 (s : t) : flow :=
  let p := pairing s in
  if sentPubKey p && negb (gotAck p) && is_available s then
    receive_ack s (fun receivedAddr s =>
      let receivedUID := String.substring 1 4 receivedAddr in
      let receivedPipe := String.substring 0 1 receivedAddr in
      let '(unpaired, s') := clearPairedUID receivedUID s in
      if unpaired then Next (on_pairing (set_isUnpairReq true) s')
      else if String.eqb receivedPipe "0" then abort_pairing s
      else if pairingChannel (pairing s) <? MAX_CHANNELS then
        Next (snd (setPairedAddr receivedAddr (pairingChannel (pairing s))
                     (Some (tempPublicKey (pairing s))) s))
      else abort_pairing s)
  else Next s.

Definition listen_step4 (now : Z) (iv : Bytes) (s : t) : flow :=
  let p := pairing s in
  if gotAck p && negb (sentAck p) then
    let s := on_pairing (set_lastPairingAttempt now) s in
    let s := on_radio Radio.stopListening s in
    let s := on_radio (Radio.openWritingPipe "CFGRX") s in
    let pipeID := if isUnpairReq (pairing s) then 0
                  else uint8 (pairingChannel (pairing s) + 1) in
    andThen (encrypt_pairing_address iv pipeID s) (fun s =>
      let s := on_pairing
                 (set_tempPayload
                    (pad (tempPayload (pairing s)) MAX_PACKET_SIZE)) s in
      let payload := tempPayload (pairing s) in
      let '(ok, hw) := Radio.write payload (Z.of_nat (length payload))
                         (radio s) in
      let s := set_radio hw s in
      if ok then abort_pairing (on_pairing (set_sentAck true) s)
      else
        let s := on_radio (Radio.openReadingPipe 1 "CFGTX") s in
        Next (on_radio Radio.startListening s))
  else Next s.

Definition listen_flip (now : Z) (s : t) : flow :=
  let p := pairing s in
  if negb (gotPubKey p)
     && (PAIRING_LISTEN_TIME <? elapsed now (pairingStartTime p)) then
    let s := set_currentState PAIRING_TRANSMIT s in
    let s := on_radio Radio.stopListening s in
    let s := on_radio (Radio.openWritingPipe "CFGTX") s in
    Next (on_pairing (set_pairingStartTime now) s)
  else Next s.

Definition transmit_step1 (now : Z) (s : t) : flow :=
  let p := pairing s in
  if negb (sentPubKey p)
     && (PAIRING_INTERVAL <? elapsed now (lastPairingAttempt p))
  then send_public_key now "CFGTX" "CFGRX" s else Next s.

Definition transmit_step2 (iv : Bytes) (s : t) : flow :=
  let p := pairing s in
  if sentPubKey p && negb (gotPubKey p) && is_available s then
    andThen (receive_public_key s) (fun s =>
      let unpair := MAX_CHANNELS <=? pairingChannel (pairing s) in
      let s := if unpair then on_pairing (set_isUnpairReq true) s else s in
      let pipeID := if unpair then 0
                    else uint8 (pairingChannel (pairing s) + 1) in
      encrypt_pairing_address iv pipeID s)
  else Next s.

Definition transmit_step3 (now : Z) (s : t) : flow :=
  let p := pairing s in
  if gotPubKey p && negb (sentAck p)
     && (PAIRING_INTERVAL <? elapsed now (lastPairingAttempt p)) then
    let s := on_pairing (set_lastPairingAttempt now) s in
    let s := on_radio Radio.stopListening s in
    let s := on_radio (Radio.openWritingPipe "CFGTX") s in
    let s := on_pairing
               (set_tempPayload
                  (pad (tempPayload (pairing s)) MAX_PACKET_SIZE)) s in
    let payload := tempPayload (pairing s) in
    let '(ok, hw) := Radio.write payload (Z.of_nat (length payload))
                       (radio s) in
    let s := set_radio hw s in
    let s := if ok then on_pairing (set_sentAck true) s else s in
    let s := on_radio (Radio.openReadingPipe 1 "CFGRX") s in
    Next (on_radio Radio.startListening s)
  else Next s.

Definition transmit_step4 (s : t) : flow :=
  let p := pairing s in
  if sentAck p && negb (gotAck p) && is_available s then
    receive_ack s (fun receivedAddr s =>
      let receivedUID := String.substring 1 4 receivedAddr in
      let receivedPipe := String.substring 0 1 receivedAddr in
      if String.eqb receivedPipe "0" then
        abort_pairing (snd (clearPairedUID receivedUID s))
      else if isUnpairReq (pairing s) then abort_pairing s
      else
        abort_pairing
          (snd (setPairedAddr receivedAddr (pairingChannel (pairing s))
                  (Some (tempPublicKey (pairing s))) s)))
  else Next s.

Definition pairing_timeout (now : Z) (s : t) : flow :=
  if PAIRING_TIMEOUT <? elapsed now (pairingStartTime (pairing s))
  then abort_pairing s else Next s.

(** [handlePairing()] at clock reading [now]; [iv] is the entropy an
    encryption would draw. *)
Definition handlePairing (now : Z) (iv : Bytes) (s : t) : option t :=
  let body :=
    match currentState s with
    | PAIRING_LISTEN =>
        andThen (listen_step1 s) (fun s =>
        andThen (listen_step2 now s) (fun s =>
        andThen (listen_step3 s) (fun s =>
        andThen (listen_step4 now iv s) (fun s =>
        listen_flip now s))))
    | PAIRING_TRANSMIT =>
        andThen (transmit_step1 now s) (fun s =>
        andThen (transmit_step2 iv s) (fun s =>
        andThen (transmit_step3 now s) (fun s =>
        transmit_step4 s)))
    | _ => Next s
    end in
  match andThen body (pairing_timeout now) with
  | Next s | Return s => Some s
  | Undefined => None
  end.

(** ** RadioManager.cpp: the tick *)

Definition loop (now : Z) (iv : Bytes) (s : t) : option t :=
  if negb (isEnabled s) then Some s
  else
    match currentState s with
    | PAIRING_LISTEN | PAIRING_TRANSMIT => handlePairing now iv s
    | IDLE =>
        let s := on_pairing (set_tempCha None) s in
        match Radio.available (radio s) with
        | Some pipe_num => receiveData now pipe_num (set_currentState RECEIVING s)
        | None => Some s
        end
    | TRANSMITTING => Some (sendData s)
    | RECEIVING => Some s
    end.

(** ** RadioManager.cpp: configuration as JSON *)

(** [doc[k][i] = x]. *)
Definition set_at (k : string) (i : nat) (x : Json.t) (doc : Json.t) : Json.t :=
  Json.set_member k (Json.set_element i x (Json.member k doc)) doc.

Fixpoint devices_doc (keys : bool) (i : nat) (devs : list PairedDevice)
  (doc : Json.t) : Json.t :=
  match devs with
  | [] => doc
  | d :: rest =>
      let doc :=
        if String_isEmpty (addr d) then set_at "addr" i (Json.JString "0") doc
        else
          let doc := set_at "addr" i (Json.JString (addr d)) doc in
          if keys
          then set_at "pubKey" i (Json.JString (Base64.encode (publicKey d))) doc
          else doc in
      devices_doc keys (S i) rest doc
  end.

Definition getPairedDevicesJson (keys : bool) (s : t) : string :=
  serializeJson
    (devices_doc keys 0 (take (Z.to_nat MAX_CHANNELS) (pairedDevices s))
       Json.JNull).

Fixpoint install_devices (doc : Json.t) (i : Z) (n : nat) (s : t) : t :=
  match n with
  | O => s
  | S n' =>
      let a := Json.element (Z.to_nat i) (Json.member "addr" doc) in
      let s :=
        if Json.isNull a then s
        else if Json.eq_str a "0" then clearPairedAddr i s
        else
          let address := as_String a in
          let pubKey :=
            as_String (Json.element (Z.to_nat i) (Json.member "pubKey" doc)) in
          let pubKeyBytes := Base64.decode pubKey in
          snd (setPairedAddrBytes address i pubKeyBytes s) in
      install_devices doc (i + 1) n' s
  end.

(** A text that does not parse leaves the document null. *)
Definition setPairedDevicesJson (addrJson : string) (s : t) : bool * t :=
  let doc := match deserializeJson addrJson with
             | Some d => d
             | None => Json.JNull
             end in
  if negb (Json.is_JsonArray (Json.member "addr" doc)) then (false, s)
  else
    let s := install_devices doc 0 (Z.to_nat MAX_CHANNELS) s in
    (true, initRadio s).

(** The document [exportCfg] serializes: [pairedDevices] holds the String
    that [getPairedDevicesJson] returned. *)
Definition exportCfg_doc (s : t) : Json.t :=
  let doc := Json.set_member "pairedDevices"
               (Json.JString (getPairedDevicesJson true s)) Json.JNull in
  let '(pubKey, privKey) := getPersonalKeys s in
  let keys := Json.member "personalKeys" doc in
  let keys := Json.set_member "publicKey"
                (Json.JString (Base64.encode pubKey)) keys in
  let doc := Json.set_member "personalKeys" keys doc in
  let keys := Json.member "personalKeys" doc in
  let keys := Json.set_member "privateKey"
                (Json.JString (Base64.encode privKey)) keys in
  Json.set_member "personalKeys" keys doc.

Definition exportCfg (s : t) : string := serializeJson (exportCfg_doc s).

Definition importCfg (jsonConfig : string) (s : t) : bool * t :=
  match deserializeJson jsonConfig with
  | None => (false, s)
  | Some doc =>
      let s :=
        if Json.is_JsonObject (Json.member "personalKeys" doc) then
          let keys := Json.member "personalKeys" doc in
          let pubKeyStr := as_String (Json.member "publicKey" keys) in
          let privKeyStr := as_String (Json.member "privateKey" keys) in
          let pubKey := Base64.decode pubKeyStr in
          let privKey := Base64.decode privKeyStr in
          snd (setPersonalKeys pubKey privKey s)
        else s in
      let s :=
        if Json.is_JsonObject (Json.member "pairedDevices" doc) then
          let pairedAddrJson := as_String (Json.member "pairedDevices" doc) in
          snd (setPairedDevicesJson pairedAddrJson s)
        else s in
      (true, s)
  end.

(** ** RadioManager.cpp: identity and enabling *)

Definition getRadioID (s : t) : string := radioID s.

(** The loop of [enable(false)] over the channels. *)
Fixpoint clear_all_messages (i : Z) (n : nat) (s : t) : t :=
  match n with
  | O => s
  | S n' => clear_all_messages (i + 1) n' (clearMessages i s)
  end.

(** [enable(en)]. The result of [radio.begin()] is not looked at; as in
    [begin], the driver call is the question whether the chip answers. *)
Definition enable (en : bool) (s : t) : t :=
  let s := set_isEnabled en s in
  if negb en then
    let s := clear_all_messages 0 (Z.to_nat MAX_CHANNELS) s in
    on_radio Radio.stopListening s
  else
    let _ := Radio.begin (radio s) in s.

End Operations.

End RadioManager.


(** * The example application (src/dfs.h) *)

(** The functions of the sketch that use the manager and neither the file
    system nor the pins. *)
Module App.
Import RadioManager.

Definition hex_digits : string := "0123456789ABCDEF".

Definition hex_digit (n : Z) : ascii :=
  match String.get (Z.to_nat n) hex_digits with
  | Some c => c
  | None => "0"%char
  end.

(** [%02X] of a byte. *)
Definition hex02X (b : byte) : string :=
  String (hex_digit (Z_of_byte b / 16))
    (String (hex_digit (Z_of_byte b mod 16)) EmptyString).

(** [getESP32UID]: [baseMac] is what [esp_read_mac] wrote; the four
    characters and the terminator fill the buffer of 5. *)
Definition getESP32UID (baseMac : Bytes) : string :=
  (hex02X (nth 4 baseMac x00) ++ hex02X (nth 5 baseMac x00))%string.

(** [checkSendingStatus]: the line printed and the new [messageSending].
    [messageStatus] is a [uint8_t]; the comparisons are made on [int]. *)
Definition checkSendingStatus (messageStatus : Z) (messageSending : bool)
  : option string * bool :=
  if messageSending then
    if messageStatus =? 1 then (Some "Message sent successfully"%string, false)
    else if messageStatus =? -1
         then (Some "Failed to send message"%string, false)
         else (None, true)
  else (None, messageSending).

Section WithManager.
Context {crypto : Crypto} {codec : JsonCodec}.

Definition received_line (channel : Z) (msg : Bytes) : string :=
  ("Message received on channel " ++ String_of_Z channel ++ ": "
   ++ String_of_bytes msg)%string.

(** The [while] loop of [readMessages] on one channel: at most [fuel]
    turns. *)
Fixpoint read_channel (fuel : nat) (channel : Z) (s : t) : list string * t :=
  match fuel with
  | O => ([], s)
  | S fuel' =>
      if isMsgAvailable channel s =? 0 then ([], s)
      else
        let '(msg, s) := readMsg channel s in
        let '(lines, s) := read_channel fuel' channel s in
        (received_line channel msg :: lines, s)
  end.

Fixpoint read_channels (fuel : nat) (channel : Z) (n : nat) (s : t)
  : list string * t :=
  match n with
  | O => ([], s)
  | S n' =>
      let '(lines, s) := read_channel fuel channel s in
      let '(more, s) := read_channels fuel (channel + 1) n' s in
      (lines ++ more, s)
  end.

(** [readMessages]: the lines printed and the manager afterwards. *)
Definition readMessages (fuel : nat) (s : t) : list string * t :=
  read_channels fuel 0 (Z.to_nat MAX_CHANNELS) s.

End WithManager.

End App.
(** ** Stand-ins for the interfaces *)

(** Instances of [Crypto] and [JsonCodec] with which the model runs on
    concrete inputs. The theorems below hold for every instance; the
    examples and counterexamples are computed with these. *)
Module Example.

(** A key stream that depends on the key, the nonce and the position. *)
Definition keystream (k nonce : Bytes) (i : nat) : byte :=
  byte_of_Z (Z_of_byte (nth (i mod 32) k x00)
             + 3 * Z_of_byte (nth (i mod 12) nonce x00)
             + 7 * Z.of_nat i + 1).

(** Diffie-Hellman byte by byte in the multiplicative group modulo 251:
    the secret is the peer's public byte raised to the private byte. *)
Definition dh_byte (peer priv : byte) : byte :=
  byte_of_Z ((Z_of_byte peer ^ Z_of_byte priv) mod 251).

Definition dh_public (priv : Bytes) : Bytes := map (dh_byte "006"%byte) priv.

Definition dh (peerPublic priv : Bytes) : option Bytes :=
  if (length peerPublic =? 32)%nat && (length priv =? 32)%nat
  then Some (zip_with dh_byte peerPublic priv)
  else None.

#[export] Instance crypto : Crypto :=
  {| chacha_keystream := keystream; x25519 := dh |}.

(** A printer and a parser of compact JSON for documents of strings, arrays,
    objects and null. *)
Definition dquote : ascii := ascii_of_nat 34.
Definition backslash : ascii := ascii_of_nat 92.

Fixpoint escape (s : string) : string :=
  match s with
  | EmptyString => EmptyString
  | String c r =>
      if Ascii.eqb c dquote || Ascii.eqb c backslash
      then String backslash (String c (escape r))
      else String c (escape r)
  end.

Definition quote (s : string) : string :=
  String dquote (escape s ++ String dquote EmptyString)%string.

Fixpoint print (v : Json.t) : string :=
  match v with
  | Json.JNull => "null"
  | Json.JString s => quote s
  | Json.JArray l =>
      let fix items (l : list Json.t) : string :=
        match l with
        | [] => EmptyString
        | x :: r =>
            (print x ++ match r with
                        | [] => EmptyString
                        | _ => "," ++ items r
                        end)%string
        end in
      ("[" ++ items l ++ "]")%string
  | Json.JObject m =>
      let fix members (m : list (string * Json.t)) : string :=
        match m with
        | [] => EmptyString
        | (k, x) :: r =>
            (quote k ++ ":" ++ print x
             ++ match r with
                | [] => EmptyString
                | _ => "," ++ members r
                end)%string
        end in
      ("{" ++ members m ++ "}")%string
  end.

(** The characters of a string up to its closing quote. *)
Fixpoint parse_chars (cs : list ascii) : option (string * list ascii) :=
  match cs with
  | [] => None
  | c :: r =>
      if Ascii.eqb c dquote then Some (EmptyString, r)
      else if Ascii.eqb c backslash then
        match r with
        | e :: r' =>
            match parse_chars r' with
            | Some (s, rest) => Some (String e s, rest)
            | None => None
            end
        | [] => None
        end
      else
        match parse_chars r with
        | Some (s, rest) => Some (String c s, rest)
        | None => None
        end
  end.

Fixpoint parse_value (fuel : nat) (cs : list ascii)
  : option (Json.t * list ascii) :=
  match fuel with
  | O => None
  | S fuel =>
      match cs with
      | "n"%char :: "u"%char :: "l"%char :: "l"%char :: r => Some (Json.JNull, r)
      | "["%char :: "]"%char :: r => Some (Json.JArray [], r)
      | "["%char :: r =>
          match parse_items fuel r with
          | Some (l, rest) => Some (Json.JArray l, rest)
          | None => None
          end
      | "{"%char :: "}"%char :: r => Some (Json.JObject [], r)
      | "{"%char :: r =>
          match parse_members fuel r with
          | Some (m, rest) => Some (Json.JObject m, rest)
          | None => None
          end
      | c :: r =>
          if Ascii.eqb c dquote then
            match parse_chars r with
            | Some (s, rest) => Some (Json.JString s, rest)
            | None => None
            end
          else None
      | [] => None
      end
  end
with parse_items (fuel : nat) (cs : list ascii)
  : option (list Json.t * list ascii) :=
  match fuel with
  | O => None
  | S fuel =>
      match parse_value fuel cs with
      | Some (v, ","%char :: r) =>
          match parse_items fuel r with
          | Some (l, rest) => Some (v :: l, rest)
          | None => None
          end
      | Some (v, "]"%char :: r) => Some ([v], r)
      | _ => None
      end
  end
with parse_members (fuel : nat) (cs : list ascii)
  : option (list (string * Json.t) * list ascii) :=
  match fuel with
  | O => None
  | S fuel =>
      match cs with
      | q :: r =>
          if Ascii.eqb q dquote then
            match parse_chars r with
            | Some (k, ":"%char :: r) =>
                match parse_value fuel r with
                | Some (v, ","%char :: r) =>
                    match parse_members fuel r with
                    | Some (m, rest) => Some ((k, v) :: m, rest)
                    | None => None
                    end
                | Some (v, "}"%char :: r) => Some ([(k, v)], r)
                | _ => None
                end
            | _ => None
            end
          else None
      | [] => None
      end
  end.

Definition parse (text : string) : option Json.t :=
  let cs := list_ascii_of_string text in
  match parse_value (S (length cs)) cs with
  | Some (v, []) => Some v
  | _ => None
  end.

#[export] Instance codec : JsonCodec :=
  {| serializeJson := print; deserializeJson := parse |}.

(** Two devices, "AAAA" and "BBBB", each holding the other in slot 0 as
    the pairing handshake leaves them. *)
Definition hw : Radio.t := Radio.mk true 0 [] EmptyString false 32 [] [] [].

Definition privA : Bytes := replicate 32 "007"%byte.
Definition privB : Bytes := replicate 32 "009"%byte.
Definition pubA : Bytes := dh_public privA.
Definition pubB : Bytes := dh_public privB.

Definition freshA : RadioManager.t :=
  snd (RadioManager.begin (RadioManager.new hw "AAAA" (pubA, privA))).
Definition freshB : RadioManager.t :=
  snd (RadioManager.begin (RadioManager.new hw "BBBB" (pubB, privB))).

Definition pairedA : RadioManager.t :=
  RadioManager.initRadio
    (snd (RadioManager.setPairedAddr "1BBBB" 0 (Some pubB) freshA)).
Definition pairedB : RadioManager.t :=
  RadioManager.initRadio
    (snd (RadioManager.setPairedAddr "1AAAA" 0 (Some pubA) freshB)).

(** The same sender with its next [n] writes acknowledged. *)
Definition acknowledged (n : nat) (s : RadioManager.t) : RadioManager.t :=
  RadioManager.on_radio (Radio.set_acks (replicate n true)) s.

(** The encrypted message of the replay scenario: "hello" from "AAAA" to
    "BBBB" under the key of their slots. *)
Definition replay_iv : Bytes := replicate 8 "042"%byte.
Definition replay_plaintext : Bytes := bytes_of_String "hello".

(** A 40-byte message, in two frames, that the secure channel of a fresh
    slot does not take for a ciphertext: its counter field is 0. *)
Definition two_frame_message : Bytes :=
  replicate 8 "001"%byte ++ replicate 4 x00 ++ replicate 28 "001"%byte.


End Example.

(** * Vocabulary of the properties *)

Section Vocabulary.
Context {crypto : Crypto} {codec : JsonCodec}.
Import RadioManager.

(** The directory has one record per channel. *)
Definition well_formed (s : t) : Prop :=
  length (pairedDevices s) = Z.to_nat MAX_CHANNELS.

Definition unpaired_channel (channel : Z) (s : t) : Prop :=
  match device channel s with
  | Some d => addr d = EmptyString
  | None => True
  end.

(** A call of one of the four send operations. *)
Inductive send_call :=
| SendMsg (msg : Bytes) (channel : Z)
| SendMsgStr (msg : string) (channel : Z)
| SendMsgToAddr (msg : Bytes) (targetAddr : string)
| SendMsgToAddrStr (msg : string) (targetAddr : string).

Definition run_send (iv : Bytes) (c : send_call) (status : option Z)
  (encryption : bool) (s : t) : bool * option Z * t :=
  match c with
  | SendMsg msg channel => sendMsg iv msg channel status encryption s
  | SendMsgStr msg channel => sendMsgStr iv msg channel status encryption s
  | SendMsgToAddr msg a => sendMsgToAddr iv msg a status encryption s
  | SendMsgToAddrStr msg a => sendMsgToAddrStr iv msg a status encryption s
  end.

Definition message_size (c : send_call) : Z :=
  match c with
  | SendMsg msg _ | SendMsgToAddr msg _ => Z.of_nat (length msg)
  | SendMsgStr msg _ | SendMsgToAddrStr msg _ =>
      Z.of_nat (length (bytes_of_String msg))
  end.

Definition bad_channel (c : send_call) (s : t) : Prop :=
  match c with
  | SendMsg _ channel | SendMsgStr _ channel => unpaired_channel channel s
  | _ => False
  end.

(** The number of fragments of a message, its [k]-th payload and the frame
    that carries it, in closed form. *)
Definition fragment_count (M : Bytes) : Z := (Z.of_nat (length M) + 28) / 29.

Definition chunk (M : Bytes) (k : nat) : Bytes := take 29 (drop (29 * k) M).

Definition fragment (M : Bytes) (k : nat) : Bytes :=
  ((if (k =? 0)%nat then START_CODE else CONTINUE_CODE)
   :: le16_bytes (fragment_count M - 1 - Z.of_nat k))
  ++ chunk M k ++ replicate (29 - length (chunk M k)) x00.

(** The frames written between two states of a sender. *)
Definition frames_since (s s' : t) : list Bytes :=
  drop (length (Radio.txLog (radio s))) (Radio.txLog (radio s')).

(** A transfer of [M] is about to start. *)
Definition ready_to_send (M : Bytes) (s : t) : Prop :=
  outgoingMsg (out s) = M /\ outgoingMsgIndex (out s) = 0
  /\ Radio.payloadSize (radio s) = MAX_PACKET_SIZE.

(** A payload keeps its length through [unpad] when its last byte is not
    zero. *)
Definition ends_nonzero (payload : Bytes) : bool :=
  match last payload with
  | Some b => negb (is_zero_byte b)
  | None => false
  end.

(** No fragment payload of the message ends in a zero byte. *)
Definition payloads_end_nonzero (M : Bytes) : bool :=
  forallb (fun k => ends_nonzero (chunk M k))
    (seq 0 (Z.to_nat (fragment_count M))).

(** The device polls the radio: enabled, idle, nothing waiting. *)
Definition polling (s : t) : Prop :=
  isEnabled s = true /\ currentState s = IDLE
  /\ Radio.rxFifo (radio s) = []
  /\ Radio.payloadSize (radio s) = MAX_PACKET_SIZE.

(** Fragments [0 .. k-1] of [M] have been taken in. *)
Definition reassembling (M : Bytes) (k : nat) (s : t) : Prop :=
  k = 0%nat
  \/ (rxBuffer (rx s) = take (29 * k) M
      /\ expectedFragments (rx s) = fragment_count M
      /\ receivedFragments (rx s) = Z.of_nat k).

(** What a tick does after the message was stored. *)
Definition finish_receive (s : t) : t :=
  set_currentState IDLE (set_rx (reset_rx (rx s)) s).

(** The frames arrive one per tick on a pipe: each is put in the receive
    FIFO and the tick at its clock reading takes it out. *)
Fixpoint receive_frames (iv : Bytes) (pipe : Z) (arrivals : list (Z * Bytes))
  (s : t) : option t :=
  match arrivals with
  | [] => Some s
  | (now, frame) :: rest =>
      s' ← loop now iv (on_radio (Radio.deliver pipe frame) s);
      receive_frames iv pipe rest s'
  end.

(** A property of the states a step of [handlePairing] falls through with
    ([PN]) and of the states it returns with ([PR]). *)
Definition flow_inv (PN PR : t -> Prop) (f : flow) : Prop :=
  match f with
  | Next s => PN s
  | Return s => PR s
  | Undefined => True
  end.

(** Every pipe [i + 1] listens on [String(i + 1) + radioID]. *)
Definition pipes_by_initRadio (s : t) : Prop :=
  forall i, 0 <= i < MAX_CHANNELS ->
    Radio.readingPipe (i + 1) (radio s) = Some (own_address (i + 1) s).


(** The ticks of the event loop at the given clock readings. *)
Fixpoint run_loop (iv : Bytes) (nows : list Z) (s : t) : option t :=
  match nows with
  | [] => Some s
  | now :: rest => s' ← loop now iv s; run_loop iv rest s'
  end.




End Vocabulary.

(** * Vocabulary of the further properties *)

Section FurtherVocabulary.
Context {crypto : Crypto} {codec : JsonCodec}.
Import RadioManager App.

(** ** Streams of ciphertexts *)

(** The messages of a list encrypted one after the other, each with the
    entropy drawn for it, and ciphertexts deciphered one after the other. *)
Fixpoint encrypt_all (l : list (Bytes * Bytes)) (c : SimpleCha2.t)
  : list Bytes * SimpleCha2.t :=
  match l with
  | [] => ([], c)
  | (iv, x) :: rest =>
      let '(y, c) := SimpleCha2.encrypt iv x c in
      let '(ys, c) := encrypt_all rest c in
      (y :: ys, c)
  end.

Fixpoint decrypt_all (l : list Bytes) (c : SimpleCha2.t)
  : list Bytes * SimpleCha2.t :=
  match l with
  | [] => ([], c)
  | y :: rest =>
      let '(x, c) := SimpleCha2.decrypt y c in
      let '(xs, c) := decrypt_all rest c in
      (x :: xs, c)
  end.

(** ** The directory as a document *)

(** A document in which a member can be set, and one in which an element
    can be set: ArduinoJson turns null into an object or an array. *)
Definition is_container (v : Json.t) : Prop :=
  v = Json.JNull \/ exists m, v = Json.JObject m.

Definition is_sequence (v : Json.t) : Prop :=
  v = Json.JNull \/ exists l, v = Json.JArray l.

Definition doc_ok (doc : Json.t) : Prop :=
  is_container doc /\ is_sequence (Json.member "addr" doc)
  /\ is_sequence (Json.member "pubKey" doc).

(** What an exported slot says: its address, "0" when it has none. *)
Definition exported_addr (d : PairedDevice) : string :=
  if String_isEmpty (addr d) then "0"%string else addr d.

(** The document that [getPairedDevicesJson] prints. *)
Definition directory_doc (keys : bool) (s : t) : Json.t :=
  devices_doc keys 0 (take (Z.to_nat MAX_CHANNELS) (pairedDevices s))
    Json.JNull.

(** ** Transfers *)

(** The state a transfer is left in: idle, listening, the status stored. *)
Definition end_transfer (v : Z) (s : t) : t :=
  let s := set_currentState IDLE s in
  let s := on_radio Radio.startListening s in
  set_out (set_currentMsgStatus
             (store_status (currentMsgStatus (out s)) v) (out s)) s.

(** The radio after it was handed a frame. *)
Definition wrote (frame : Bytes) (r : Radio.t) : Radio.t :=
  Radio.mk (Radio.present r) (Radio.channel r) (Radio.readingPipes r)
    (Radio.writingPipe r) (Radio.listening r) (Radio.payloadSize r)
    (Radio.rxFifo r) (tl (Radio.acks r)) (Radio.txLog r ++ [frame]).

(** The manager is sending [M] and has got through [k] fragments. *)
Definition sending (M : Bytes) (k : nat) (s : t) : Prop :=
  isEnabled s = true /\ currentState s = TRANSMITTING
  /\ outgoingMsg (out s) = M /\ outgoingMsgIndex (out s) = 29 * Z.of_nat k
  /\ Radio.payloadSize (radio s) = MAX_PACKET_SIZE.

(** What a transfer leaves alone. *)
Definition same_apart_from_transfer (s s' : t) : Prop :=
  pairedDevices s' = pairedDevices s /\ rx s' = rx s
  /\ pairing s' = pairing s /\ radioID s' = radioID s
  /\ privateKey s' = privateKey s
  /\ personalPublicKey s' = personalPublicKey s
  /\ Radio.readingPipes (radio s') = Radio.readingPipes (radio s)
  /\ Radio.writingPipe (radio s') = Radio.writingPipe (radio s)
  /\ Radio.rxFifo (radio s') = Radio.rxFifo (radio s).

(** The state in which [sendMsgToAddr] calls [sendData]: the outgoing
    message is [M]. *)
Definition begin_transfer (M : Bytes) (a : string) (status : option Z)
  (s : t) : t :=
  on_radio (Radio.openWritingPipe a)
    (on_radio Radio.stopListening
       (set_out (mkOutgoing M 0 a (store_status status 0))
          (set_currentState TRANSMITTING s))).

Definition accepts_send (msg : Bytes) (s : t) : Prop :=
  isEnabled s = true /\ currentState s = IDLE
  /\ Z.of_nat (length msg) <= MAX_MSG_SIZE.

(** ** Sizes *)




(** ** Reassembly *)

(** The receiver is between two messages. *)
Definition between_messages (s : t) : Prop :=
  rxBuffer (rx s) = [] /\ expectedFragments (rx s) = 0
  /\ receivedFragments (rx s) = 0.

(** The receiver has counted [n] fragments and expects [e]. *)
Definition counting (e n : Z) (s : t) : Prop :=
  expectedFragments (rx s) = e /\ receivedFragments (rx s) = n.

(** ** The application's output *)

(** What [readMessages] prints for a slot and what it leaves of it. *)
Definition lines_of_slot (channel : Z) (d : PairedDevice) : list string :=
  if String_isEmpty (addr d) then []
  else map (received_line channel) (mailbox d).

Definition emptied (d : PairedDevice) : PairedDevice :=
  if String_isEmpty (addr d) then d else set_mailbox [] d.

Fixpoint lines_from (channel : Z) (devs : list PairedDevice) : list string :=
  match devs with
  | [] => []
  | d :: rest => lines_of_slot channel d ++ lines_from (channel + 1) rest
  end.

(** ** Pairing of two devices *)

(** The frame that [sender] wrote last reaches [receiver] on pipe 1 when
    the receiver listens there on the address the sender wrote to. *)
Definition on_air (sender receiver : t) : option t :=
  match last (Radio.txLog (radio sender)),
        Radio.readingPipe 1 (radio receiver) with
  | Some frame, Some address =>
      if Radio.listening (radio receiver)
         && String.eqb address (Radio.writingPipe (radio sender))
      then Some (on_radio (Radio.deliver 1 frame) receiver)
      else None
  | _, _ => None
  end.

(** The ticks of a pairing between [a], which listens, and [b], which has
    listened for [PAIRING_LISTEN_TIME] and calls: each device ticks when
    the frame of the other has reached it. *)
Definition handshake (ivA ivB : Bytes) (tF t1 t2 t3 t4 t5 : Z) (a b : t)
  : option (t * t) :=
  b ← loop tF ivB b;
  b ← loop t1 ivB b;
  a ← on_air b a ≫= loop t2 ivA;
  b ← on_air a b ≫= loop t3 ivB;
  a ← on_air b a ≫= loop t4 ivA;
  b ← on_air a b ≫= loop t5 ivB;
  Some (a, b).

(** The pairing address of a device as its peer gets it, under the secret
    [K]. *)
Definition ciphered_address (iv K : Bytes) (channel : Z) (s : t) : Bytes :=
  fst (SimpleCha2.encryptStr iv (own_address (channel + 1) s)
         (SimpleCha2.mk K 0 0)).

End FurtherVocabulary.

(** ** Reading a field of an updated state *)

Ltac state_simpl :=
  cbn [RadioManager.isEnabled RadioManager.radio RadioManager.currentState
       RadioManager.radioID RadioManager.pairedDevices RadioManager.rx
       RadioManager.pairing RadioManager.out RadioManager.personalPublicKey
       RadioManager.privateKey
       RadioManager.set_isEnabled RadioManager.set_radio
       RadioManager.set_currentState RadioManager.set_pairedDevices
       RadioManager.set_rx RadioManager.set_pairing RadioManager.set_out
       RadioManager.set_personalKeys RadioManager.on_radio
       RadioManager.on_pairing
       RadioManager.outgoingMsg RadioManager.outgoingMsgIndex
       RadioManager.outgoingTargetAddr RadioManager.currentMsgStatus
       RadioManager.set_outgoingMsg RadioManager.set_outgoingMsgIndex
       RadioManager.set_currentMsgStatus
       RadioManager.rxBuffer RadioManager.lastReceiveTime
       RadioManager.expectedFragments RadioManager.receivedFragments
       RadioManager.reset_rx
       RadioManager.lastPairingAttempt RadioManager.pairingStartTime
       RadioManager.isUnpairReq RadioManager.gotPubKey RadioManager.sentPubKey
       RadioManager.gotAck RadioManager.sentAck RadioManager.tempPublicKey
       RadioManager.tempSharedKey RadioManager.tempPayload
       RadioManager.pairingChannel RadioManager.tempCha
       RadioManager.set_lastPairingAttempt RadioManager.set_pairingStartTime
       RadioManager.set_isUnpairReq RadioManager.set_gotPubKey
       RadioManager.set_sentPubKey RadioManager.set_gotAck
       RadioManager.set_sentAck RadioManager.set_tempPublicKey
       RadioManager.set_tempSharedKey RadioManager.set_tempPayload
       RadioManager.set_tempCha
       Radio.present Radio.channel Radio.readingPipes Radio.writingPipe
       Radio.listening Radio.payloadSize Radio.rxFifo Radio.acks Radio.txLog
       Radio.setChannel Radio.openReadingPipe Radio.openWritingPipe
       Radio.set_listening Radio.startListening Radio.stopListening
       Radio.deliver Radio.set_acks Radio.getPayloadSize
       fst snd] in *.

(** The state after a step of the pairing, in full: every field of the
    manager, the radio and the pairing record is computed. *)
Ltac pairing_fields :=
  cbv beta iota zeta delta
    [RadioManager.isEnabled RadioManager.radio RadioManager.currentState
     RadioManager.radioID RadioManager.pairedDevices RadioManager.rx
     RadioManager.pairing RadioManager.out RadioManager.personalPublicKey
     RadioManager.privateKey
     RadioManager.set_isEnabled RadioManager.set_radio
     RadioManager.set_currentState RadioManager.set_pairedDevices
     RadioManager.set_rx RadioManager.set_pairing RadioManager.set_out
     RadioManager.on_radio RadioManager.on_pairing
     RadioManager.lastPairingAttempt RadioManager.pairingStartTime
     RadioManager.isUnpairReq RadioManager.gotPubKey RadioManager.sentPubKey
     RadioManager.gotAck RadioManager.sentAck RadioManager.tempPublicKey
     RadioManager.tempSharedKey RadioManager.tempPayload
     RadioManager.pairingChannel RadioManager.tempCha
     RadioManager.set_lastPairingAttempt RadioManager.set_pairingStartTime
     RadioManager.set_isUnpairReq RadioManager.set_gotPubKey
     RadioManager.set_sentPubKey RadioManager.set_gotAck
     RadioManager.set_sentAck RadioManager.set_tempPublicKey
     RadioManager.set_tempSharedKey RadioManager.set_tempPayload
     RadioManager.set_tempCha
     Radio.present Radio.channel Radio.readingPipes Radio.writingPipe
     Radio.listening Radio.payloadSize Radio.rxFifo Radio.acks Radio.txLog
     Radio.setChannel Radio.openReadingPipe Radio.openWritingPipe
     Radio.set_listening Radio.startListening Radio.stopListening
     Radio.deliver Radio.getPayloadSize
     fst snd negb andb RadioManager.andThen];
  cbn [mbind option_bind].

(** The tick at [now]: its result is computed aside, as the first goal, and
    put in its place in the second. *)
Ltac tick now :=
  match goal with
  | |- context [RadioManager.loop now ?iv ?s] =>
      let E := fresh "E" in
      eassert (E : RadioManager.loop now iv s = Some _);
      [unfold RadioManager.loop; pairing_fields | rewrite E; clear E]
  end.

(** * Properties *)

(** ** Bytes and words *)

Lemma byte_of_N_to_N (n : N) : Byte.to_N (byte_of_N n) = (n mod 256)%N.
Proof.
  unfold byte_of_N.
  destruct (Byte.of_N (n mod 256)) as [b|] eqn:E.
  - now apply Byte.to_of_N.
  - apply Byte.of_N_None_iff in E.
    pose proof (N.mod_upper_bound n 256). lia.
Qed.

Lemma Z_of_byte_of_Z (z : Z) : Z_of_byte (byte_of_Z z) = z mod 256.
Proof.
  unfold Z_of_byte, byte_of_Z. rewrite byte_of_N_to_N.
  pose proof (Z.mod_pos_bound z 256).
  rewrite N.mod_small by lia. lia.
Qed.

Lemma Z_of_byte_range (b : byte) : 0 <= Z_of_byte b < 256.
Proof. unfold Z_of_byte. pose proof (Byte.to_N_bounded b). lia. Qed.

Lemma byte_of_Z_0 : byte_of_Z 0 = x00.
Proof. reflexivity. Qed.

Lemma le_Z_le32_bytes (v : Z) : 0 <= v < 2 ^ 32 -> le_Z (le32_bytes v) = v.
Proof.
  intros Hv. unfold le32_bytes. cbn [le_Z].
  rewrite !Z_of_byte_of_Z, !Z.shiftr_div_pow2 by lia.
  change (2 ^ 8) with 256. change (2 ^ 16) with 65536.
  change (2 ^ 24) with 16777216. change (2 ^ 32) with 4294967296 in Hv.
  Z.div_mod_to_equations. lia.
Qed.

Lemma le_Z_le16_bytes (v : Z) : 0 <= v < 2 ^ 16 -> le_Z (le16_bytes v) = v.
Proof.
  intros Hv. unfold le16_bytes. cbn [le_Z].
  rewrite !Z_of_byte_of_Z, !Z.shiftr_div_pow2 by lia.
  change (2 ^ 8) with 256. change (2 ^ 16) with 65536 in Hv.
  Z.div_mod_to_equations. lia.
Qed.

Lemma byte_xor_involutive (a k : byte) : byte_xor (byte_xor a k) k = a.
Proof.
  unfold byte_xor.
  destruct (Byte.to_bits a)
    as [a0 [a1 [a2 [a3 [a4 [a5 [a6 a7]]]]]]] eqn:Ea.
  destruct (Byte.to_bits k)
    as [k0 [k1 [k2 [k3 [k4 [k5 [k6 k7]]]]]]] eqn:Ek.
  rewrite Byte.to_bits_of_bits.
  rewrite !xorb_assoc_reverse, !xorb_nilpotent, !xorb_false_r.
  rewrite <- Ea. apply Byte.of_bits_to_bits.
Qed.

(** ** The secure channel *)

Section SecureChannel.
Context {crypto : Crypto}.

Lemma xor_stream_length ks i data :
  length (SimpleCha2.xor_stream ks i data) = length data.
Proof.
  revert i. induction data as [|b r IH]; intros i; cbn; [reflexivity|].
  now rewrite IH.
Qed.

Lemma xor_stream_involutive ks i data :
  SimpleCha2.xor_stream ks i (SimpleCha2.xor_stream ks i data) = data.
Proof.
  revert i. induction data as [|b r IH]; intros i; cbn; [reflexivity|].
  now rewrite byte_xor_involutive, IH.
Qed.

Lemma chacha_involutive k nonce data :
  SimpleCha2.chacha k nonce (SimpleCha2.chacha k nonce data) = data.
Proof. apply xor_stream_involutive. Qed.

Lemma createNonce_length iv counter :
  length iv = 8%nat -> length (SimpleCha2.createNonce iv counter) = 12%nat.
Proof.
  intros Hiv. unfold SimpleCha2.createNonce.
  rewrite length_app, length_take, Hiv. reflexivity.
Qed.

Lemma extractCounter_createNonce iv counter :
  length iv = 8%nat -> 0 <= counter < 2 ^ 32 ->
  SimpleCha2.extractCounter (SimpleCha2.createNonce iv counter) = counter.
Proof.
  intros Hiv Hc. unfold SimpleCha2.extractCounter, SimpleCha2.createNonce.
  change (Z.to_nat SimpleCha2.IV_SIZE) with 8%nat.
  rewrite (take_ge iv) by lia.
  rewrite drop_app_length' by (symmetry; exact Hiv).
  change (Z.to_nat SimpleCha2.COUNTER_SIZE) with (length (le32_bytes counter)).
  rewrite firstn_all. now apply le_Z_le32_bytes.
Qed.

(** What [encrypt] returns: the nonce, then the plaintext xored. *)
Lemma encrypt_ciphertext iv x c :
  fst (SimpleCha2.encrypt iv x c)
  = SimpleCha2.createNonce iv (uint32 (SimpleCha2.encryptCounter c + 1))
    ++ SimpleCha2.chacha (SimpleCha2.key c)
         (SimpleCha2.createNonce iv (uint32 (SimpleCha2.encryptCounter c + 1)))
         x.
Proof. reflexivity. Qed.

(** A ciphertext whose counter is above the highest seen deciphers to the
    plaintext and raises the highest seen to its counter. *)
Lemma decrypt_fresh iv x k counter r :
  length iv = 8%nat -> 0 <= counter < 2 ^ 32 ->
  SimpleCha2.decryptCounter r < counter ->
  SimpleCha2.key r = k ->
  SimpleCha2.decrypt
    (SimpleCha2.createNonce iv counter
     ++ SimpleCha2.chacha k (SimpleCha2.createNonce iv counter) x) r
  = (x, SimpleCha2.mk k (SimpleCha2.encryptCounter r) counter).
Proof.
  intros Hiv Hc Hlt Hk. unfold SimpleCha2.decrypt.
  pose proof (createNonce_length iv counter Hiv) as Hn.
  rewrite length_app, Hn.
  destruct (Z.ltb_spec (Z.of_nat (12 + length (SimpleCha2.chacha k
              (SimpleCha2.createNonce iv counter) x))) SimpleCha2.NONCE_SIZE)
    as [Hbad|_]; [unfold SimpleCha2.NONCE_SIZE in Hbad; lia|].
  change (Z.to_nat SimpleCha2.NONCE_SIZE) with 12%nat.
  rewrite take_app_length' by (symmetry; exact Hn).
  rewrite drop_app_length' by (symmetry; exact Hn).
  rewrite extractCounter_createNonce by assumption.
  destruct (Z.leb_spec counter (SimpleCha2.decryptCounter r)); [lia|].
  rewrite Hk, chacha_involutive. reflexivity.
Qed.

(** A ciphertext whose counter is not above the highest seen is rejected,
    whatever it holds. *)
Lemma decrypt_replayed iv body counter r :
  length iv = 8%nat -> 0 <= counter < 2 ^ 32 ->
  counter <= SimpleCha2.decryptCounter r ->
  SimpleCha2.decrypt (SimpleCha2.createNonce iv counter ++ body) r = ([], r).
Proof.
  intros Hiv Hc Hle. unfold SimpleCha2.decrypt.
  pose proof (createNonce_length iv counter Hiv) as Hn.
  destruct (Z.ltb_spec (Z.of_nat (length (SimpleCha2.createNonce iv counter
              ++ body))) SimpleCha2.NONCE_SIZE); [reflexivity|].
  change (Z.to_nat SimpleCha2.NONCE_SIZE) with 12%nat.
  rewrite take_app_length' by (symmetry; exact Hn).
  rewrite extractCounter_createNonce by assumption.
  destruct (Z.leb_spec counter (SimpleCha2.decryptCounter r)); [reflexivity|lia].
Qed.

Lemma uint32_range z : 0 <= uint32 z < 2 ^ 32.
Proof. unfold uint32. apply Z.mod_pos_bound. lia. Qed.

(** C2. Replay rejection at the secure channel: for a sender and a receiver
    that share a key, a ciphertext produced by [encrypt] whose counter is
    strictly above the receiver's highest seen deciphers to the plaintext the
    first time it is submitted, and the same ciphertext submitted again to
    the same receiver gives the empty byte string. *)
Theorem decrypt_encrypt_once_then_rejected
  (iv x : Bytes) (sender receiver : SimpleCha2.t) :
  SimpleCha2.key sender = SimpleCha2.key receiver ->
  length iv = 8%nat ->
  SimpleCha2.decryptCounter receiver
    < SimpleCha2.encryptCounter (snd (SimpleCha2.encrypt iv x sender)) ->
  let ciphertext := fst (SimpleCha2.encrypt iv x sender) in
  let first := SimpleCha2.decrypt ciphertext receiver in
  let second := SimpleCha2.decrypt ciphertext (snd first) in
  fst first = x /\ fst second = [] /\ snd second = snd first.
Proof.
  intros Hkey Hiv Hfresh ciphertext first second.
  subst ciphertext first second. cbn [SimpleCha2.encrypt fst snd] in *.
  cbn [SimpleCha2.encryptCounter] in Hfresh.
  pose proof (uint32_range (SimpleCha2.encryptCounter sender + 1)) as Hc.
  rewrite (decrypt_fresh iv x (SimpleCha2.key sender) _ receiver)
    by (try assumption; now symmetry).
  cbn [fst snd]. split; [reflexivity|].
  rewrite decrypt_replayed; cbn; try assumption; try lia.
  split; reflexivity.
Qed.

End SecureChannel.

(** ** The device directory *)

Section Directory.
Context {crypto : Crypto} {codec : JsonCodec}.
Import RadioManager.

Lemma on_device_lookup channel f s :
  pairedDevices (on_device channel f s) !! Z.to_nat channel
  = f <$> pairedDevices s !! Z.to_nat channel.
Proof. unfold on_device. cbn. apply list_lookup_alter_eq. Qed.

Lemma on_device_lookup_ne channel f s (i : nat) :
  i <> Z.to_nat channel ->
  pairedDevices (on_device channel f s) !! i = pairedDevices s !! i.
Proof.
  intros Hne. unfold on_device. cbn. apply list_lookup_alter_ne. congruence.
Qed.

Lemma on_device_length channel f s :
  length (pairedDevices (on_device channel f s)) = length (pairedDevices s).
Proof. unfold on_device. cbn. apply length_alter. Qed.

Lemma clearPairedAddr_length channel s :
  length (pairedDevices (clearPairedAddr channel s)) = length (pairedDevices s).
Proof.
  unfold clearPairedAddr.
  destruct ((0 <=? channel) && (channel <? MAX_CHANNELS));
    [apply on_device_length | reflexivity].
Qed.

Lemma device_in_range channel s :
  well_formed s -> 0 <= channel < MAX_CHANNELS ->
  exists d, pairedDevices s !! Z.to_nat channel = Some d.
Proof.
  intros Hwf Hch. apply lookup_lt_is_Some_2. rewrite Hwf.
  unfold MAX_CHANNELS in *. lia.
Qed.

(** C10. Unpair postcondition: for every channel below [MAX_CHANNELS],
    after [clearPairedAddr(channel)] the slot has an empty address, all-zero
    public and shared keys, an empty mailbox and a secure channel whose
    encrypt and decrypt counters are 0 (its key is the zeroed shared key);
    every other slot, and everything outside the directory, is unchanged. *)
Theorem clearPairedAddr_postcondition (channel : Z) (s : t) :
  well_formed s -> 0 <= channel < MAX_CHANNELS ->
  let s' := clearPairedAddr channel s in
  (exists d, device channel s' = Some d
     /\ addr d = EmptyString
     /\ publicKey d = zero_key /\ sharedKey d = zero_key
     /\ mailbox d = []
     /\ SimpleCha2.getEncryptCounter (chaObject d) = 0
     /\ SimpleCha2.getDecryptCounter (chaObject d) = 0
     /\ SimpleCha2.key (chaObject d) = zero_key)
  /\ (forall i, i <> channel -> device i s' = device i s)
  /\ s' = set_pairedDevices (pairedDevices s') s.
Proof.
  intros Hwf Hch s'. subst s'. unfold clearPairedAddr.
  destruct (device_in_range channel s Hwf Hch) as [d Hd].
  assert (Hin : (0 <=? channel) && (channel <? MAX_CHANNELS) = true)
    by (apply andb_true_iff; split; [apply Z.leb_le | apply Z.ltb_lt]; lia).
  rewrite Hin. repeat split.
  - unfold device. rewrite Hin, on_device_lookup, Hd. cbn.
    eexists. split; [reflexivity|]. cbn. repeat split; reflexivity.
  - intros i Hi. unfold device.
    destruct ((0 <=? i) && (i <? MAX_CHANNELS)) eqn:Ei; [|reflexivity].
    apply on_device_lookup_ne.
    apply andb_true_iff in Ei as [Hi0 _]. apply Z.leb_le in Hi0. lia.
Qed.

(** ** The guards of the send operations *)

Lemma String_isEmpty_true a : a = EmptyString -> String_isEmpty a = true.
Proof. now intros ->. Qed.

Lemma sendMsgToAddr_rejected iv msg a status encryption s :
  isEnabled s = false \/ currentState s <> IDLE
  \/ MAX_MSG_SIZE < Z.of_nat (length msg) ->
  sendMsgToAddr iv msg a status encryption s
  = (false, store_status status (-1), s).
Proof.
  intros H. unfold sendMsgToAddr.
  destruct (isEnabled s); [|reflexivity]. cbn [negb].
  destruct H as [H | [H | H]]; [discriminate | |].
  - destruct (currentState s); try reflexivity. now elim H.
  - apply Z.ltb_lt in H. rewrite H, orb_true_r. reflexivity.
Qed.

Lemma sendMsg_rejected iv msg channel status encryption s :
  isEnabled s = false \/ currentState s <> IDLE
  \/ MAX_MSG_SIZE < Z.of_nat (length msg) \/ unpaired_channel channel s ->
  sendMsg iv msg channel status encryption s
  = (false, store_status status (-1), s).
Proof.
  intros H. unfold sendMsg.
  destruct (isEnabled s) eqn:En; [|reflexivity]. cbn [negb].
  unfold unpaired_channel in H.
  destruct (device channel s) as [d|]; [|reflexivity].
  destruct (String_isEmpty (addr d)) eqn:Ea; [reflexivity|].
  apply sendMsgToAddr_rejected.
  destruct H as [H | [H | [H | H]]]; auto.
  rewrite H in Ea. discriminate.
Qed.

(** C9. Send rejection and atomicity: a call of [sendMsg] or
    [sendMsgToAddr] (either overload) on a disabled manager, while the state
    is not IDLE or with a message longer than [MAX_MSG_SIZE], and a call of
    [sendMsg] on an invalid or unpaired channel, returns false and leaves the
    whole state, so the current state, the directory and the mailboxes, as
    it was. Where a status variable is supplied, the -1 of the documented
    status codes is stored through a pointer to [uint8_t]: the variable then
    holds 255, which is not -1, and [checkSendingStatus], which compares it
    with -1, prints nothing for it. *)
Theorem send_rejected (iv : Bytes) (c : send_call) (status : option Z)
  (encryption : bool) (s : t) :
  isEnabled s = false \/ currentState s <> IDLE
  \/ MAX_MSG_SIZE < message_size c \/ bad_channel c s ->
  run_send iv c status encryption s
  = (false, option_map (fun _ => uint8 (-1)) status, s)
  /\ forall v, snd (fst (run_send iv c status encryption s)) = Some v ->
       v = 255 /\ v <> -1
       /\ App.checkSendingStatus v true = (None, true).
Proof.
  intros H.
  assert (Hst : store_status status (-1)
                = option_map (fun _ => uint8 (-1)) status)
    by (destruct status; reflexivity).
  assert (Hrun : run_send iv c status encryption s
                 = (false, option_map (fun _ => uint8 (-1)) status, s)).
  { rewrite <- Hst.
    destruct c as [msg ch | msg ch | msg a | msg a]; cbn [run_send].
    - now apply sendMsg_rejected.
    - unfold sendMsgStr. destruct (isEnabled s) eqn:En; [|reflexivity].
      cbn [negb]. apply sendMsg_rejected. rewrite En. exact H.
    - apply sendMsgToAddr_rejected.
      destruct H as [H | [H | [H | []]]]; auto.
    - unfold sendMsgToAddrStr. destruct (isEnabled s) eqn:En; [|reflexivity].
      cbn [negb]. apply sendMsgToAddr_rejected. rewrite En.
      destruct H as [H | [H | [H | []]]]; auto. }
  split; [exact Hrun|]. rewrite Hrun. cbn [fst snd]. intros v Hv.
  destruct status as [v0|]; [|discriminate]. cbn [option_map] in Hv.
  injection Hv as <-. change (uint8 (-1)) with 255.
  repeat split. discriminate.
Qed.

End Directory.

(** ** Fragmentation *)

Section Fragmentation.
Context {crypto : Crypto} {codec : JsonCodec}.
Import RadioManager.

Lemma chunk_length M k :
  Z.of_nat (length (chunk M k))
  = Z.min 29 (Z.max 0 (Z.of_nat (length M) - 29 * Z.of_nat k)).
Proof. unfold chunk. rewrite length_take, length_drop. lia. Qed.

Lemma fragment_length M k : length (fragment M k) = 32%nat.
Proof.
  unfold fragment. cbn [app length le16_bytes].
  rewrite length_app, length_replicate.
  pose proof (chunk_length M k). lia.
Qed.

Lemma fragment_count_spec M k :
  Z.of_nat k < fragment_count M <-> 29 * Z.of_nat k < Z.of_nat (length M).
Proof. unfold fragment_count. Z.div_mod_to_equations. lia. Qed.

Lemma take_min_length {A} (l : list A) (n m : nat) :
  length l = m -> take (n `min` m) l = take n l.
Proof.
  intros <-. destruct (Nat.le_gt_cases n (length l)).
  - now rewrite Nat.min_l.
  - rewrite Nat.min_r, !take_ge by lia. reflexivity.
Qed.

Lemma memcpy_header (c : byte) (v : Z) :
  memcpy_at (replicate 32 x00) 0 (c :: le16_bytes v)
  = c :: byte_of_Z v :: byte_of_Z (Z.shiftr v 8) :: replicate 29 x00.
Proof. reflexivity. Qed.

Lemma memcpy_payload (c i0 i1 : byte) (payload : Bytes) :
  memcpy_at (c :: i0 :: i1 :: replicate 29 x00) 3 payload
  = c :: i0 :: i1 :: payload ++ replicate (29 - length payload) x00.
Proof.
  unfold memcpy_at. rewrite <- (drop_replicate (length payload) 29 x00).
  reflexivity.
Qed.

(** One call of [sendData] inside a transfer hands the next frame to the
    radio, acknowledged or not, and moves the cursor on when it is. *)
Lemma sendData_emits M k s :
  outgoingMsg (out s) = M ->
  outgoingMsgIndex (out s) = 29 * Z.of_nat k ->
  Z.of_nat k < fragment_count M ->
  fragment_count M <= 65536 ->
  Radio.payloadSize (radio s) = MAX_PACKET_SIZE ->
  let s' := sendData s in
  Radio.txLog (radio s') = Radio.txLog (radio s) ++ [fragment M k]
  /\ Radio.acks (radio s') = tl (Radio.acks (radio s))
  /\ Radio.payloadSize (radio s') = MAX_PACKET_SIZE
  /\ outgoingMsg (out s') = M
  /\ (hd false (Radio.acks (radio s)) = true ->
      outgoingMsgIndex (out s')
      = Z.min (29 * Z.of_nat (S k)) (Z.of_nat (length M))).
Proof.
  intros HM Hidx Hk HF Hps s'. subst s'.
  pose proof (proj1 (fragment_count_spec M k) Hk) as Hlt.
  assert (Hlen : Z.of_nat (length M) <= 29 * 65536).
  { unfold fragment_count in HF. Z.div_mod_to_equations. lia. }
  unfold sendData. rewrite HM, Hidx.
  change (uint16 (MAX_PACKET_SIZE - HEADER_SIZE)) with 29.
  destruct (Z.ltb_spec (29 * Z.of_nat k) (Z.of_nat (length M))) as [_|]; [|lia].
  assert (Hu1 : uint32 (Z.of_nat (length M) + 29 - 1)
                = Z.of_nat (length M) + 28).
  { unfold uint32. rewrite Z.mod_small; lia. }
  assert (Hu2 : uint32 (Z.of_nat (length M) - 29 * Z.of_nat k)
                = Z.of_nat (length M) - 29 * Z.of_nat k).
  { unfold uint32. rewrite Z.mod_small; lia. }
  rewrite Hu1, Hu2.
  fold (fragment_count M).
  set (rem := Z.of_nat (length M) - 29 * Z.of_nat k) in *.
  assert (Hchunk : take (Z.to_nat (Z.min 29 rem)) (drop (Z.to_nat (29 * Z.of_nat k)) M)
                   = chunk M k).
  { unfold chunk. replace (Z.to_nat (29 * Z.of_nat k)) with (29 * k)%nat by lia.
    replace (Z.to_nat (Z.min 29 rem)) with (29 `min` Z.to_nat rem)%nat by lia.
    apply take_min_length. rewrite length_drop. subst rem. lia. }
  rewrite Hchunk.
  assert (Hindex :
    (if 29 * Z.of_nat k =? 0 then uint16 (fragment_count M - 1)
     else if rem <=? 29 then 0
          else uint16 (fragment_count M - 1 - 29 * Z.of_nat k / 29))
    = fragment_count M - 1 - Z.of_nat k).
  { unfold uint16.
    destruct (Z.eqb_spec (29 * Z.of_nat k) 0) as [E|E].
    - replace (Z.of_nat k) with 0 by lia. rewrite Z.mod_small; lia.
    - destruct (Z.leb_spec rem 29) as [Hr|Hr].
      + subst rem. unfold fragment_count. Z.div_mod_to_equations. lia.
      + replace (29 * Z.of_nat k / 29) with (Z.of_nat k)
          by (Z.div_mod_to_equations; lia).
        rewrite Z.mod_small; lia. }
  rewrite Hindex.
  assert (Hcode : (if 29 * Z.of_nat k =? 0 then START_CODE else CONTINUE_CODE)
                  = if (k =? 0)%nat then START_CODE else CONTINUE_CODE).
  { destruct k; [reflexivity|].
    destruct (Z.eqb_spec (29 * Z.of_nat (S k)) 0); [lia|reflexivity]. }
  rewrite Hcode.
  set (code := if (k =? 0)%nat then START_CODE else CONTINUE_CODE).
  set (idx := fragment_count M - 1 - Z.of_nat k).
  pose proof (chunk_length M k) as Hcl. fold rem in Hcl.
  assert (Hpacket :
    pad (memcpy_at
           (memcpy_at (replicate (Z.to_nat MAX_PACKET_SIZE) x00) 0
              (code :: le16_bytes idx))
           (Z.to_nat HEADER_SIZE) (chunk M k)) MAX_PACKET_SIZE
    = fragment M k).
  { change (Z.to_nat MAX_PACKET_SIZE) with 32%nat.
    change (Z.to_nat HEADER_SIZE) with 3%nat.
    rewrite memcpy_header, memcpy_payload.
    assert (Hfrag : code :: byte_of_Z idx :: byte_of_Z (Z.shiftr idx 8)
                    :: chunk M k ++ replicate (29 - length (chunk M k)) x00
                    = fragment M k) by reflexivity.
    rewrite Hfrag. unfold pad. rewrite fragment_length.
    reflexivity. }
  rewrite Hpacket.
  assert (Hframe :
    Radio.resize (Z.to_nat (Radio.payloadSize (radio s)))
      (take (Z.to_nat (HEADER_SIZE + Z.min 29 rem)) (fragment M k))
    = fragment M k).
  { rewrite Hps. change (Z.to_nat MAX_PACKET_SIZE) with 32%nat.
    replace (Z.to_nat (HEADER_SIZE + Z.min 29 rem))
      with (3 + length (chunk M k))%nat by (unfold HEADER_SIZE; lia).
    unfold fragment at 1. cbn [le16_bytes app firstn Nat.add].
    rewrite take_app_length. unfold Radio.resize.
    cbn [length]. 
    rewrite take_ge by (cbn [length]; lia).
    replace (32 - S (S (S (length (chunk M k)))))%nat
      with (29 - length (chunk M k))%nat by lia.
    reflexivity. }
  unfold Radio.write. rewrite Hframe.
  assert (Hu3 : uint32 (29 * Z.of_nat k + Z.min 29 rem)
                = 29 * Z.of_nat k + Z.min 29 rem).
  { unfold uint32. rewrite Z.mod_small; subst rem; lia. }
  rewrite Hu3.
  destruct (Radio.acks (radio s)) as [|[|] rest]; cbn [hd tl negb];
    try destruct (Z.leb_spec (Z.of_nat (length M))
                    (29 * Z.of_nat k + Z.min 29 rem));
    state_simpl; repeat split; try assumption; try discriminate.
  all: intros _; subst rem; lia.
Qed.

Lemma tl_drop {A} (k : nat) (l : list A) : tl (drop k l) = drop (S k) l.
Proof.
  replace (S k) with (k + 1)%nat by lia. rewrite <- drop_drop.
  now destruct (drop k l).
Qed.

Lemma acks_prefix (k : nat) (l : list bool) :
  take (S k) l = replicate (S k) true ->
  take k l = replicate k true /\ hd false (drop k l) = true.
Proof.
  revert l. induction k as [|k IH]; intros [|a l] H; try discriminate.
  - cbn in H. injection H as ->. split; reflexivity.
  - change (a :: take (S k) l = true :: replicate (S k) true) in H.
    injection H as -> H. destruct (IH l H) as [H1 H2].
    split; [cbn; now rewrite H1 | exact H2].
Qed.

(** The first [k] calls of a transfer, all acknowledged, wrote the first
    [k] frames. *)
Lemma sendData_run M s (k : nat) :
  ready_to_send M s -> fragment_count M <= 65536 ->
  Z.of_nat k <= fragment_count M ->
  take k (Radio.acks (radio s)) = replicate k true ->
  Radio.txLog (radio (Nat.iter k sendData s))
  = Radio.txLog (radio s) ++ map (fragment M) (seq 0 k)
  /\ Radio.acks (radio (Nat.iter k sendData s)) = drop k (Radio.acks (radio s))
  /\ Radio.payloadSize (radio (Nat.iter k sendData s)) = MAX_PACKET_SIZE
  /\ outgoingMsg (out (Nat.iter k sendData s)) = M
  /\ outgoingMsgIndex (out (Nat.iter k sendData s))
     = Z.min (29 * Z.of_nat k) (Z.of_nat (length M)).
Proof.
  intros (HM & Hidx & Hps) HF. induction k as [|k IH]; intros Hk Hacks.
  - cbn [Nat.iter nat_rect seq map]. rewrite app_nil_r, drop_0, Hidx.
    repeat split; try assumption; lia.
  - destruct (acks_prefix k _ Hacks) as [Hpre Hhd].
    destruct IH as (Hlog & Hack & Hps' & HM' & Hidx'); [lia | exact Hpre |].
    change (Nat.iter (S k) sendData s) with (sendData (Nat.iter k sendData s)).
    set (sk := Nat.iter k sendData s) in *.
    assert (Hlt : Z.of_nat k < fragment_count M) by lia.
    pose proof (proj1 (fragment_count_spec M k) Hlt) as Hlt'.
    rewrite Z.min_l in Hidx' by lia.
    destruct (sendData_emits M k sk HM' Hidx' Hlt HF Hps')
      as (Hlog2 & Hack2 & Hps2 & HM2 & Hidx2).
    rewrite Hlog2, Hack2, Hlog, Hack. repeat split; try assumption.
    + rewrite seq_S, map_app, app_assoc. reflexivity.
    + apply tl_drop.
    + apply Hidx2. rewrite Hack. exact Hhd.
Qed.

Lemma fragment_header M (k : nat) :
  Z.of_nat k < fragment_count M -> fragment_count M <= 65536 ->
  read_header (fragment M k)
  = Some (if (k =? 0)%nat then START_CODE else CONTINUE_CODE,
          fragment_count M - 1 - Z.of_nat k).
Proof.
  intros Hk HF. unfold fragment. cbn [le16_bytes app read_header].
  change (le_Z [byte_of_Z ?v; byte_of_Z (Z.shiftr ?v 8)])
    with (le_Z (le16_bytes v)).
  rewrite le_Z_le16_bytes; [reflexivity|].
  change (2 ^ 16) with 65536. lia.
Qed.

(** The frame that call [k] of a transfer hands to the radio, when the
    calls before it were acknowledged. *)
Lemma sendData_frame M s (k : nat) :
  ready_to_send M s -> fragment_count M <= 65536 ->
  Z.of_nat k < fragment_count M ->
  take k (Radio.acks (radio s)) = replicate k true ->
  frames_since s (Nat.iter (S k) sendData s) !! k = Some (fragment M k).
Proof.
  intros Hready HF Hk Hacks.
  destruct (sendData_run M s k Hready HF) as (Hlog & _ & Hps & HM & Hidx);
    [lia | exact Hacks |].
  change (Nat.iter (S k) sendData s) with (sendData (Nat.iter k sendData s)).
  set (sk := Nat.iter k sendData s) in *.
  pose proof (proj1 (fragment_count_spec M k) Hk) as Hlt.
  rewrite Z.min_l in Hidx by lia.
  destruct (sendData_emits M k sk HM Hidx Hk HF Hps) as (Hlog2 & _).
  unfold frames_since. rewrite Hlog2, Hlog, <- app_assoc, drop_app_length.
  rewrite lookup_app_r; rewrite length_map, length_seq; [|lia].
  now rewrite Nat.sub_diag.
Qed.

(** The longest outgoing message is a plaintext of [MAX_MSG_SIZE] bytes
    behind its nonce. *)
Lemma fragment_count_bound M :
  Z.of_nat (length M) <= MAX_MSG_SIZE + SimpleCha2.NONCE_SIZE ->
  fragment_count M <= 72.
Proof.
  unfold fragment_count, MAX_MSG_SIZE, SimpleCha2.NONCE_SIZE.
  intros H. Z.div_mod_to_equations. lia.
Qed.

(** C8. Fragment header encoding: for an outgoing message of
    [F = ceil(|M| / 29)] fragments, the frame that the [k]-th call of
    [sendData] (from 0, the calls before it acknowledged) hands to the radio
    carries the code byte 'M' when [k = 0] and 'C' otherwise, and its 16-bit
    little-endian index field is [F - 1 - k]; the last frame so has index
    0. *)
Theorem fragment_header_encoding (M : Bytes) (s : t) (k : nat) :
  ready_to_send M s ->
  Z.of_nat (length M) <= MAX_MSG_SIZE + SimpleCha2.NONCE_SIZE ->
  Z.of_nat k < fragment_count M ->
  take k (Radio.acks (radio s)) = replicate k true ->
  exists frame,
    frames_since s (Nat.iter (S k) sendData s) !! k = Some frame
    /\ read_header frame
       = Some (if (k =? 0)%nat then START_CODE else CONTINUE_CODE,
               fragment_count M - 1 - Z.of_nat k).
Proof.
  intros Hready Hlen Hk Hacks.
  pose proof (fragment_count_bound M Hlen) as HF.
  exists (fragment M k). split.
  - apply sendData_frame; try assumption. lia.
  - apply fragment_header; [assumption | lia].
Qed.

End Fragmentation.

(** ** Reassembly *)

Section Reassembly.
Context {crypto : Crypto} {codec : JsonCodec}.
Import RadioManager.

Lemma unpad_loop_zeros (n fuel : nat) (l : Bytes) :
  (n <= fuel)%nat -> ends_nonzero l = true ->
  unpad_loop fuel (l ++ replicate n x00) = l.
Proof.
  revert fuel. induction n as [|n IH]; intros fuel Hfuel Hl.
  - cbn [replicate]. rewrite app_nil_r. unfold ends_nonzero in Hl.
    destruct fuel as [|fuel]; [reflexivity|]. cbn [unpad_loop].
    destruct (last l) as [b|]; [|reflexivity].
    now destruct (is_zero_byte b).
  - destruct fuel as [|fuel]; [lia|].
    rewrite replicate_S_end, app_assoc. cbn [unpad_loop].
    rewrite last_snoc. cbn [is_zero_byte Byte.eqb].
    change (Byte.eqb x00 x00) with true. cbn iota.
    rewrite removelast_last. apply IH; [lia | exact Hl].
Qed.

Lemma ends_nonzero_snoc_header (h : Bytes) (payload : Bytes) :
  ends_nonzero payload = true -> ends_nonzero (h ++ payload) = true.
Proof.
  unfold ends_nonzero. destruct payload as [|b r] using rev_ind;
    [discriminate|].
  rewrite app_assoc, !last_snoc. auto.
Qed.

Lemma unpad_fragment M k :
  ends_nonzero (chunk M k) = true ->
  unpad (fragment M k)
  = (if (k =? 0)%nat then START_CODE else CONTINUE_CODE)
    :: le16_bytes (fragment_count M - 1 - Z.of_nat k) ++ chunk M k.
Proof.
  intros Hend. unfold unpad. rewrite fragment_length.
  set (h := (if (k =? 0)%nat then START_CODE else CONTINUE_CODE)
            :: le16_bytes (fragment_count M - 1 - Z.of_nat k)).
  change (fragment M k)
    with ((h ++ chunk M k) ++ replicate (29 - length (chunk M k)) x00).
  change (unpad_loop 32
            ((h ++ chunk M k) ++ replicate (29 - length (chunk M k)) x00)
          = h ++ chunk M k).
  apply unpad_loop_zeros; [lia|].
  now apply ends_nonzero_snoc_header.
Qed.

Lemma resize_same (n : nat) (b : Bytes) :
  length b = n -> Radio.resize n b = b.
Proof.
  intros <-. unfold Radio.resize.
  now rewrite firstn_all, Nat.sub_diag, app_nil_r.
Qed.

Lemma take_chunk M k : take (29 * k) M ++ chunk M k = take (29 * S k) M.
Proof.
  unfold chunk. replace (29 * S k)%nat with (29 * k + 29)%nat by lia.
  rewrite <- (take_drop (29 * k) (take (29 * k + 29) M)) at 1.
  rewrite take_take, Nat.min_l by lia. f_equal.
  rewrite skipn_firstn_comm. f_equal. lia.
Qed.

Lemma accept_fragment_next M (k : nat) now r :
  k = 0%nat
  \/ (rxBuffer r = take (29 * k) M
      /\ expectedFragments r = fragment_count M
      /\ receivedFragments r = Z.of_nat k) ->
  Z.of_nat k < fragment_count M -> fragment_count M <= MAX_PACKETS_RCV ->
  accept_fragment now (if (k =? 0)%nat then START_CODE else CONTINUE_CODE)
    (fragment_count M - 1 - Z.of_nat k) (chunk M k) r
  = mkReceive (take (29 * S k) M) now (fragment_count M) (Z.of_nat (S k)).
Proof.
  intros Hre Hk HF. unfold MAX_PACKETS_RCV in HF. unfold accept_fragment.
  destruct k as [|k].
  - cbn [Nat.eqb]. change (Byte.eqb START_CODE START_CODE) with true.
    cbn iota. state_simpl. change (0 <? MAX_PACKETS_RCV) with true.
    cbn iota. cbn [app]. unfold chunk. cbn [Nat.mul skipn].
    f_equal. unfold uint16. rewrite Z.mod_small; lia.
  - destruct Hre as [Hre | (Hbuf & Hexp & Hrcv)]; [discriminate|].
    cbn [Nat.eqb]. change (Byte.eqb CONTINUE_CODE START_CODE) with false.
    cbn iota. rewrite Hbuf, Hexp, Hrcv.
    destruct (Z.ltb_spec (Z.of_nat (S k)) MAX_PACKETS_RCV) as [_|Hbad];
      [|unfold MAX_PACKETS_RCV in Hbad; lia].
    rewrite take_chunk. f_equal.
    unfold uint16. rewrite Z.mod_small; lia.
Qed.

(** A tick that finds a fragment other than the last one. *)
Lemma loop_fragment M (k : nat) now iv pipe s :
  polling s -> reassembling M k s ->
  Z.of_nat (S k) < fragment_count M -> fragment_count M <= MAX_PACKETS_RCV ->
  ends_nonzero (chunk M k) = true ->
  exists s',
    loop now iv (on_radio (Radio.deliver pipe (fragment M k)) s) = Some s'
    /\ polling s' /\ reassembling M (S k) s'
    /\ pairedDevices s' = pairedDevices s.
Proof.
  intros (Hen & Hst & Hfifo & Hps) Hre Hk HF Hend.
  unfold loop. state_simpl. rewrite Hen, Hst. cbn [negb].
  unfold Radio.available. state_simpl. rewrite Hfifo. cbn [app].
  unfold receiveData. state_simpl. rewrite Hen, Hps. cbn [negb].
  change ((HEADER_SIZE <=? MAX_PACKET_SIZE) && (MAX_PACKET_SIZE <=? NRF_BUF_SIZE))
    with true. cbn iota.
  unfold Radio.read. state_simpl. rewrite Hfifo. cbn [app].
  rewrite resize_same by apply fragment_length.
  rewrite unpad_fragment by exact Hend.
  set (code := if (k =? 0)%nat then START_CODE else CONTINUE_CODE).
  set (idx := fragment_count M - 1 - Z.of_nat k).
  change (read_header (code :: le16_bytes idx ++ chunk M k))
    with (Some (code, le_Z (le16_bytes idx))).
  change (drop (Z.to_nat HEADER_SIZE) (code :: le16_bytes idx ++ chunk M k))
    with (chunk M k).
  unfold MAX_PACKETS_RCV in HF.
  rewrite le_Z_le16_bytes by (change (2 ^ 16) with 65536; subst idx; lia).
  cbn [mbind option_bind]. subst code idx.
  rewrite (accept_fragment_next M k now (rx s)) by (try assumption; lia).
  destruct (Z.eqb_spec (fragment_count M - 1 - Z.of_nat k) 0) as [E|_]; [lia|].
  cbn [mbind option_bind]. eexists. split; [reflexivity|].
  unfold expire_partial. state_simpl.
  assert (Hfresh : (RECEIVE_TIMEOUT <? elapsed now now) = false).
  { unfold elapsed. now rewrite Z.sub_diag. }
  rewrite Hfresh.
  destruct (take (29 * S k) M) eqn:Etake; state_simpl;
    (split; [repeat split; assumption|]);
    (split; [right; state_simpl; rewrite ?Etake; repeat split|reflexivity]).
Qed.

(** A tick that finds the last fragment hands the whole message to
    [store_message]. *)
Lemma loop_last_fragment M (k : nat) now iv pipe s :
  polling s -> reassembling M k s ->
  Z.of_nat (S k) = fragment_count M -> fragment_count M <= MAX_PACKETS_RCV ->
  ends_nonzero (chunk M k) = true ->
  exists s_mid,
    pairedDevices s_mid = pairedDevices s
    /\ isEnabled s_mid = true
    /\ Radio.rxFifo (radio s_mid) = []
    /\ Radio.payloadSize (radio s_mid) = MAX_PACKET_SIZE
    /\ loop now iv (on_radio (Radio.deliver pipe (fragment M k)) s)
       = (s1 ← store_message (uint8 (pipe - 1)) M s_mid;
          Some (finish_receive s1)).
Proof.
  intros (Hen & Hst & Hfifo & Hps) Hre Hk HF Hend.
  unfold loop. state_simpl. rewrite Hen, Hst. cbn [negb].
  unfold Radio.available. state_simpl. rewrite Hfifo. cbn [app].
  unfold receiveData. state_simpl. rewrite Hen, Hps. cbn [negb].
  change ((HEADER_SIZE <=? MAX_PACKET_SIZE) && (MAX_PACKET_SIZE <=? NRF_BUF_SIZE))
    with true. cbn iota.
  unfold Radio.read. state_simpl. rewrite Hfifo. cbn [app].
  rewrite resize_same by apply fragment_length.
  rewrite unpad_fragment by exact Hend.
  set (code := if (k =? 0)%nat then START_CODE else CONTINUE_CODE).
  set (idx := fragment_count M - 1 - Z.of_nat k).
  change (read_header (code :: le16_bytes idx ++ chunk M k))
    with (Some (code, le_Z (le16_bytes idx))).
  change (drop (Z.to_nat HEADER_SIZE) (code :: le16_bytes idx ++ chunk M k))
    with (chunk M k).
  unfold MAX_PACKETS_RCV in HF.
  rewrite le_Z_le16_bytes by (change (2 ^ 16) with 65536; subst idx; lia).
  cbn [mbind option_bind]. subst code idx.
  rewrite (accept_fragment_next M k now (rx s)) by (try assumption; lia).
  destruct (Z.eqb_spec (fragment_count M - 1 - Z.of_nat k) 0) as [_|E]; [|lia].
  state_simpl. rewrite Hk, Z.eqb_refl.
  assert (Hall : take (29 * S k) M = M).
  { apply take_ge. pose proof (fragment_count_spec M (S k)) as Hspec.
    destruct (Nat.le_gt_cases (length M) (29 * S k)) as [|Hgt]; [assumption|].
    assert (Z.of_nat (S k) < fragment_count M) by (apply Hspec; lia). lia. }
  rewrite Hall.
  match goal with
  | |- context [store_message _ _ ?x] => exists x
  end.
  repeat split; try assumption.
  destruct (store_message _ _ _) as [s1|] eqn:Es; cbn [mbind option_bind];
    [|reflexivity].
  unfold expire_partial, finish_receive. state_simpl. reflexivity.
Qed.

(** [store_message] reads and writes the directory only. *)
Lemma store_message_directory channel M s s1 :
  store_message channel M s = Some s1 ->
  exists devs,
    s1 = set_pairedDevices devs s
    /\ forall s2, pairedDevices s2 = pairedDevices s ->
         store_message channel M s2 = Some (set_pairedDevices devs s2).
Proof.
  unfold store_message, decryptMessage, on_device. intros H.
  destruct (pairedDevices s !! Z.to_nat channel) as [d|] eqn:Ed;
    cbn [mbind option_bind] in H; [|discriminate].
  destruct (negb (String_isEmpty (addr d))) eqn:Ea.
  - destruct (channel <? MAX_CHANNELS) eqn:Ec.
    + cbv iota in H.
      destruct (SimpleCha2.decrypt M (chaObject d)) as [m cha] eqn:Edec.
      injection H as <-. state_simpl. eexists. split; [reflexivity|].
      intros s2 H2. rewrite H2, Ed. cbn [mbind option_bind].
      rewrite Ea, Edec. state_simpl. rewrite ?H2. reflexivity.
    + cbv iota in H. injection H as <-. state_simpl.
      eexists. split; [reflexivity|].
      intros s2 H2. rewrite H2, Ed. cbn [mbind option_bind].
      rewrite Ea. state_simpl. rewrite ?H2. reflexivity.
  - injection H as <-. exists (pairedDevices s). split; [now destruct s|].
    intros s2 H2. rewrite H2, Ed. cbn [mbind option_bind]. rewrite Ea.
    rewrite <- H2. now destruct s2.
Qed.

Lemma store_message_defined channel M s :
  is_Some (pairedDevices s !! Z.to_nat channel) ->
  is_Some (store_message channel M s).
Proof.
  intros [d Hd]. unfold store_message. rewrite Hd. cbn [mbind option_bind].
  destruct (negb (String_isEmpty (addr d))); [|eauto].
  destruct (decryptMessage channel M s). eauto.
Qed.

Lemma payloads_end_nonzero_chunk M (k : nat) :
  payloads_end_nonzero M = true -> Z.of_nat k < fragment_count M ->
  ends_nonzero (chunk M k) = true.
Proof.
  unfold payloads_end_nonzero. rewrite forallb_forall. intros H Hk.
  apply H, in_seq. lia.
Qed.

(** Fragments [k .. k+n] of [M], in order, complete the reassembly. *)
Lemma receive_frames_run M iv pipe (n k : nat) nows s :
  Z.of_nat (k + S n) = fragment_count M ->
  fragment_count M <= MAX_PACKETS_RCV ->
  payloads_end_nonzero M = true ->
  length nows = S n ->
  polling s -> reassembling M k s ->
  exists s_mid,
    pairedDevices s_mid = pairedDevices s
    /\ isEnabled s_mid = true
    /\ Radio.rxFifo (radio s_mid) = []
    /\ Radio.payloadSize (radio s_mid) = MAX_PACKET_SIZE
    /\ receive_frames iv pipe
         (zip nows (map (fragment M) (seq k (S n)))) s
       = (s1 ← store_message (uint8 (pipe - 1)) M s_mid;
          Some (finish_receive s1)).
Proof.
  revert k nows s. induction n as [|n IH];
    intros k [|now nows] s Hk HF Hends Hlen Hpoll Hre; try discriminate.
  - destruct nows; [|discriminate]. cbn [seq map zip zip_with receive_frames].
    destruct (loop_last_fragment M k now iv pipe s)
      as (s_mid & Hd & He & Hf & Hp & Hloop); try assumption; try lia.
    { apply payloads_end_nonzero_chunk; [assumption | lia]. }
    exists s_mid. rewrite Hloop. repeat split; try assumption.
    destruct (store_message _ _ _); reflexivity.
  - change (seq k (S (S n))) with (k :: seq (S k) (S n)).
    cbn [map zip zip_with receive_frames].
    destruct (loop_fragment M k now iv pipe s)
      as (s' & Hloop & Hpoll' & Hre' & Hd'); try assumption; try lia.
    { apply payloads_end_nonzero_chunk; [assumption | lia]. }
    rewrite Hloop. cbn [mbind option_bind].
    destruct (IH (S k) nows s') as (s_mid & Hd & Hrest);
      try assumption; try lia.
    { cbn [length] in Hlen. lia. }
    exists s_mid. rewrite Hd, Hd'. split; [reflexivity | exact Hrest].
Qed.

Lemma push_mailbox_fields m d :
  addr (push_mailbox m d) = addr d
  /\ chaObject (push_mailbox m d) = chaObject d
  /\ publicKey (push_mailbox m d) = publicKey d
  /\ sharedKey (push_mailbox m d) = sharedKey d.
Proof.
  unfold push_mailbox.
  destruct (Z.of_nat (length (mailbox d)) <? MAX_MAILBOX_MSG);
    repeat split.
Qed.

(** What [store_message] leaves in an occupied slot. *)
Lemma store_message_slot channel C s d :
  0 <= channel < MAX_CHANNELS ->
  pairedDevices s !! Z.to_nat channel = Some d ->
  addr d <> EmptyString ->
  let dec := SimpleCha2.decrypt C (chaObject d) in
  exists s1,
    store_message channel C s = Some s1
    /\ pairedDevices s1 !! Z.to_nat channel
       = Some (push_mailbox (match fst dec with [] => C | _ => fst dec end)
                 (set_chaObject (snd dec) d))
    /\ length (pairedDevices s1) = length (pairedDevices s).
Proof.
  intros Hch Hd Haddr dec. unfold store_message. rewrite Hd.
  cbn [mbind option_bind].
  destruct (addr d) as [|c a] eqn:Ea; [contradiction|]. cbn [String_isEmpty negb].
  unfold decryptMessage.
  destruct (Z.ltb_spec channel MAX_CHANNELS) as [_|]; [|lia]. rewrite Hd.
  subst dec. destruct (SimpleCha2.decrypt C (chaObject d)) as [m cha].
  eexists. split; [reflexivity|]. cbn [fst snd]. split.
  - rewrite on_device_lookup, on_device_lookup, Hd. reflexivity.
  - now rewrite !on_device_length.
Qed.

Lemma device_lookup channel s :
  0 <= channel < MAX_CHANNELS ->
  device channel s = pairedDevices s !! Z.to_nat channel.
Proof.
  intros Hch. unfold device.
  destruct (Z.leb_spec 0 channel); [|lia].
  destruct (Z.ltb_spec channel MAX_CHANNELS); [reflexivity|lia].
Qed.

(** A whole transfer, every frame acknowledged, wrote the frames of the
    message. *)
Lemma sendData_all_frames M s :
  ready_to_send M s -> fragment_count M <= 65536 ->
  take (Z.to_nat (fragment_count M)) (Radio.acks (radio s))
  = replicate (Z.to_nat (fragment_count M)) true ->
  frames_since s (Nat.iter (Z.to_nat (fragment_count M)) sendData s)
  = map (fragment M) (seq 0 (Z.to_nat (fragment_count M))).
Proof.
  intros Hready HF Hacks.
  assert (0 <= fragment_count M)
    by (unfold fragment_count; Z.div_mod_to_equations; lia).
  destruct (sendData_run M s (Z.to_nat (fragment_count M)) Hready HF)
    as (Hlog & _); [lia | exact Hacks |].
  unfold frames_since. rewrite Hlog. apply drop_app_length.
Qed.

(** The frames of a message, taken in in order on the pipe of a slot, end
    in [store_message] of the message itself. *)
Lemma receive_all_frames (M : Bytes) (receiver : t) (pipe : Z)
  (nows : list Z) (iv : Bytes) :
  1 <= fragment_count M <= MAX_PACKETS_RCV ->
  payloads_end_nonzero M = true ->
  polling receiver -> well_formed receiver -> 1 <= pipe <= MAX_CHANNELS ->
  length nows = Z.to_nat (fragment_count M) ->
  exists receiver',
    receive_frames iv pipe
      (zip nows (map (fragment M) (seq 0 (Z.to_nat (fragment_count M)))))
      receiver = Some receiver'
    /\ Some (pairedDevices receiver')
       = pairedDevices <$> store_message (pipe - 1) M receiver
    /\ polling receiver' /\ rxBuffer (rx receiver') = [].
Proof.
  intros HF Hends Hpoll Hwf Hpipe Hnows.
  set (F := Z.to_nat (fragment_count M)) in *.
  destruct (receive_frames_run M iv pipe (F - 1) 0 nows receiver)
    as (s_mid & Hd & Hen & Hfifo & Hps & Hrun);
    try assumption; try lia; [now left|].
  replace (S (F - 1)) with F in Hrun by lia. rewrite Hrun.
  assert (Hch : uint8 (pipe - 1) = pipe - 1).
  { unfold uint8, MAX_CHANNELS in *. rewrite Z.mod_small; lia. }
  rewrite Hch.
  destruct (store_message_defined (pipe - 1) M s_mid) as [s1 Hs1].
  { rewrite Hd. apply lookup_lt_is_Some_2. rewrite Hwf.
    unfold MAX_CHANNELS in *. lia. }
  rewrite Hs1. cbn [mbind option_bind]. eexists. split; [reflexivity|].
  destruct (store_message_directory _ _ _ _ Hs1) as (devs & -> & Hother).
  rewrite (Hother receiver) by (symmetry; exact Hd).
  unfold finish_receive. state_simpl. cbn [fmap option_fmap option_map].
  repeat split; assumption.
Qed.

(** C1, as the code has it. Fragmentation round trip: for every byte string
    [M] with [0 < |M| <= MAX_MSG_SIZE] none of whose 29-byte fragment
    payloads ends in a zero byte, a transfer of [M] that is acknowledged
    throughout writes [ceil(|M| / 29)] frames, the last of them with header
    index 0, and a receiver that takes these frames in, in order, on the
    pipe of a slot hands exactly [M] to [store_message], its delivery step,
    and is idle again with an empty reassembly buffer; [M] itself is what
    the mailbox of an occupied slot receives when the slot's secure channel
    does not decipher it. *)
Theorem fragmentation_round_trip (M : Bytes) (sender receiver : t)
  (pipe : Z) (nows : list Z) (iv : Bytes) :
  let F := Z.to_nat (fragment_count M) in
  (0 < length M)%nat -> Z.of_nat (length M) <= MAX_MSG_SIZE ->
  payloads_end_nonzero M = true ->
  ready_to_send M sender ->
  take F (Radio.acks (radio sender)) = replicate F true ->
  polling receiver -> well_formed receiver -> 1 <= pipe <= MAX_CHANNELS ->
  length nows = F ->
  let frames := frames_since sender (Nat.iter F sendData sender) in
  length frames = F
  /\ (exists f code, last frames = Some f /\ read_header f = Some (code, 0))
  /\ exists receiver',
       receive_frames iv pipe (zip nows frames) receiver = Some receiver'
       /\ Some (pairedDevices receiver')
          = pairedDevices <$> store_message (pipe - 1) M receiver
       /\ polling receiver' /\ rxBuffer (rx receiver') = []
       /\ (forall d,
             device (pipe - 1) receiver = Some d -> addr d <> EmptyString ->
             fst (SimpleCha2.decrypt M (chaObject d)) = [] ->
             exists d', device (pipe - 1) receiver' = Some d'
                        /\ mailbox d' = mailbox (push_mailbox M d)).
Proof.
  intros F Hpos Hlen Hends Hready Hacks Hpoll Hwf Hpipe Hnows frames.
  assert (HF : 1 <= fragment_count M <= 71).
  { unfold fragment_count, MAX_MSG_SIZE in *. Z.div_mod_to_equations. lia. }
  assert (Hframes : frames = map (fragment M) (seq 0 F)).
  { apply sendData_all_frames; [assumption | lia | exact Hacks]. }
  rewrite Hframes. split; [now rewrite length_map, length_seq|]. split.
  - exists (fragment M (F - 1)), (if (F - 1 =? 0)%nat then START_CODE
                                  else CONTINUE_CODE).
    replace F with (S (F - 1)) at 1 by lia.
    rewrite seq_S, map_app, Nat.add_0_l. cbn [map]. rewrite last_snoc.
    split; [reflexivity|].
    rewrite fragment_header by lia. do 2 f_equal. lia.
  - destruct (receive_all_frames M receiver pipe nows iv)
      as (receiver' & Hrun & Hdev & Hpoll' & Hbuf); try assumption.
    { unfold MAX_PACKETS_RCV. lia. }
    exists receiver'. repeat split; try assumption; try apply Hpoll'.
    intros d Hd Haddr Hdec.
    assert (Hch : 0 <= pipe - 1 < MAX_CHANNELS) by lia.
    rewrite device_lookup in * by exact Hch.
    destruct (store_message_slot (pipe - 1) M receiver d Hch Hd Haddr)
      as (s1 & Hs1 & Hslot & _).
    rewrite Hs1 in Hdev. cbn [fmap option_fmap option_map] in Hdev.
    injection Hdev as ->. rewrite Hslot, Hdec. eexists. split; [reflexivity|].
    unfold push_mailbox. cbn [set_chaObject mailbox].
    destruct (_ <? _); reflexivity.
Qed.

End Reassembly.

(** ** A ciphertext received twice *)

Section Replay.
Context {crypto : Crypto} {codec : JsonCodec}.
Import RadioManager.

Lemma readMsg_head channel s d m rest :
  device channel s = Some d -> addr d <> EmptyString ->
  mailbox d = m :: rest ->
  fst (readMsg channel s) = m
  /\ device channel (snd (readMsg channel s)) = Some (set_mailbox rest d).
Proof.
  intros Hd Haddr Hm. unfold readMsg. rewrite Hd, Hm.
  destruct (addr d) as [|c a] eqn:Ea; [contradiction|].
  cbn [String_isEmpty negb fst snd]. split; [reflexivity|].
  unfold device in *.
  destruct ((0 <=? channel) && (channel <? MAX_CHANNELS)); [|discriminate].
  now rewrite on_device_lookup, Hd.
Qed.

Lemma encrypt_length iv x c :
  length iv = 8%nat ->
  length (fst (SimpleCha2.encrypt iv x c)) = (12 + length x)%nat.
Proof.
  intros Hiv. rewrite encrypt_ciphertext, length_app, createNonce_length
    by exact Hiv.
  unfold SimpleCha2.chacha. now rewrite xor_stream_length.
Qed.

(** C3, as the code has it. A ciphertext of a non-empty plaintext is taken
    in twice by the receiver whose slot shares the key: the first time the
    plaintext is put in the mailbox of the slot; the second time the secure
    channel rejects the replay, so the plaintext is delivered once only, and
    the receiver then stores the reassembled bytes themselves: the
    ciphertext (nonce then body) is a second message in the mailbox. With a
    mailbox empty at the start, [readMsg] returns the plaintext and then the
    ciphertext, which is not empty. *)
Theorem replayed_ciphertext_is_stored (X iv : Bytes) (sender : SimpleCha2.t)
  (receiver : t) (pipe : Z) (nows1 nows2 : list Z) (d : PairedDevice) :
  let C := fst (SimpleCha2.encrypt iv X sender) in
  let F := Z.to_nat (fragment_count C) in
  let frames := map (fragment C) (seq 0 F) in
  X <> [] -> Z.of_nat (length X) <= MAX_MSG_SIZE -> length iv = 8%nat ->
  payloads_end_nonzero C = true ->
  polling receiver -> well_formed receiver -> 1 <= pipe <= MAX_CHANNELS ->
  device (pipe - 1) receiver = Some d -> addr d <> EmptyString ->
  SimpleCha2.key (chaObject d) = SimpleCha2.key sender ->
  SimpleCha2.decryptCounter (chaObject d)
    < SimpleCha2.encryptCounter (snd (SimpleCha2.encrypt iv X sender)) ->
  length nows1 = F -> length nows2 = F ->
  exists r1 r2 d1 d2,
    receive_frames [] pipe (zip nows1 frames) receiver = Some r1
    /\ receive_frames [] pipe (zip nows2 frames) r1 = Some r2
    /\ device (pipe - 1) r1 = Some d1
    /\ mailbox d1 = mailbox (push_mailbox X d)
    /\ device (pipe - 1) r2 = Some d2
    /\ mailbox d2 = mailbox (push_mailbox C d1)
    /\ C <> []
    /\ (mailbox d = [] ->
        fst (readMsg (pipe - 1) r2) = X
        /\ fst (readMsg (pipe - 1) (snd (readMsg (pipe - 1) r2))) = C).
Proof.
  intros C F frames HX Hlen Hiv Hends Hpoll Hwf Hpipe Hd Haddr Hkey Hfresh
    Hn1 Hn2.
  assert (Hch : 0 <= pipe - 1 < MAX_CHANNELS) by lia.
  rewrite device_lookup in Hd by exact Hch.
  pose proof (encrypt_length iv X sender Hiv) as HClen. fold C in HClen.
  assert (HF : 1 <= fragment_count C <= MAX_PACKETS_RCV).
  { unfold fragment_count, MAX_PACKETS_RCV, MAX_MSG_SIZE in *.
    rewrite HClen. Z.div_mod_to_equations. lia. }
  assert (HC : C <> []) by (intros E; rewrite E in HClen; discriminate).
  (* first reception *)
  destruct (receive_all_frames C receiver pipe nows1 [] HF Hends Hpoll Hwf
              Hpipe Hn1) as (r1 & Hrun1 & Hdev1 & Hpoll1 & _).
  destruct (store_message_slot (pipe - 1) C receiver d Hch Hd Haddr)
    as (s1 & Hs1 & Hslot1 & Hlen1).
  rewrite Hs1 in Hdev1. cbn [fmap option_fmap option_map] in Hdev1.
  injection Hdev1 as Hdev1.
  pose proof (uint32_range (SimpleCha2.encryptCounter sender + 1)) as Hc.
  cbn [SimpleCha2.encrypt snd SimpleCha2.encryptCounter] in Hfresh.
  assert (Hdec1 : SimpleCha2.decrypt C (chaObject d)
                  = (X, SimpleCha2.mk (SimpleCha2.key sender)
                          (SimpleCha2.encryptCounter (chaObject d))
                          (uint32 (SimpleCha2.encryptCounter sender + 1)))).
  { subst C. rewrite encrypt_ciphertext. now apply decrypt_fresh. }
  rewrite Hdec1 in Hslot1. cbn [fst snd] in Hslot1.
  destruct X as [|x0 X']; [contradiction|].
  set (X := x0 :: X') in *.
  set (cha1 := SimpleCha2.mk _ _ _) in Hslot1.
  set (d1 := push_mailbox X (set_chaObject cha1 d)) in Hslot1.
  destruct (push_mailbox_fields X (set_chaObject cha1 d))
    as (Haddr1 & Hcha1 & _). fold d1 in Haddr1, Hcha1.
  cbn [set_chaObject addr chaObject] in Haddr1, Hcha1.
  (* second reception *)
  assert (Hwf1 : well_formed r1)
    by (unfold well_formed; rewrite Hdev1, Hlen1; exact Hwf).
  destruct (receive_all_frames C r1 pipe nows2 [] HF Hends Hpoll1 Hwf1
              Hpipe Hn2) as (r2 & Hrun2 & Hdev2 & _).
  assert (Hd1 : pairedDevices r1 !! Z.to_nat (pipe - 1) = Some d1)
    by (rewrite Hdev1; exact Hslot1).
  destruct (store_message_slot (pipe - 1) C r1 d1 Hch Hd1)
    as (s2 & Hs2 & Hslot2 & _); [now rewrite Haddr1|].
  rewrite Hs2 in Hdev2. cbn [fmap option_fmap option_map] in Hdev2.
  injection Hdev2 as Hdev2.
  assert (Hdec2 : SimpleCha2.decrypt C (chaObject d1) = ([], chaObject d1)).
  { subst C. rewrite encrypt_ciphertext. apply decrypt_replayed;
      [exact Hiv | exact Hc |]. rewrite Hcha1. cbn. lia. }
  rewrite Hdec2 in Hslot2. cbn [fst snd] in Hslot2.
  set (d2 := push_mailbox C (set_chaObject (chaObject d1) d1)) in Hslot2.
  exists r1, r2, d1, d2.
  rewrite !device_lookup by exact Hch. rewrite Hdev2, Hslot2.
  assert (Hmb1 : mailbox d1 = mailbox (push_mailbox X d)).
  { subst d1. unfold push_mailbox. cbn [set_chaObject mailbox].
    destruct (Z.of_nat (length (mailbox d)) <? MAX_MAILBOX_MSG); reflexivity. }
  assert (Hmb2 : mailbox d2 = mailbox (push_mailbox C d1)).
  { subst d2. unfold push_mailbox. cbn [set_chaObject mailbox].
    destruct (Z.of_nat (length (mailbox d1)) <? MAX_MAILBOX_MSG); reflexivity. }
  split; [exact Hrun1|]. split; [exact Hrun2|]. split; [exact Hd1|].
  split; [exact Hmb1|]. split; [reflexivity|]. split; [exact Hmb2|].
  split; [exact HC|]. intros Hempty.
  assert (Hm2 : mailbox d2 = [X; C]).
  { rewrite Hmb2. unfold push_mailbox. rewrite Hmb1. unfold push_mailbox.
    rewrite Hempty. reflexivity. }
  assert (Ha2 : addr d2 <> EmptyString).
  { destruct (push_mailbox_fields C (set_chaObject (chaObject d1) d1))
      as (Ha2 & _). fold d2 in Ha2. cbn [set_chaObject addr] in Ha2.
    now rewrite Ha2, Haddr1. }
  assert (Hdev : device (pipe - 1) r2 = Some d2)
    by now rewrite device_lookup, Hdev2 by exact Hch.
  destruct (readMsg_head (pipe - 1) r2 d2 X [C] Hdev Ha2 Hm2) as (Hfirst & Hnext).
  split; [exact Hfirst|].
  apply (readMsg_head _ _ _ C [] Hnext); [exact Ha2 | reflexivity].
Qed.

End Replay.

(** ** The pairing state machine *)

Section PairingSteps.
Context {crypto : Crypto} {codec : JsonCodec}.
Import RadioManager.

Lemma andThen_inv (PN PR : t -> Prop) f k :
  flow_inv PN PR f -> (forall s, PN s -> flow_inv PN PR (k s)) ->
  flow_inv PN PR (andThen f k).
Proof. destruct f; cbn; auto. Qed.

(** [handlePairing] keeps a property that the operations it is made of
    keep: writes to the radio and to the pairing variables, unpairing and
    pairing a slot with a key, the switch of role, and the return to
    IDLE through [initRadio]. *)
Section Invariant.
Variables PN PR : t -> Prop.
Hypothesis PN_set_radio : forall r s, PN s -> PN (set_radio r s).
Hypothesis PN_on_pairing : forall f s, PN s -> PN (on_pairing f s).
Hypothesis PN_clear : forall i s, PN s -> PN (clearPairedAddr i s).
Hypothesis PN_pair : forall a channel pk s,
  PN s -> PN (snd (setPairedAddr a channel (Some pk) s)).
Hypothesis PN_flip : forall s, PN s -> PN (set_currentState PAIRING_TRANSMIT s).
Hypothesis PR_abort : forall s, PN s -> PR (initRadio (set_currentState IDLE s)).

Lemma PN_on_radio f s : PN s -> PN (on_radio f s).
Proof. apply PN_set_radio. Qed.

Lemma PN_clearPairedUID uid s : PN s -> PN (snd (clearPairedUID uid s)).
Proof.
  intros H. unfold clearPairedUID.
  destruct (find_channel _ _ _); cbn [snd]; auto.
Qed.

Create HintDb pairing.

Local Hint Resolve PN_set_radio PN_on_pairing PN_on_radio PN_clear PN_pair
  PN_flip PR_abort PN_clearPairedUID : pairing.

Lemma with_tempCha_inv s k :
  (forall c, flow_inv PN PR (k c)) -> flow_inv PN PR (with_tempCha s k).
Proof. intros H. unfold with_tempCha. destruct (tempCha (pairing s)); cbn; auto. Qed.

Lemma receive_public_key_inv s :
  PN s -> flow_inv PN PR (receive_public_key s).
Proof.
  intros H. unfold receive_public_key.
  destruct (Radio.read KEY_SIZE (radio s)) as [receivedData hw].
  apply with_tempCha_inv. intros c. cbn [flow_inv].
  destruct (generateX25519SharedKey _ _); auto 10 with pairing.
Qed.

Lemma send_public_key_inv now wr rd s :
  PN s -> flow_inv PN PR (send_public_key now wr rd s).
Proof.
  intros H. unfold send_public_key.
  destruct (Radio.write _ _ _) as [[|] hw]; cbn [flow_inv];
    auto 10 with pairing.
Qed.

Lemma encrypt_pairing_address_inv iv pipeID s :
  PN s -> flow_inv PN PR (encrypt_pairing_address iv pipeID s).
Proof.
  intros H. unfold encrypt_pairing_address. apply with_tempCha_inv. intros c.
  destruct (SimpleCha2.encryptStr _ _ _) as [payload c']. cbn [flow_inv].
  auto with pairing.
Qed.

Lemma receive_ack_inv s k :
  PN s -> (forall a s', PN s' -> flow_inv PN PR (k a s')) ->
  flow_inv PN PR (receive_ack s k).
Proof.
  intros H Hk. unfold receive_ack.
  destruct (Radio.read _ _) as [packet hw].
  apply with_tempCha_inv. intros c.
  destruct (SimpleCha2.decryptToStr _ _) as [receivedAddr c'].
  destruct (checkValidAddr receivedAddr); [apply Hk|cbn [flow_inv]];
    auto with pairing.
Qed.

Lemma listen_step1_inv s : PN s -> flow_inv PN PR (listen_step1 s).
Proof.
  intros H. unfold listen_step1.
  destruct (_ && _); [now apply receive_public_key_inv | exact H].
Qed.

Lemma listen_step2_inv now s : PN s -> flow_inv PN PR (listen_step2 now s).
Proof.
  intros H. unfold listen_step2.
  destruct (_ && _); [now apply send_public_key_inv | exact H].
Qed.

Lemma listen_step3_inv s : PN s -> flow_inv PN PR (listen_step3 s).
Proof.
  intros H. unfold listen_step3.
  destruct (_ && _); [|exact H].
  apply receive_ack_inv; [exact H|]. intros a s' H'.
  pose proof (PN_clearPairedUID (String.substring 1 4 a) s' H') as Hc.
  destruct (clearPairedUID _ s') as [[|] s'']; cbn [snd] in Hc.
  - cbn [flow_inv]. auto with pairing.
  - destruct (String.eqb _ _); [unfold abort_pairing; cbn; auto with pairing|].
    destruct (_ <? _); unfold abort_pairing; cbn [flow_inv];
      auto with pairing.
Qed.

Lemma listen_step4_inv now iv s : PN s -> flow_inv PN PR (listen_step4 now iv s).
Proof.
  intros H. unfold listen_step4.
  destruct (_ && _); [|exact H].
  apply andThen_inv.
  - apply encrypt_pairing_address_inv. auto with pairing.
  - intros s' H'. destruct (Radio.write _ _ _) as [[|] hw];
      unfold abort_pairing; cbn [flow_inv]; auto 10 with pairing.
Qed.

Lemma listen_flip_inv now s : PN s -> flow_inv PN PR (listen_flip now s).
Proof.
  intros H. unfold listen_flip.
  destruct (_ && _); cbn [flow_inv]; auto 10 with pairing.
Qed.

Lemma transmit_step1_inv now s : PN s -> flow_inv PN PR (transmit_step1 now s).
Proof.
  intros H. unfold transmit_step1.
  destruct (_ && _); [now apply send_public_key_inv | exact H].
Qed.

Lemma transmit_step2_inv iv s : PN s -> flow_inv PN PR (transmit_step2 iv s).
Proof.
  intros H. unfold transmit_step2.
  destruct (_ && _); [|exact H].
  apply andThen_inv; [now apply receive_public_key_inv|].
  intros s' H'. apply encrypt_pairing_address_inv.
  destruct (_ <=? _); auto with pairing.
Qed.

Lemma transmit_step3_inv now s : PN s -> flow_inv PN PR (transmit_step3 now s).
Proof.
  intros H. unfold transmit_step3.
  destruct (_ && _); [|exact H].
  destruct (Radio.write _ _ _) as [[|] hw]; cbn [flow_inv];
    auto 10 with pairing.
Qed.

Lemma transmit_step4_inv s : PN s -> flow_inv PN PR (transmit_step4 s).
Proof.
  intros H. unfold transmit_step4.
  destruct (_ && _); [|exact H].
  apply receive_ack_inv; [exact H|]. intros a s' H'.
  unfold abort_pairing.
  destruct (String.eqb _ _); [cbn [flow_inv]; auto with pairing|].
  destruct (isUnpairReq _); cbn [flow_inv]; auto with pairing.
Qed.

Lemma pairing_timeout_inv now s : PN s -> flow_inv PN PR (pairing_timeout now s).
Proof.
  intros H. unfold pairing_timeout, abort_pairing.
  destruct (_ <? _); cbn [flow_inv]; auto with pairing.
Qed.

Lemma handlePairing_inv now iv s s' :
  PN s -> handlePairing now iv s = Some s' -> PN s' \/ PR s'.
Proof.
  intros H Hrun. unfold handlePairing in Hrun.
  match type of Hrun with
  | match ?f with _ => _ end = _ => assert (Hf : flow_inv PN PR f)
  end.
  { apply andThen_inv; [|intros; now apply pairing_timeout_inv].
    destruct (currentState s); try exact H.
    - apply andThen_inv; [now apply listen_step1_inv|]. intros s1 H1.
      apply andThen_inv; [now apply listen_step2_inv|]. intros s2 H2.
      apply andThen_inv; [now apply listen_step3_inv|]. intros s3 H3.
      apply andThen_inv; [now apply listen_step4_inv|]. intros s4 H4.
      now apply listen_flip_inv.
    - apply andThen_inv; [now apply transmit_step1_inv|]. intros s1 H1.
      apply andThen_inv; [now apply transmit_step2_inv|]. intros s2 H2.
      apply andThen_inv; [now apply transmit_step3_inv|]. intros s3 H3.
      now apply transmit_step4_inv. }
  destruct (andThen _ _); cbn [flow_inv] in Hf; try discriminate;
    injection Hrun as <-; auto.
Qed.

End Invariant.

(** *** What the directory operations leave alone *)

Lemma clearPairedAddr_frame i s :
  clearPairedAddr i s = set_pairedDevices (pairedDevices (clearPairedAddr i s)) s.
Proof.
  unfold clearPairedAddr. destruct (_ && _); [reflexivity | now destruct s].
Qed.

Lemma clearPairedAddr_privateKey i s :
  privateKey (clearPairedAddr i s) = privateKey s.
Proof. now rewrite clearPairedAddr_frame. Qed.

Lemma setPairedAddr_frame a channel pk s :
  exists devs r,
    snd (setPairedAddr a channel pk s) = set_radio r (set_pairedDevices devs s).
Proof.
  unfold setPairedAddr, setDeviceSharedKey, setDevicePublicKey.
  destruct (_ && _); [|exists (pairedDevices s), (radio s); now destruct s].
  destruct pk as [pk|].
  - destruct (generateX25519SharedKey pk (privateKey s));
      [|exists (pairedDevices s), (radio s); now destruct s].
    rewrite (clearPairedAddr_frame channel s).
    destruct (channel <? MAX_CHANNELS); cbn [snd]; eexists; eexists;
      reflexivity.
  - rewrite (clearPairedAddr_frame channel s). cbn [snd].
    eexists; eexists; reflexivity.
Qed.

(** *** The reading pipes *)

Lemma initRadio_pipes s : pipes_by_initRadio (initRadio s).
Proof.
  intros i Hi. unfold MAX_CHANNELS in Hi.
  unfold initRadio, own_address, Radio.readingPipe. state_simpl.
  change (Z.to_nat MAX_CHANNELS) with 5%nat.
  cbn [open_all_pipes Z.add Pos.add Pos.succ]. state_simpl.
  assert (Hcases : i = 0 \/ i = 1 \/ i = 2 \/ i = 3 \/ i = 4) by lia.
  destruct Hcases as [-> | [-> | [-> | [-> | ->]]]]; reflexivity.
Qed.

(** C6, as the code has it. Pipe addressing: after [initRadio], so at
    every return of [handlePairing] to IDLE (success, abort or timeout) and
    after a successful [setPairedDevicesJson], the transport listens on pipe
    [i + 1], for every slot [i], occupied or not, with the 5-byte address
    [str(i + 1)] followed by the local radio id: the address that the pairing
    handshake gives the peer for that slot. *)
Theorem initRadio_pipe_addressing (s : t) :
  pipes_by_initRadio (initRadio s)
  /\ (forall now iv s',
        currentState s <> IDLE -> handlePairing now iv s = Some s' ->
        currentState s' = IDLE -> pipes_by_initRadio s')
  /\ (forall addrJson s',
        setPairedDevicesJson addrJson s = (true, s') -> pipes_by_initRadio s').
Proof.
  split; [apply initRadio_pipes|]. split.
  - intros now iv s' Hbusy Hrun Hidle.
    assert (Hclear : forall i x, currentState x <> IDLE ->
                       currentState (clearPairedAddr i x) <> IDLE)
      by (intros i x Hx; now rewrite clearPairedAddr_frame).
    assert (Hpair : forall a channel pk x, currentState x <> IDLE ->
              currentState (snd (setPairedAddr a channel (Some pk) x)) <> IDLE).
    { intros a channel pk x Hx.
      destruct (setPairedAddr_frame a channel (Some pk) x) as (devs & r & ->).
      exact Hx. }
    assert (Hflip : forall x, currentState x <> IDLE ->
              currentState (set_currentState PAIRING_TRANSMIT x) <> IDLE)
      by (intros x _; discriminate).
    destruct (handlePairing_inv (fun x => currentState x <> IDLE)
                pipes_by_initRadio (fun r x Hx => Hx) (fun f x Hx => Hx)
                Hclear Hpair Hflip
                (fun x _ => initRadio_pipes (set_currentState IDLE x))
                now iv s s' Hbusy Hrun) as [Hn | Hr];
      [contradiction | exact Hr].
  - intros addrJson s'. unfold setPairedDevicesJson.
    destruct (negb _); [discriminate|]. intros H. injection H as <-.
    apply initRadio_pipes.
Qed.

(** *** The shared keys *)







End PairingSteps.

(** ** Pairing alone *)

Section PairingAlone.
Context {crypto : Crypto} {codec : JsonCodec}.
Import RadioManager.







Lemma run_loop_app iv l1 l2 s :
  run_loop iv (l1 ++ l2) s = (s' ← run_loop iv l1 s; run_loop iv l2 s').
Proof.
  revert s. induction l1 as [|now l1 IH]; intros s; [reflexivity|].
  cbn [app run_loop]. destruct (loop now iv s) as [s1|]; [apply IH|reflexivity].
Qed.





End PairingAlone.

(** ** Configuration export and import *)

Section Configuration.
Context {crypto : Crypto} {codec : JsonCodec}.
Import RadioManager.

(** In the exported document the personal keys are an object and the
    directory is a string. *)
Lemma exportCfg_doc_shape s :
  exportCfg_doc s
  = Json.JObject
      [("pairedDevices"%string, Json.JString (getPairedDevicesJson true s));
       ("personalKeys"%string,
        Json.JObject
          [("publicKey"%string,
            Json.JString (Base64.encode (personalPublicKey s)));
           ("privateKey"%string,
            Json.JString (Base64.encode (privateKey s)))])].
Proof. reflexivity. Qed.

(** C4. What [importCfg] does with a configuration that [exportCfg] wrote
    (the parser giving back the document that was printed): it returns
    true and sets the personal keys from their Base64 text, and it leaves
    the directory of the importing device as it is, because
    [doc["pairedDevices"]] is the String that [getPairedDevicesJson]
    returned and not a JsonObject, so that [setPairedDevicesJson] is not
    called. The exported directory is not restored. *)
Theorem importCfg_leaves_directory (exporter importer : t) :
  deserializeJson (exportCfg exporter) = Some (exportCfg_doc exporter) ->
  importCfg (exportCfg exporter) importer
  = (true,
     snd (setPersonalKeys
            (Base64.decode (Base64.encode (personalPublicKey exporter)))
            (Base64.decode (Base64.encode (privateKey exporter)))
            importer))
  /\ pairedDevices (snd (importCfg (exportCfg exporter) importer))
     = pairedDevices importer.
Proof.
  intros Hparse.
  assert (Himport :
    importCfg (exportCfg exporter) importer
    = (true,
       snd (setPersonalKeys
              (Base64.decode (Base64.encode (personalPublicKey exporter)))
              (Base64.decode (Base64.encode (privateKey exporter)))
              importer))).
  { unfold importCfg. rewrite Hparse, exportCfg_doc_shape. reflexivity. }
  split; [exact Himport|]. rewrite Himport. cbn [snd].
  unfold setPersonalKeys. now destruct (_ && _).
Qed.

End Configuration.

(** ** Base64.h: encoding and decoding *)

(** ** Base64 *)

Lemma list_ind3 {A} (P : list A -> Prop) :
  P [] -> (forall a, P [a]) -> (forall a b, P [a; b]) ->
  (forall a b c r, P r -> P (a :: b :: c :: r)) ->
  forall l, P l.
Proof.
  intros H0 H1 H2 H3.
  assert (H : forall l, P l /\ (forall a, P (a :: l)) /\ (forall a b, P (a :: b :: l))).
  { induction l as [|x l (IH0 & IH1 & IH2)]; [now auto|].
    split; [apply IH1|]. split; [intros a; apply IH2|].
    intros a b. now apply H3. }
  intros l. apply H.
Qed.

Lemma sextet_encoding_char (n : Z) :
  0 <= n < 64 -> Base64.sextet (Base64.encoding_char n) = n.
Proof.
  intros Hn.
  assert (H : forallb (fun k => Base64.sextet (Base64.encoding_char (Z.of_nat k))
                                =? Z.of_nat k) (seq 0 64) = true)
    by (vm_compute; reflexivity).
  rewrite forallb_forall in H.
  specialize (H (Z.to_nat n)). rewrite Z2Nat.id in H by lia.
  apply Z.eqb_eq, H, in_seq. lia.
Qed.

Lemma encoding_char_not_pad (n : Z) :
  0 <= n < 64 -> Ascii.eqb (Base64.encoding_char n) "="%char = false.
Proof.
  intros Hn.
  assert (H : forallb (fun k => negb (Ascii.eqb
                                  (Base64.encoding_char (Z.of_nat k)) "="%char))
                (seq 0 64) = true)
    by (vm_compute; reflexivity).
  rewrite forallb_forall in H.
  specialize (H (Z.to_nat n)). rewrite Z2Nat.id in H by lia.
  apply negb_true_iff, H, in_seq. lia.
Qed.

Lemma land_63_range (x : Z) : 0 <= Z.land x 63 < 64.
Proof.
  change 63 with (Z.ones 6). rewrite Z.land_ones by lia.
  apply Z.mod_pos_bound. lia.
Qed.

Lemma sextet_pad : Base64.sextet "="%char = 0.
Proof. reflexivity. Qed.

(** The triple that three octets make gives the octets back. *)
Lemma decode_quad_encode_triple (x y z : Z) :
  0 <= x < 256 -> 0 <= y < 256 -> 0 <= z < 256 ->
  match Base64.encode_triple x y z with
  | [a; b; c; d] => Base64.decode_quad a b c d
  | _ => []
  end = [byte_of_Z x; byte_of_Z y; byte_of_Z z].
Proof.
  intros Hx Hy Hz. unfold Base64.encode_triple. cbv zeta.
  unfold Base64.decode_quad.
  rewrite !sextet_encoding_char by apply land_63_range.
  set (t := Z.shiftl x 16 + Z.shiftl y 8 + z).
  assert (Ht : t = 65536 * x + 256 * y + z).
  { subst t. rewrite !Z.shiftl_mul_pow2 by lia. lia. }
  assert (Hsum : Z.shiftl (Z.land (Z.shiftr t (3 * 6)) 63) (3 * 6)
                 + Z.shiftl (Z.land (Z.shiftr t (2 * 6)) 63) (2 * 6)
                 + Z.shiftl (Z.land (Z.shiftr t (1 * 6)) 63) (1 * 6)
                 + Z.shiftl (Z.land (Z.shiftr t (0 * 6)) 63) (0 * 6) = t).
  { change 63 with (Z.ones 6). rewrite !Z.land_ones by lia.
    rewrite !Z.shiftl_mul_pow2, !Z.shiftr_div_pow2 by lia.
    change (2 ^ (3 * 6)) with 262144. change (2 ^ (2 * 6)) with 4096.
    change (2 ^ (1 * 6)) with 64. change (2 ^ (0 * 6)) with 1.
    change (2 ^ 6) with 64.
    Z.div_mod_to_equations. lia. }
  rewrite Hsum.
  change 255 with (Z.ones 8). rewrite !Z.land_ones by lia.
  rewrite !Z.shiftr_div_pow2 by lia.
  change (2 ^ (2 * 8)) with 65536. change (2 ^ (1 * 8)) with 256.
  change (2 ^ (0 * 8)) with 1. change (2 ^ 8) with 256.
  f_equal; [|f_equal; [|f_equal]]; f_equal; Z.div_mod_to_equations; lia.
Qed.

Lemma encode_triple_length x y z : length (Base64.encode_triple x y z) = 4%nat.
Proof. reflexivity. Qed.

(** The characters of an encoding: the loop's output, then the padding
    written over its end. *)
Lemma encode_chars (data : Bytes) :
  list_ascii_of_string (Base64.encode data)
  = let len := Z.of_nat (length data) in
    let n := Z.to_nat (4 * ((len + 2) / 3)) in
    match len mod 3 with
    | 1 => <[(n - 2)%nat := "="%char]>
             (<[(n - 1)%nat := "="%char]> (Base64.encode_loop data))
    | 2 => <[(n - 1)%nat := "="%char]> (Base64.encode_loop data)
    | _ => Base64.encode_loop data
    end.
Proof. unfold Base64.encode. apply list_ascii_of_string_of_list_ascii. Qed.

Lemma encode_loop_length (data : Bytes) :
  length (Base64.encode_loop data)
  = Z.to_nat (4 * ((Z.of_nat (length data) + 2) / 3)).
Proof.
  induction data as [| a | a b | a b c r IH] using list_ind3;
    try reflexivity.
  change (Base64.encode_loop (a :: b :: c :: r))
    with (Base64.encode_triple (Z_of_byte a) (Z_of_byte b) (Z_of_byte c)
          ++ Base64.encode_loop r).
  rewrite length_app, IH, encode_triple_length. cbn [length].
  rewrite !Nat2Z.inj_succ. Z.div_mod_to_equations. lia.
Qed.

Lemma encode_cons3 (a b c : byte) (r : Bytes) :
  list_ascii_of_string (Base64.encode (a :: b :: c :: r))
  = Base64.encode_triple (Z_of_byte a) (Z_of_byte b) (Z_of_byte c)
    ++ list_ascii_of_string (Base64.encode r).
Proof.
  rewrite !encode_chars. cbv zeta.
  change (Base64.encode_loop (a :: b :: c :: r))
    with (Base64.encode_triple (Z_of_byte a) (Z_of_byte b) (Z_of_byte c)
          ++ Base64.encode_loop r).
  set (t := Base64.encode_triple _ _ _).
  pose proof (encode_loop_length r) as Hlen.
  set (n := Z.to_nat (4 * ((Z.of_nat (length r) + 2) / 3))) in *.
  assert (Hn : Z.to_nat (4 * ((Z.of_nat (length (a :: b :: c :: r)) + 2) / 3))
               = (4 + n)%nat).
  { subst n. cbn [length]. rewrite !Nat2Z.inj_succ.
    Z.div_mod_to_equations. lia. }
  assert (Hmod : Z.of_nat (length (a :: b :: c :: r)) mod 3
                 = Z.of_nat (length r) mod 3).
  { cbn [length]. rewrite !Nat2Z.inj_succ. Z.div_mod_to_equations. lia. }
  rewrite Hn, Hmod.
  assert (Hpos : Z.of_nat (length r) mod 3 <> 0 -> (4 <= n)%nat).
  { subst n. intros Hm. destruct r as [|x r']; [now elim Hm|].
    cbn [length]. rewrite Nat2Z.inj_succ. Z.div_mod_to_equations. lia. }
  assert (Ht : length t = 4%nat) by reflexivity.
  destruct (Z.of_nat (length r) mod 3) as [|p|p] eqn:E;
    [reflexivity| |reflexivity].
  specialize (Hpos ltac:(lia)).
  destruct p as [p|p|]; [reflexivity| |].
  - destruct p; try reflexivity.
    rewrite insert_app_r_alt by lia. repeat f_equal; lia.
  - rewrite (insert_app_r_alt t) by lia.
    rewrite (insert_app_r_alt t) by lia.
    repeat f_equal; lia.
Qed.

Lemma decode_quad_ext a b c d a' b' c' d' :
  Base64.sextet a = Base64.sextet a' -> Base64.sextet b = Base64.sextet b' ->
  Base64.sextet c = Base64.sextet c' -> Base64.sextet d = Base64.sextet d' ->
  Base64.decode_quad a b c d = Base64.decode_quad a' b' c' d'.
Proof. unfold Base64.decode_quad. now intros -> -> -> ->. Qed.

Lemma byte_of_Z_of_byte (b : byte) : byte_of_Z (Z_of_byte b) = b.
Proof.
  unfold byte_of_Z, Z_of_byte, byte_of_N.
  pose proof (Byte.to_N_bounded b).
  rewrite Z.mod_small, N2Z.id, N.mod_small by lia.
  now rewrite Byte.of_to_N.
Qed.

(** The characters of an encoding decode to the data, then zeros up to a
    multiple of three. *)
Lemma decode_loop_encode (data : Bytes) :
  exists zeros,
    Base64.decode_loop (list_ascii_of_string (Base64.encode data))
    = data ++ zeros.
Proof.
  induction data as [| a | a b | a b c r [zeros IH]] using list_ind3.
  - now exists [].
  - exists [x00; x00]. destruct a; vm_compute; reflexivity.
  - exists [x00]. rewrite encode_chars. cbv zeta.
    change (Z.of_nat (length [a; b]) mod 3) with 2.
    change (Base64.encode_loop [a; b])
      with (Base64.encode_triple (Z_of_byte a) (Z_of_byte b) 0).
    pose proof (decode_quad_encode_triple (Z_of_byte a) (Z_of_byte b) 0
                  (Z_of_byte_range a) (Z_of_byte_range b) ltac:(lia)) as H.
    unfold Base64.encode_triple in *. cbv zeta in *.
    set (t := Z.shiftl (Z_of_byte a) 16 + Z.shiftl (Z_of_byte b) 8 + 0) in *.
    cbn [length Z.of_nat Z.to_nat list_insert insert] in *.
    change (Z.to_nat (4 * ((Z.of_nat 2 + 2) / 3)) - 1)%nat with 3%nat.
    cbn [insert list_insert Base64.decode_loop app].
    rewrite app_nil_r, !byte_of_Z_of_byte in *.
    change x00 with (byte_of_Z 0). rewrite <- H.
    apply decode_quad_ext; try reflexivity.
    rewrite sextet_pad, sextet_encoding_char by apply land_63_range.
    pose proof (Z_of_byte_range a). pose proof (Z_of_byte_range b).
    subst t. rewrite !Z.shiftl_mul_pow2 by lia.
    change 63 with (Z.ones 6). rewrite Z.land_ones by lia.
    rewrite Z.shiftr_div_pow2 by lia.
    change (2 ^ (0 * 6)) with 1. change (2 ^ 16) with 65536.
    change (2 ^ 8) with 256. change (2 ^ 6) with 64.
    Z.div_mod_to_equations. lia.
  - exists zeros. rewrite encode_cons3.
    pose proof (decode_quad_encode_triple (Z_of_byte a) (Z_of_byte b)
                  (Z_of_byte c) (Z_of_byte_range a) (Z_of_byte_range b)
                  (Z_of_byte_range c)) as H.
    unfold Base64.encode_triple in *. cbv zeta in *.
    cbn [app Base64.decode_loop]. rewrite H, IH, !byte_of_Z_of_byte.
    reflexivity.
Qed.

Lemma encode_chars_length (data : Bytes) :
  length (list_ascii_of_string (Base64.encode data))
  = Z.to_nat (Base64.encodedLength (Z.of_nat (length data))).
Proof.
  rewrite encode_chars. cbv zeta.
  destruct (Z.of_nat (length data) mod 3) as [|[p|p|]|];
    rewrite ?length_insert; try apply encode_loop_length.
  destruct p; rewrite ?length_insert; apply encode_loop_length.
Qed.

Lemma is_pad_at_app (t l : list ascii) (i : Z) :
  0 <= i ->
  Base64.is_pad_at (t ++ l) (Z.of_nat (length t) + i) = Base64.is_pad_at l i.
Proof.
  intros Hi. unfold Base64.is_pad_at.
  destruct (Z.ltb_spec (Z.of_nat (length t) + i) 0); [lia|].
  destruct (Z.ltb_spec i 0); [lia|].
  rewrite lookup_app_r by lia.
  replace (Z.to_nat (Z.of_nat (length t) + i) - length t)%nat
    with (Z.to_nat i) by lia.
  reflexivity.
Qed.

(** Where an encoding ends in the padding character. *)
Lemma encode_pads (data : Bytes) :
  let l := list_ascii_of_string (Base64.encode data) in
  let n := Z.of_nat (length l) in
  Base64.is_pad_at l (n - 1) = negb (Z.of_nat (length data) mod 3 =? 0)
  /\ Base64.is_pad_at l (n - 2) = (Z.of_nat (length data) mod 3 =? 1).
Proof.
  induction data as [| a | a b | a b c r IH] using list_ind3.
  - split; reflexivity.
  - split; destruct a; vm_compute; reflexivity.
  - cbv zeta. rewrite encode_chars. cbv zeta.
    change (Z.of_nat (length [a; b]) mod 3) with 2.
    change (Base64.encode_loop [a; b])
      with (Base64.encode_triple (Z_of_byte a) (Z_of_byte b) 0).
    unfold Base64.encode_triple. cbv zeta.
    change (Z.to_nat (4 * ((Z.of_nat (length [a; b]) + 2) / 3)) - 1)%nat
      with 3%nat.
    cbn [insert list_insert length]. split; [reflexivity|].
    unfold Base64.is_pad_at. cbn.
    apply encoding_char_not_pad, land_63_range.
  - cbv zeta in *. rewrite encode_cons3.
    set (t := Base64.encode_triple _ _ _).
    assert (Hmod : Z.of_nat (length (a :: b :: c :: r)) mod 3
                   = Z.of_nat (length r) mod 3).
    { cbn [length]. rewrite !Nat2Z.inj_succ. Z.div_mod_to_equations. lia. }
    rewrite Hmod, length_app.
    pose proof (encode_chars_length r) as Hn.
    destruct r as [|x r'].
    + split.
      * unfold Base64.is_pad_at. cbn.
        apply encoding_char_not_pad, land_63_range.
      * unfold Base64.is_pad_at. cbn.
        apply encoding_char_not_pad, land_63_range.
    + set (l := list_ascii_of_string (Base64.encode (x :: r'))) in *.
      assert (4 <= length l)%nat.
      { rewrite Hn. unfold Base64.encodedLength. cbn [length].
        rewrite Nat2Z.inj_succ. Z.div_mod_to_equations. lia. }
      destruct IH as [IH1 IH2]. rewrite <- IH1, <- IH2.
      replace (Z.of_nat (length t + length l) - 1)
        with (Z.of_nat (length t) + (Z.of_nat (length l) - 1)) by lia.
      replace (Z.of_nat (length t + length l) - 2)
        with (Z.of_nat (length t) + (Z.of_nat (length l) - 2)) by lia.
      rewrite !is_pad_at_app by lia. split; reflexivity.
Qed.


Lemma decode_encode (data : Bytes) :
  Base64.encodedLength (Z.of_nat (length data)) < 2 ^ 32 ->
  Base64.decode (Base64.encode data) = data
  /\ Base64.decode_raw (Base64.encode data) = (data, Z.of_nat (length data))
  /\ Base64.decodedLength (Base64.encode data) = Z.of_nat (length data).
Proof.
  intros Hsize.
  pose proof (encode_pads data) as [Hp1 Hp2]. cbv zeta in *.
  pose proof (encode_chars_length data) as Hn.
  destruct (decode_loop_encode data) as [zeros Hloop].
  set (l := list_ascii_of_string (Base64.encode data)) in *.
  set (len := Z.of_nat (length data)) in *.
  unfold Base64.encodedLength in *.
  assert (Hlen : Base64.decodedLength (Base64.encode data) = len).
  { unfold Base64.decodedLength. cbv zeta. fold l. rewrite Hp1, Hp2, Hn.
    unfold uint32. rewrite Z2Nat.id by (Z.div_mod_to_equations; lia).
    destruct (Z.eqb_spec (len mod 3) 0), (Z.eqb_spec (len mod 3) 1);
      cbn [negb]; rewrite Z.mod_small;
      subst len; Z.div_mod_to_equations; lia. }
  assert (Hraw : Base64.decode_raw (Base64.encode data) = (data, len)).
  { unfold Base64.decode_raw. cbv zeta. fold l. rewrite Hp1, Hp2, Hn, Hloop.
    rewrite Z2Nat.id by (Z.div_mod_to_equations; lia).
    destruct (Z.eqb_spec ((4 * ((len + 2) / 3)) mod 4) 0) as [_|Hbad];
      [|exfalso; apply Hbad; Z.div_mod_to_equations; lia].
    cbn [negb].
    assert (Hout : (if len mod 3 =? 1
                    then uint32 ((if negb (len mod 3 =? 0)
                                  then uint32 (4 * ((len + 2) / 3) / 4 * 3 - 1)
                                  else 4 * ((len + 2) / 3) / 4 * 3) - 1)
                    else if negb (len mod 3 =? 0)
                         then uint32 (4 * ((len + 2) / 3) / 4 * 3 - 1)
                         else 4 * ((len + 2) / 3) / 4 * 3) = len).
    { unfold uint32.
      destruct (Z.eqb_spec (len mod 3) 0), (Z.eqb_spec (len mod 3) 1);
        cbn [negb]; rewrite ?Z.mod_small;
        subst len; Z.div_mod_to_equations; lia. }
    rewrite Hout. f_equal.
    subst len. rewrite Nat2Z.id, take_app_length. reflexivity. }
  split; [|split; assumption].
  unfold Base64.decode. rewrite Hlen, Hraw. cbn [fst].
  subst len. rewrite Nat2Z.id, Nat.sub_diag. cbn [replicate].
  rewrite app_nil_r. apply firstn_all.
Qed.

(** X1. Base64 round trip. Every byte sequence whose encoding is shorter than
    2^32 characters comes back from [decode] of its [encode]: from the
    overload that returns the bytes and from the one that fills a buffer,
    whose result is the length; [decodedLength] of the encoding is the length
    too. *)
Theorem base64_round_trip (data : Bytes) :
  Base64.encodedLength (Z.of_nat (length data)) < 2 ^ 32 ->
  Base64.decode (Base64.encode data) = data
  /\ Base64.decode_raw (Base64.encode data) = (data, Z.of_nat (length data))
  /\ Base64.decodedLength (Base64.encode data) = Z.of_nat (length data).
Proof. exact (decode_encode data). Qed.


(** ** SimpleCha2.cpp: streams of messages *)

Section V.
Context {crypto : Crypto}.

End V.

Section SC.
Context {crypto : Crypto}.

(** X3. A stream of messages. Messages encrypted one after the other by one
    channel and deciphered in the same order by a channel with the same key,
    whose highest counter seen is not above the sender's counter, come out as
    they went in; the sender's counter has advanced by their number, and the
    highest counter the receiver has seen is the sender's counter. Each
    message draws 8 bytes of entropy and the counter stays below 2^32. *)
Theorem stream_in_order (l : list (Bytes * Bytes))
  (sender receiver : SimpleCha2.t) :
  SimpleCha2.key sender = SimpleCha2.key receiver ->
  Forall (fun p => length (fst p) = 8%nat) l ->
  0 <= SimpleCha2.decryptCounter receiver
    <= SimpleCha2.encryptCounter sender ->
  SimpleCha2.encryptCounter sender + Z.of_nat (length l) < 2 ^ 32 ->
  let sent := encrypt_all l sender in
  let received := decrypt_all (fst sent) receiver in
  fst received = map snd l
  /\ SimpleCha2.encryptCounter (snd sent)
     = SimpleCha2.encryptCounter sender + Z.of_nat (length l)
  /\ (l <> [] -> SimpleCha2.decryptCounter (snd received)
                 = SimpleCha2.encryptCounter (snd sent)).
Proof.
  revert sender receiver.
  induction l as [|[iv x] rest IH]; intros sender receiver Hkey Hiv Hc Hlen.
  - cbn. repeat split; [lia | congruence].
  - inversion Hiv as [|? ? Hiv1 Hiv2]; subst. cbn [fst] in Hiv1.
    cbn [length] in Hlen. rewrite Nat2Z.inj_succ in Hlen.
    cbv zeta. cbn [encrypt_all]. unfold SimpleCha2.encrypt.
    set (n := uint32 (SimpleCha2.encryptCounter sender + 1)).
    assert (Hn : n = SimpleCha2.encryptCounter sender + 1).
    { subst n. unfold uint32. apply Z.mod_small. lia. }
    set (sender' := SimpleCha2.mk (SimpleCha2.key sender) n
                      (SimpleCha2.decryptCounter sender)).
    set (receiver' := SimpleCha2.mk (SimpleCha2.key sender)
                        (SimpleCha2.encryptCounter receiver) n).
    specialize (IH sender' receiver' eq_refl Hiv2). cbv zeta in IH.
    destruct (encrypt_all rest sender') as [ys s2] eqn:Erest.
    cbn [fst snd decrypt_all] in *.
    rewrite (decrypt_fresh iv x (SimpleCha2.key sender) n receiver)
      by (try assumption; try lia; now symmetry).
    fold receiver'.
    destruct (decrypt_all ys receiver') as [xs r2] eqn:Edec.
    cbn [fst snd map length] in *.
    subst sender' receiver'. cbn [SimpleCha2.encryptCounter
      SimpleCha2.decryptCounter] in IH.
    destruct IH as (IH1 & IH2 & IH3); [lia | lia |].
    rewrite IH1, IH2, Nat2Z.inj_succ. repeat split; [lia|]. intros _.
    destruct rest as [|p rest'].
    + cbn in Erest. injection Erest as E1 E2. subst ys s2.
      cbn in Edec. injection Edec as E3 E4. subst xs r2. cbn. lia.
    + rewrite IH3 by discriminate. lia.
Qed.

(** X4. The counter wraps. A channel whose encrypt counter is 2^32 - 1 gives
    its next message the counter 0, and no receiver takes that message:
    [decrypt] returns the empty vector and leaves the receiver as it was. *)
Theorem encrypt_counter_wrap (iv x : Bytes)
  (sender receiver : SimpleCha2.t) :
  length iv = 8%nat ->
  SimpleCha2.encryptCounter sender = 2 ^ 32 - 1 ->
  0 <= SimpleCha2.decryptCounter receiver ->
  SimpleCha2.encryptCounter (snd (SimpleCha2.encrypt iv x sender)) = 0
  /\ SimpleCha2.decrypt (fst (SimpleCha2.encrypt iv x sender)) receiver
     = ([], receiver).
Proof.
  intros Hiv Hmax Hr. cbn [SimpleCha2.encrypt fst snd SimpleCha2.encryptCounter].
  rewrite Hmax. change (uint32 (2 ^ 32 - 1 + 1)) with 0.
  split; [reflexivity|]. apply decrypt_replayed; [assumption | lia | lia].
Qed.

(** X5. Messages out of order. Of two messages encrypted one after the other,
    a receiver that gets the second first deciphers it and then rejects the
    first: the empty vector, the receiver unchanged. *)
Theorem decrypt_out_of_order (iv1 iv2 x1 x2 : Bytes)
  (sender receiver : SimpleCha2.t) :
  SimpleCha2.key sender = SimpleCha2.key receiver ->
  length iv1 = 8%nat -> length iv2 = 8%nat ->
  0 <= SimpleCha2.decryptCounter receiver
    <= SimpleCha2.encryptCounter sender ->
  SimpleCha2.encryptCounter sender + 2 < 2 ^ 32 ->
  let first := SimpleCha2.encrypt iv1 x1 sender in
  let second := SimpleCha2.encrypt iv2 x2 (snd first) in
  let r := SimpleCha2.decrypt (fst second) receiver in
  fst r = x2 /\ SimpleCha2.decrypt (fst first) (snd r) = ([], snd r).
Proof.
  intros Hkey Hiv1 Hiv2 Hc Hlen. cbv zeta.
  cbn [SimpleCha2.encrypt fst snd SimpleCha2.encryptCounter SimpleCha2.key].
  assert (H1 : uint32 (SimpleCha2.encryptCounter sender + 1)
               = SimpleCha2.encryptCounter sender + 1)
    by (apply Z.mod_small; lia).
  rewrite H1.
  assert (H2 : uint32 (SimpleCha2.encryptCounter sender + 1 + 1)
               = SimpleCha2.encryptCounter sender + 2)
    by (unfold uint32; rewrite Z.mod_small; lia).
  rewrite H2.
  rewrite (decrypt_fresh iv2 x2 (SimpleCha2.key sender) _ receiver)
    by (try assumption; try lia; now symmetry).
  cbn [fst snd]. split; [reflexivity|].
  apply decrypt_replayed; [assumption | lia |].
  cbn [SimpleCha2.decryptCounter]. lia.
Qed.

End SC.

(** ** RadioManager.cpp: the directory operations *)

Section Dir.
Context {crypto : Crypto} {codec : JsonCodec}.
Import RadioManager.

(** ** The channel searches *)

Lemma find_channel_Some p i n j :
  find_channel p i n = Some j ->
  i <= j < i + Z.of_nat n /\ p j = true
  /\ forall k, i <= k < j -> p k = false.
Proof.
  revert i. induction n as [|n IH]; intros i H; [discriminate|].
  cbn [find_channel] in H. destruct (p i) eqn:Ep.
  - injection H as <-. repeat split; [lia | lia | assumption | intros; lia].
  - destruct (IH _ H) as (Hr & Hp & Hlow).
    repeat split; [lia | lia | assumption |].
    intros k Hk. destruct (Z.eq_dec k i) as [->|]; [assumption|].
    apply Hlow. lia.
Qed.

Lemma find_channel_None p i n :
  find_channel p i n = None ->
  forall k, i <= k < i + Z.of_nat n -> p k = false.
Proof.
  revert i. induction n as [|n IH]; intros i H k Hk; [lia|].
  cbn [find_channel] in H. destruct (p i) eqn:Ep; [discriminate|].
  destruct (Z.eq_dec k i) as [->|]; [assumption|].
  apply (IH _ H). lia.
Qed.

Lemma String_isEmpty_spec a : String_isEmpty a = true <-> a = EmptyString.
Proof. destruct a; cbn; split; congruence. Qed.

Lemma String_isEmpty_false a : String_isEmpty a = false <-> a <> EmptyString.
Proof. destruct a; cbn; split; congruence. Qed.

(** X6. [getAvailableChannel] returns the lowest channel without an address,
    and 255 exactly when every channel has one. *)
Theorem getAvailableChannel_lowest_free (s : t) :
  let c := getAvailableChannel s in
  (0 <= c < MAX_CHANNELS
   /\ getPairedAddr c s = EmptyString
   /\ forall i, 0 <= i < c -> getPairedAddr i s <> EmptyString)
  \/ (c = 255
      /\ forall i, 0 <= i < MAX_CHANNELS -> getPairedAddr i s <> EmptyString).
Proof.
  cbv zeta. unfold getAvailableChannel.
  destruct (find_channel _ 0 (Z.to_nat MAX_CHANNELS)) as [j|] eqn:E.
  - left. apply find_channel_Some in E as (Hr & Hp & Hlow).
    split; [unfold MAX_CHANNELS in *; lia|].
    split; [now apply String_isEmpty_spec|].
    intros i Hi. apply String_isEmpty_false, Hlow. lia.
  - right. split; [reflexivity|]. intros i Hi.
    apply String_isEmpty_false.
    apply (find_channel_None _ _ _ E). unfold MAX_CHANNELS in *. lia.
Qed.

(** X7. Unpairing by UID. [getPairedChannel] is the lowest channel whose UID,
    characters 1 to 4 of its address, is the one given, and 255 when no
    channel has it. [clearPairedUID] returns whether there is such a channel
    and leaves the manager as [clearPairedAddr] on that channel does. *)
Theorem clearPairedUID_clears_first_match (uid : string) (s : t) :
  let c := getPairedChannel uid s in
  clearPairedUID uid s = (negb (c =? 255), clearPairedAddr c s)
  /\ ((0 <= c < MAX_CHANNELS
       /\ getPairedUID c s = uid
       /\ forall i, 0 <= i < c -> getPairedUID i s <> uid)
      \/ (c = 255
          /\ forall i, 0 <= i < MAX_CHANNELS -> getPairedUID i s <> uid)).
Proof.
  cbv zeta. unfold getPairedChannel, clearPairedUID.
  destruct (find_channel _ 0 (Z.to_nat MAX_CHANNELS)) as [j|] eqn:E.
  - apply find_channel_Some in E as (Hr & Hp & Hlow).
    assert (Hj : 0 <= j < MAX_CHANNELS) by (unfold MAX_CHANNELS in *; lia).
    split.
    + destruct (Z.eqb_spec j 255); [unfold MAX_CHANNELS in *; lia|reflexivity].
    + left. split; [assumption|]. split; [now apply String.eqb_eq|].
      intros i Hi. apply String.eqb_neq, Hlow. lia.
  - split; [reflexivity|]. right. split; [reflexivity|].
    intros i Hi. apply String.eqb_neq.
    apply (find_channel_None _ _ _ E). unfold MAX_CHANNELS in *. lia.
Qed.

End Dir.

Section Dir.
Context {crypto : Crypto} {codec : JsonCodec}.
Import RadioManager.

Lemma in_range_true channel :
  0 <= channel < MAX_CHANNELS ->
  (0 <=? channel) && (channel <? MAX_CHANNELS) = true.
Proof.
  intros H. apply andb_true_iff. split; [apply Z.leb_le | apply Z.ltb_lt]; lia.
Qed.

Lemma setPairedAddr_effect (address : string) (channel : Z)
  (pk shared : Bytes) (s : t) :
  well_formed s -> 0 <= channel < MAX_CHANNELS ->
  x25519 pk (privateKey s) = Some shared ->
  let r := setPairedAddr address channel (Some pk) s in
  fst r = true
  /\ (exists d, device channel (snd r) = Some d
        /\ addr d = address /\ mailbox d = []
        /\ publicKey d = pk /\ sharedKey d = shared
        /\ chaObject d = SimpleCha2.mk shared 0 0)
  /\ (forall i, i <> channel -> device i (snd r) = device i s)
  /\ Radio.readingPipe (channel + 1) (radio (snd r))
     = Some (own_address channel s)
  /\ snd r = set_radio (radio (snd r))
               (set_pairedDevices (pairedDevices (snd r)) s).
Proof.
  intros Hwf Hch Hx r. subst r. unfold setPairedAddr.
  rewrite (in_range_true channel Hch).
  unfold generateX25519SharedKey. rewrite Hx.
  destruct (device_in_range channel s Hwf Hch) as [d Hd].
  unfold setDeviceSharedKey, setDevicePublicKey, clearPairedAddr.
  rewrite (in_range_true channel Hch).
  destruct (Z.ltb_spec channel MAX_CHANNELS) as [_|]; [|lia].
  cbn [fst snd]. split; [reflexivity|]. split; [|split; [|split]].
  - unfold device. rewrite (in_range_true channel Hch).
    unfold on_radio. state_simpl.
    rewrite !on_device_lookup, Hd. cbn. eexists. split; [reflexivity|].
    cbn. repeat split; reflexivity.
  - intros i Hi. unfold device.
    destruct ((0 <=? i) && (i <? MAX_CHANNELS)) eqn:Ei; [|reflexivity].
    apply andb_true_iff in Ei as [Hi0 _]. apply Z.leb_le in Hi0.
    unfold on_radio. state_simpl.
    rewrite !on_device_lookup_ne by lia. reflexivity.
  - unfold on_radio, own_address. state_simpl.
    unfold Radio.readingPipe. cbn. now rewrite Z.eqb_refl.
  - unfold on_radio, on_device. state_simpl. reflexivity.
Qed.

(** X8. Pairing a channel by hand. On a directory of five records,
    [setPairedAddr] with a channel below [MAX_CHANNELS] and a public key from
    which the secret is derived returns true. The slot then holds the address,
    the public key, the secret, an empty mailbox and a secure channel keyed
    with the secret, its counters at 0; the other slots are as before; reading
    pipe [channel + 1] listens on String(channel) + radioID; nothing else of
    the manager changes. *)
Theorem setPairedAddr_postcondition (address : string) (channel : Z)
  (pk shared : Bytes) (s : t) :
  well_formed s -> 0 <= channel < MAX_CHANNELS ->
  x25519 pk (privateKey s) = Some shared ->
  let r := setPairedAddr address channel (Some pk) s in
  fst r = true
  /\ (exists d, device channel (snd r) = Some d
        /\ addr d = address /\ mailbox d = []
        /\ publicKey d = pk /\ sharedKey d = shared
        /\ chaObject d = SimpleCha2.mk shared 0 0)
  /\ (forall i, i <> channel -> device i (snd r) = device i s)
  /\ Radio.readingPipe (channel + 1) (radio (snd r))
     = Some (own_address channel s)
  /\ snd r = set_radio (radio (snd r))
               (set_pairedDevices (pairedDevices (snd r)) s).
Proof. exact (setPairedAddr_effect address channel pk shared s). Qed.

(** What the overload with [Bytes& publicKey] refuses. *)
Lemma setPairedAddr_rejected (address : string) (channel : Z)
  (pk : Bytes) (s : t) :
  channel < 0 \/ MAX_CHANNELS <= channel
  \/ Z.of_nat (length pk) <> KEY_SIZE
  \/ x25519 pk (privateKey s) = None ->
  setPairedAddrBytes address channel pk s = (false, s).
Proof.
  intros H. unfold setPairedAddrBytes, setPairedAddr.
  destruct (Z.eqb_spec (Z.of_nat (length pk)) KEY_SIZE) as [Hk|];
    [|reflexivity].
  cbn [negb].
  destruct ((0 <=? channel) && (channel <? MAX_CHANNELS)) eqn:Ec;
    [|reflexivity].
  apply andb_true_iff in Ec as [H0 H1].
  apply Z.leb_le in H0. apply Z.ltb_lt in H1.
  destruct H as [H | [H | [H | H]]]; try lia.
  unfold generateX25519SharedKey. now rewrite H.
Qed.



End Dir.

(** ** RadioManager.cpp: the directory and the keys as JSON *)

(** ** Documents *)

Lemma assoc_get_set k x m : Json.assoc_get k (Json.assoc_set k x m) = x.
Proof.
  induction m as [|[k' v] m IH]; cbn.
  - now rewrite String.eqb_refl.
  - destruct (String.eqb_spec k k') as [->|Hne]; cbn.
    + now rewrite String.eqb_refl.
    + destruct (String.eqb_spec k k'); [contradiction | exact IH].
Qed.

Lemma assoc_get_set_ne k k' x m :
  k' <> k -> Json.assoc_get k' (Json.assoc_set k x m) = Json.assoc_get k' m.
Proof.
  intros Hne. induction m as [|[k0 v] m IH]; cbn.
  - destruct (String.eqb_spec k' k); [contradiction | reflexivity].
  - destruct (String.eqb_spec k k0) as [->|Hk]; cbn.
    + destruct (String.eqb_spec k' k0); [contradiction | reflexivity].
    + destruct (String.eqb_spec k' k0); [reflexivity | exact IH].
Qed.

Lemma member_set_member k x v :
  is_container v -> Json.member k (Json.set_member k x v) = x.
Proof.
  intros [-> | [m ->]]; cbn.
  - now rewrite String.eqb_refl.
  - apply assoc_get_set.
Qed.

Lemma member_set_member_ne k k' x v :
  is_container v -> k' <> k ->
  Json.member k' (Json.set_member k x v) = Json.member k' v.
Proof.
  intros [-> | [m ->]] Hne; cbn.
  - destruct (String.eqb_spec k' k); [contradiction | reflexivity].
  - now apply assoc_get_set_ne.
Qed.

Lemma set_member_container k x v :
  is_container v -> is_container (Json.set_member k x v).
Proof. intros [-> | [m ->]]; right; cbn; eauto. Qed.

Lemma element_set_element i j x v :
  is_sequence v ->
  Json.element j (Json.set_element i x v)
  = if (j =? i)%nat then x else Json.element j v.
Proof.
  intros [-> | [l ->]]; cbn [Json.element Json.set_element];
    rewrite ?nth_lookup.
  - destruct (Nat.eqb_spec j i) as [->|Hne].
    + rewrite lookup_app_r by (rewrite length_replicate; lia).
      rewrite length_replicate, Nat.sub_diag. reflexivity.
    + destruct (Nat.lt_ge_cases j i).
      * rewrite lookup_app_l by (rewrite length_replicate; lia).
        rewrite lookup_replicate_2 by lia. now destruct j.
      * rewrite lookup_ge_None_2
          by (rewrite length_app, length_replicate; cbn; lia).
        now destruct j.
  - destruct (Nat.ltb_spec i (length l)) as [Hlt|Hge];
      cbn [Json.element Json.set_element]; rewrite ?nth_lookup.
    + destruct (Nat.eqb_spec j i) as [->|Hne].
      * now rewrite list_lookup_insert_eq by lia.
      * now rewrite list_lookup_insert_ne by lia.
    + destruct (Nat.eqb_spec j i) as [->|Hne].
      * rewrite lookup_app_r by lia.
        rewrite lookup_app_r by (rewrite length_replicate; lia).
        rewrite length_replicate.
        replace (i - length l - (i - length l))%nat with 0%nat by lia.
        reflexivity.
      * destruct (Nat.lt_ge_cases j (length l)).
        -- now rewrite lookup_app_l by lia.
        -- rewrite lookup_app_r by lia. rewrite (lookup_ge_None_2 l) by lia.
           destruct (Nat.lt_ge_cases j i).
           ++ rewrite lookup_app_l by (rewrite length_replicate; lia).
              now rewrite lookup_replicate_2 by lia.
           ++ rewrite lookup_ge_None_2; [reflexivity|].
              rewrite length_app, length_replicate. cbn. lia.
Qed.

Lemma set_element_sequence i x v :
  is_sequence v -> is_sequence (Json.set_element i x v).
Proof.
  intros [-> | [l ->]]; right; cbn [Json.set_element]; [eauto|].
  destruct (i <? length l)%nat; eauto.
Qed.

Lemma set_element_array i x v :
  is_sequence v -> Json.is_JsonArray (Json.set_element i x v) = true.
Proof.
  intros [-> | [l ->]]; cbn [Json.set_element]; [reflexivity|].
  now destruct (i <? length l)%nat.
Qed.

Section Doc.
Context {crypto : Crypto} {codec : JsonCodec}.
Import RadioManager.

Lemma member_set_at k i x doc :
  is_container doc ->
  Json.member k (set_at k i x doc) = Json.set_element i x (Json.member k doc).
Proof. intros H. unfold set_at. now apply member_set_member. Qed.

Lemma member_set_at_ne k k' i x doc :
  is_container doc -> k' <> k ->
  Json.member k' (set_at k i x doc) = Json.member k' doc.
Proof. intros H Hne. unfold set_at. now apply member_set_member_ne. Qed.

Lemma set_at_addr_ok i x doc : doc_ok doc -> doc_ok (set_at "addr" i x doc).
Proof.
  intros (Hc & Ha & Hp). split; [now apply set_member_container|]. split.
  - rewrite member_set_at by assumption. now apply set_element_sequence.
  - rewrite member_set_at_ne by (assumption || discriminate). assumption.
Qed.

Lemma set_at_pubKey_ok i x doc : doc_ok doc -> doc_ok (set_at "pubKey" i x doc).
Proof.
  intros (Hc & Ha & Hp). split; [now apply set_member_container|]. split.
  - rewrite member_set_at_ne by (assumption || discriminate). assumption.
  - rewrite member_set_at by assumption. now apply set_element_sequence.
Qed.

Lemma devices_doc_lookup (keys : bool) (devs : list PairedDevice) :
  forall (i : nat) (doc : Json.t),
    doc_ok doc ->
    let D := devices_doc keys i devs doc in
    doc_ok D
    /\ (forall j d, devs !! j = Some d ->
          Json.element (i + j) (Json.member "addr" D)
          = Json.JString (exported_addr d))
    /\ (forall j d, devs !! j = Some d -> addr d <> EmptyString ->
          keys = true ->
          Json.element (i + j) (Json.member "pubKey" D)
          = Json.JString (Base64.encode (publicKey d)))
    /\ (forall j, (j < i)%nat ->
          Json.element j (Json.member "addr" D)
          = Json.element j (Json.member "addr" doc)
          /\ Json.element j (Json.member "pubKey" D)
             = Json.element j (Json.member "pubKey" doc))
    /\ (keys = false -> Json.member "pubKey" D = Json.member "pubKey" doc)
    /\ (Json.is_JsonArray (Json.member "addr" doc) = true \/ devs <> [] ->
        Json.is_JsonArray (Json.member "addr" D) = true).
Proof.
  induction devs as [|d devs IH]; intros i doc Hok D; subst D.
  - cbn [devices_doc]. split; [assumption|].
    split; [intros j d' H; discriminate|].
    split; [intros j d' H; discriminate|].
    split; [intros; split; reflexivity|].
    split; [reflexivity|]. intros [H|H]; [assumption | now elim H].
  - cbn [devices_doc].
    set (doc1 := if String_isEmpty (addr d) then _ else _).
    assert (Hok1 : doc_ok doc1).
    { subst doc1. destruct (String_isEmpty (addr d));
        [now apply set_at_addr_ok|].
      destruct keys; [apply set_at_pubKey_ok|]; now apply set_at_addr_ok. }
    destruct Hok as (Hc & Ha & Hp).
    assert (Hc' : is_container (set_at "addr" i
                    (Json.JString (addr d)) doc))
      by (now apply set_member_container).
    assert (Haddr1 : forall j,
              Json.element j (Json.member "addr" doc1)
              = if (j =? i)%nat then Json.JString (exported_addr d)
                else Json.element j (Json.member "addr" doc)).
    { intros j. subst doc1. unfold exported_addr.
      destruct (String_isEmpty (addr d)).
      - rewrite member_set_at by assumption.
        now apply element_set_element.
      - destruct keys.
        + rewrite member_set_at_ne by (assumption || discriminate).
          rewrite member_set_at by assumption.
          now apply element_set_element.
        + rewrite member_set_at by assumption.
          now apply element_set_element. }
    assert (Hpk1 : forall j,
              Json.element j (Json.member "pubKey" doc1)
              = if (j =? i)%nat && negb (String_isEmpty (addr d)) && keys
                then Json.JString (Base64.encode (publicKey d))
                else Json.element j (Json.member "pubKey" doc)).
    { intros j. subst doc1.
      destruct (String_isEmpty (addr d)).
      - rewrite member_set_at_ne by (assumption || discriminate).
        now rewrite andb_false_r.
      - destruct keys.
        + rewrite member_set_at by assumption.
          rewrite element_set_element
            by (rewrite member_set_at_ne by (assumption || discriminate);
                assumption).
          rewrite member_set_at_ne by (assumption || discriminate).
          now rewrite !andb_true_r.
        + rewrite member_set_at_ne by (assumption || discriminate).
          now rewrite andb_false_r. }
    assert (Hpkm : keys = false ->
              Json.member "pubKey" doc1 = Json.member "pubKey" doc).
    { intros ->. subst doc1. destruct (String_isEmpty (addr d));
        now rewrite member_set_at_ne by (assumption || discriminate). }
    assert (Harr : Json.is_JsonArray (Json.member "addr" doc1) = true).
    { subst doc1. destruct (String_isEmpty (addr d)).
      - rewrite member_set_at by assumption. now apply set_element_array.
      - destruct keys.
        + rewrite member_set_at_ne by (assumption || discriminate).
          rewrite member_set_at by assumption. now apply set_element_array.
        + rewrite member_set_at by assumption. now apply set_element_array. }
    destruct (IH (S i) doc1 Hok1) as (Hok2 & Ha2 & Hp2 & Hlow2 & Hk2 & Harr2).
    split; [assumption|]. split; [|split; [|split; [|split]]].
    + intros [|j] d' Hj.
      * injection Hj as <-. rewrite Nat.add_0_r.
        rewrite (proj1 (Hlow2 i ltac:(lia))), Haddr1.
        now rewrite Nat.eqb_refl.
      * replace (i + S j)%nat with (S i + j)%nat by lia. now apply Ha2.
    + intros [|j] d' Hj Hne Hkeys.
      * injection Hj as <-. rewrite Nat.add_0_r.
        rewrite (proj2 (Hlow2 i ltac:(lia))), Hpk1.
        rewrite Nat.eqb_refl, Hkeys.
        apply String_isEmpty_false in Hne. now rewrite Hne.
      * replace (i + S j)%nat with (S i + j)%nat by lia. now apply Hp2.
    + intros j Hj. destruct (Hlow2 j ltac:(lia)) as [-> ->].
      rewrite Haddr1, Hpk1.
      destruct (Nat.eqb_spec j i); [lia|]. split; reflexivity.
    + intros Hk. rewrite (Hk2 Hk). now apply Hpkm.
    + intros _. apply Harr2. now left.
Qed.

End Doc.

Section Install.
Context {crypto : Crypto} {codec : JsonCodec}.
Import RadioManager.

Lemma setPairedAddr_well_formed a channel pk s :
  well_formed s -> well_formed (snd (setPairedAddr a channel pk s)).
Proof.
  intros Hwf. destruct (setPairedAddr_frame a channel pk s) as (devs & r & E).
  unfold well_formed in *. unfold setPairedAddr in *.
  destruct ((0 <=? channel) && (channel <? MAX_CHANNELS)); [|exact Hwf].
  destruct (match pk with Some _ => _ | None => _ end) as [keys|];
    [|exact Hwf].
  cbn [snd]. unfold on_radio. state_simpl.
  destruct keys as [[pk' sh]|]; unfold setDeviceSharedKey, setDevicePublicKey;
    repeat match goal with
           | |- context [if ?c <? MAX_CHANNELS then _ else _] =>
               destruct (c <? MAX_CHANNELS)
           end;
    rewrite ?on_device_length, ?clearPairedAddr_length; exact Hwf.
Qed.

Lemma setPairedAddr_privateKey a channel pk s :
  privateKey (snd (setPairedAddr a channel pk s)) = privateKey s.
Proof.
  destruct (setPairedAddr_frame a channel pk s) as (devs & r & ->).
  reflexivity.
Qed.

Lemma clearPairedAddr_slot channel s :
  well_formed s -> 0 <= channel < MAX_CHANNELS ->
  device channel (clearPairedAddr channel s) = Some empty_device.
Proof.
  intros Hwf Hch. destruct (device_in_range channel s Hwf Hch) as [d Hd].
  unfold device, clearPairedAddr. rewrite (in_range_true channel Hch).
  now rewrite on_device_lookup, Hd.
Qed.

Lemma clearPairedAddr_other channel i s :
  i <> channel -> device i (clearPairedAddr channel s) = device i s.
Proof.
  intros Hne. unfold device, clearPairedAddr.
  destruct ((0 <=? channel) && (channel <? MAX_CHANNELS)) eqn:Ec;
    [|reflexivity].
  destruct ((0 <=? i) && (i <? MAX_CHANNELS)) eqn:Ei; [|reflexivity].
  apply andb_true_iff in Ei as [Hi0 _]. apply Z.leb_le in Hi0.
  apply andb_true_iff in Ec as [Hc0 _]. apply Z.leb_le in Hc0.
  apply on_device_lookup_ne. lia.
Qed.

Lemma setPairedAddr_slot a channel pk shared s :
  well_formed s -> 0 <= channel < MAX_CHANNELS ->
  x25519 pk (privateKey s) = Some shared ->
  device channel (snd (setPairedAddr a channel (Some pk) s))
  = Some (mkPairedDevice a [] shared pk (SimpleCha2.mk shared 0 0)).
Proof.
  intros Hwf Hch Hx.
  destruct (setPairedAddr_effect a channel pk shared s Hwf Hch Hx)
    as (_ & (d & Hd & Ha & Hm & Hp & Hs & Hc) & _).
  rewrite Hd. destruct d. cbn in *. now subst.
Qed.

Lemma setPairedAddr_other a channel pk i s :
  i <> channel ->
  device i (snd (setPairedAddr a channel pk s)) = device i s.
Proof.
  intros Hne. unfold device, setPairedAddr.
  destruct ((0 <=? channel) && (channel <? MAX_CHANNELS)) eqn:Ec;
    [|reflexivity].
  destruct (match pk with Some _ => _ | None => _ end) as [keys|];
    [|reflexivity].
  destruct ((0 <=? i) && (i <? MAX_CHANNELS)) eqn:Ei; [|reflexivity].
  apply andb_true_iff in Ei as [Hi0 _]. apply Z.leb_le in Hi0.
  apply andb_true_iff in Ec as [Hc0 Hc1]. apply Z.leb_le in Hc0.
  cbn [snd]. unfold on_radio. state_simpl.
  destruct keys as [[pk' sh]|]; unfold setDeviceSharedKey, setDevicePublicKey;
    rewrite ?Hc1; rewrite ?on_device_lookup_ne by lia;
    unfold clearPairedAddr;
    (destruct ((0 <=? channel) && (channel <? MAX_CHANNELS));
     [apply on_device_lookup_ne; lia | reflexivity]).
Qed.

(** One turn of the loop of [setPairedDevicesJson]. *)
Lemma install_step_slot doc i s :
  well_formed s -> 0 <= i < MAX_CHANNELS ->
  device i (install_devices doc i 1 s)
  = let a := Json.element (Z.to_nat i) (Json.member "addr" doc) in
    if Json.isNull a then device i s
    else if Json.eq_str a "0" then Some empty_device
    else
      let pk := Base64.decode
                  (as_String (Json.element (Z.to_nat i)
                                (Json.member "pubKey" doc))) in
      if Z.of_nat (length pk) =? KEY_SIZE then
        match x25519 pk (privateKey s) with
        | Some shared =>
            Some (mkPairedDevice (as_String a) [] shared pk
                    (SimpleCha2.mk shared 0 0))
        | None => device i s
        end
      else device i s.
Proof.
  intros Hwf Hi. cbn [install_devices]. cbv zeta.
  destruct (Json.isNull _); [reflexivity|].
  destruct (Json.eq_str _ "0"); [now apply clearPairedAddr_slot|].
  unfold setPairedAddrBytes.
  destruct (Z.of_nat (length _) =? KEY_SIZE); cbn [negb]; [|reflexivity].
  destruct (x25519 _ (privateKey s)) as [shared|] eqn:Ex.
  - now apply setPairedAddr_slot.
  - unfold setPairedAddr. rewrite (in_range_true i Hi).
    unfold generateX25519SharedKey. now rewrite Ex.
Qed.

Lemma install_step_frame doc i s :
  well_formed s ->
  let s' := install_devices doc i 1 s in
  well_formed s' /\ privateKey s' = privateKey s
  /\ forall j, j <> i -> device j s' = device j s.
Proof.
  intros Hwf. cbn [install_devices]. cbv zeta.
  destruct (Json.isNull _); [now repeat split|].
  destruct (Json.eq_str _ "0").
  - split; [unfold well_formed; now rewrite clearPairedAddr_length|].
    split; [apply clearPairedAddr_privateKey|].
    intros j Hj. now apply clearPairedAddr_other.
  - unfold setPairedAddrBytes.
    destruct (negb _); [now repeat split|].
    split; [now apply setPairedAddr_well_formed|].
    split; [apply setPairedAddr_privateKey|].
    intros j Hj. now apply setPairedAddr_other.
Qed.

Lemma install_devices_S doc i n s :
  install_devices doc i (S n) s
  = install_devices doc (i + 1) n (install_devices doc i 1 s).
Proof. reflexivity. Qed.

(** The loop treats the slots one by one: what it leaves in a slot is what
    its turn for that slot alone would. *)
Lemma install_devices_slots doc (n : nat) :
  forall i s,
    well_formed s -> 0 <= i -> i + Z.of_nat n <= MAX_CHANNELS ->
    let s' := install_devices doc i n s in
    well_formed s' /\ privateKey s' = privateKey s
    /\ (forall j, j < i \/ i + Z.of_nat n <= j -> device j s' = device j s)
    /\ (forall j, i <= j < i + Z.of_nat n ->
          device j s' = device j (install_devices doc j 1 s)).
Proof.
  induction n as [|n IH]; intros i s Hwf Hi Hn.
  - cbn [install_devices]. split; [assumption|]. split; [reflexivity|].
    split; [reflexivity|]. intros j Hj. lia.
  - cbv zeta. rewrite install_devices_S.
    destruct (install_step_frame doc i s Hwf) as (Hwf1 & Hp1 & Hf1).
    set (s1 := install_devices doc i 1 s) in *.
    destruct (IH (i + 1) s1 Hwf1 ltac:(lia) ltac:(lia))
      as (Hwf2 & Hp2 & Hout & Hin).
    split; [assumption|]. split; [congruence|]. split.
    + intros j Hj. rewrite Hout by lia. apply Hf1. lia.
    + intros j Hj. destruct (Z.eq_dec j i) as [->|Hne].
      * rewrite Hout by lia. reflexivity.
      * rewrite Hin by lia.
        rewrite !install_step_slot by (assumption || unfold MAX_CHANNELS in *; lia).
        cbv zeta. rewrite Hp1, (Hf1 j Hne). reflexivity.
Qed.

End Install.

Section RoundTrip.
Context {crypto : Crypto} {codec : JsonCodec}.
Import RadioManager.

Lemma doc_ok_null : doc_ok Json.JNull.
Proof. repeat split; now left. Qed.

Lemma directory_doc_lookup keys s i d :
  well_formed s -> device i s = Some d ->
  Json.element (Z.to_nat i) (Json.member "addr" (directory_doc keys s))
  = Json.JString (exported_addr d)
  /\ (addr d <> EmptyString -> keys = true ->
      Json.element (Z.to_nat i) (Json.member "pubKey" (directory_doc keys s))
      = Json.JString (Base64.encode (publicKey d)))
  /\ (keys = false ->
      Json.member "pubKey" (directory_doc keys s) = Json.JNull)
  /\ Json.is_JsonArray (Json.member "addr" (directory_doc keys s)) = true.
Proof.
  intros Hwf Hd. unfold directory_doc.
  rewrite take_ge by (rewrite Hwf; lia).
  unfold device in Hd.
  destruct ((0 <=? i) && (i <? MAX_CHANNELS)); [|discriminate].
  destruct (devices_doc_lookup keys (pairedDevices s) 0 Json.JNull doc_ok_null)
    as (_ & Ha & Hp & _ & Hk & Harr).
  split; [exact (Ha _ _ Hd)|]. split; [exact (Hp _ _ Hd)|].
  split; [exact Hk|]. apply Harr. right. intros E. now rewrite E in Hd.
Qed.

Lemma setPairedDevicesJson_directory doc s :
  deserializeJson (serializeJson doc) = Some doc ->
  Json.is_JsonArray (Json.member "addr" doc) = true ->
  setPairedDevicesJson (serializeJson doc) s
  = (true, initRadio (install_devices doc 0 (Z.to_nat MAX_CHANNELS) s)).
Proof.
  intros Hparse Harr. unfold setPairedDevicesJson. now rewrite Hparse, Harr.
Qed.

Lemma device_initRadio i s : device i (initRadio s) = device i s.
Proof. reflexivity. Qed.

(** X9. The directory through JSON. Suppose the JSON library parses what it
    printed, and every occupied slot of the source has an address other than
    "0", a public key of 32 bytes and a secret that the importer's private key
    derives from it. Then [setPairedDevicesJson] of
    [getPairedDevicesJson(true)] returns true and the importer holds, slot by
    slot, the addresses and public keys of the source, each with the secret
    derived with the importer's own private key, a secure channel with
    counters at 0 and an empty mailbox; the slots free in the source are free
    in the importer. *)
Theorem directory_json_round_trip (src dst : t) :
  well_formed src -> well_formed dst ->
  deserializeJson (getPairedDevicesJson true src)
  = Some (directory_doc true src) ->
  (forall i d, device i src = Some d -> addr d <> EmptyString ->
     addr d <> "0"%string
     /\ Z.of_nat (length (publicKey d)) = KEY_SIZE
     /\ is_Some (x25519 (publicKey d) (privateKey dst))) ->
  let r := setPairedDevicesJson (getPairedDevicesJson true src) dst in
  fst r = true
  /\ forall i d, device i src = Some d ->
       exists d', device i (snd r) = Some d'
         /\ addr d' = addr d /\ mailbox d' = []
         /\ (addr d = EmptyString -> d' = empty_device)
         /\ (addr d <> EmptyString ->
             publicKey d' = publicKey d
             /\ x25519 (publicKey d) (privateKey dst) = Some (sharedKey d')
             /\ chaObject d' = SimpleCha2.mk (sharedKey d') 0 0).
Proof.
  intros Hsrc Hdst Hparse Hocc r. subst r.
  unfold getPairedDevicesJson in *. fold (directory_doc true src) in *.
  assert (Harr : Json.is_JsonArray
                   (Json.member "addr" (directory_doc true src)) = true).
  { destruct (device_in_range 0 src Hsrc ltac:(unfold MAX_CHANNELS; lia))
      as [d0 Hd0].
    apply (directory_doc_lookup true src 0 d0 Hsrc).
    unfold device. exact Hd0. }
  rewrite (setPairedDevicesJson_directory _ dst Hparse Harr).
  cbn [fst snd]. split; [reflexivity|]. intros i d Hd.
  assert (Hi : 0 <= i < MAX_CHANNELS).
  { unfold device in Hd.
    destruct ((0 <=? i) && (i <? MAX_CHANNELS)) eqn:E; [|discriminate].
    apply andb_true_iff in E as [H0 H1].
    apply Z.leb_le in H0. apply Z.ltb_lt in H1. lia. }
  rewrite device_initRadio.
  destruct (install_devices_slots (directory_doc true src)
              (Z.to_nat MAX_CHANNELS) 0 dst Hdst ltac:(lia)
              ltac:(unfold MAX_CHANNELS; lia)) as (_ & _ & _ & Hin).
  rewrite Hin by (unfold MAX_CHANNELS in *; lia).
  rewrite install_step_slot by assumption. cbv zeta.
  destruct (directory_doc_lookup true src i d Hsrc Hd) as (Ha & Hp & _).
  rewrite Ha. cbn [Json.isNull Json.eq_str as_String]. unfold exported_addr.
  destruct (String_isEmpty (addr d)) eqn:Ee.
  - apply String_isEmpty_spec in Ee. cbn [String.eqb Ascii.eqb].
    change ("0" =? "0")%string with true. cbv iota.
    exists empty_device. rewrite Ee.
    split; [reflexivity|]. split; [reflexivity|]. split; [reflexivity|].
    split; [reflexivity|]. intros Hne. now elim Hne.
  - apply String_isEmpty_false in Ee.
    destruct (Hocc i d Hd Ee) as (Hz & Hlen & [shared Hx]).
    apply String.eqb_neq in Hz. rewrite Hz.
    rewrite (Hp Ee eq_refl). cbn [as_String].
    destruct (decode_encode (publicKey d)) as (Hrt & _).
    { unfold Base64.encodedLength. unfold KEY_SIZE in Hlen.
      rewrite Hlen. reflexivity. }
    rewrite Hrt, Hlen, Z.eqb_refl, Hx.
    eexists. split; [reflexivity|]. cbn.
    split; [reflexivity|]. split; [reflexivity|].
    split; [intros E; now elim Ee|]. intros _.
    split; [reflexivity|]. split; reflexivity.
Qed.

(** X10. An export without keys. In [getPairedDevicesJson(false)] the key of
    an occupied slot is null, which the importer reads as the text that the
    JSON library prints for null, here "null". [setPairedDevicesJson] of such
    an export returns true and installs none of the occupied slots: each of
    them is in the importer as it was before. The slots free in the source are
    cleared. *)
Theorem directory_without_keys_not_imported (src dst : t) :
  well_formed src -> well_formed dst ->
  deserializeJson (getPairedDevicesJson false src)
  = Some (directory_doc false src) ->
  serializeJson Json.JNull = "null"%string ->
  let r := setPairedDevicesJson (getPairedDevicesJson false src) dst in
  fst r = true
  /\ forall i d, device i src = Some d ->
       (addr d = EmptyString -> device i (snd r) = Some empty_device)
       /\ (addr d <> EmptyString -> addr d <> "0"%string ->
           device i (snd r) = device i dst).
Proof.
  intros Hsrc Hdst Hparse Hnull r. subst r.
  unfold getPairedDevicesJson in *. fold (directory_doc false src) in *.
  assert (Harr : Json.is_JsonArray
                   (Json.member "addr" (directory_doc false src)) = true).
  { destruct (device_in_range 0 src Hsrc ltac:(unfold MAX_CHANNELS; lia))
      as [d0 Hd0].
    apply (directory_doc_lookup false src 0 d0 Hsrc).
    unfold device. exact Hd0. }
  rewrite (setPairedDevicesJson_directory _ dst Hparse Harr).
  cbn [fst snd]. split; [reflexivity|]. intros i d Hd.
  assert (Hi : 0 <= i < MAX_CHANNELS).
  { unfold device in Hd.
    destruct ((0 <=? i) && (i <? MAX_CHANNELS)) eqn:E; [|discriminate].
    apply andb_true_iff in E as [H0 H1].
    apply Z.leb_le in H0. apply Z.ltb_lt in H1. lia. }
  rewrite device_initRadio.
  destruct (install_devices_slots (directory_doc false src)
              (Z.to_nat MAX_CHANNELS) 0 dst Hdst ltac:(lia)
              ltac:(unfold MAX_CHANNELS; lia)) as (_ & _ & _ & Hin).
  rewrite Hin by (unfold MAX_CHANNELS in *; lia).
  rewrite install_step_slot by assumption. cbv zeta.
  destruct (directory_doc_lookup false src i d Hsrc Hd) as (Ha & _ & Hp & _).
  rewrite Ha, (Hp eq_refl).
  cbn [Json.isNull Json.eq_str as_String Json.element]. unfold exported_addr.
  split.
  - intros E. rewrite E. reflexivity.
  - intros Ee Hz. apply String_isEmpty_false in Ee. rewrite Ee.
    apply String.eqb_neq in Hz. rewrite Hz, Hnull. reflexivity.
Qed.

End RoundTrip.

Section Keys.
Context {crypto : Crypto} {codec : JsonCodec}.
Import RadioManager.

(** X11. The personal keys through a configuration. When the JSON library
    parses what [exportCfg] printed and both keys have 32 bytes, [importCfg]
    of the export returns true and the importer holds the key pair of the
    exporter; nothing else of the importer changes. *)
Theorem importCfg_restores_personal_keys (exporter importer : t) :
  deserializeJson (exportCfg exporter) = Some (exportCfg_doc exporter) ->
  Z.of_nat (length (personalPublicKey exporter)) = KEY_SIZE ->
  Z.of_nat (length (privateKey exporter)) = KEY_SIZE ->
  let r := importCfg (exportCfg exporter) importer in
  fst r = true
  /\ getPersonalKeys (snd r) = getPersonalKeys exporter
  /\ snd r = set_personalKeys (personalPublicKey exporter)
               (privateKey exporter) importer.
Proof.
  intros Hparse Hpub Hpriv r. subst r.
  unfold importCfg. rewrite Hparse, exportCfg_doc_shape.
  cbn [Json.member Json.assoc_get String.eqb Ascii.eqb Bool.eqb
       Json.is_JsonObject as_String].
  destruct (decode_encode (personalPublicKey exporter)) as (-> & _).
  { unfold Base64.encodedLength. unfold KEY_SIZE in Hpub.
    rewrite Hpub. reflexivity. }
  destruct (decode_encode (privateKey exporter)) as (-> & _).
  { unfold Base64.encodedLength. unfold KEY_SIZE in Hpriv.
    rewrite Hpriv. reflexivity. }
  unfold setPersonalKeys. rewrite Hpub, Hpriv, Z.eqb_refl.
  cbn. repeat split.
Qed.

End Keys.

(** ** RadioManager.cpp: a transfer from start to end *)

Section Transfer.
Context {crypto : Crypto} {codec : JsonCodec}.
Import RadioManager.

(** One call of [sendData] inside a transfer, in full. *)
Lemma sendData_exact M k s :
  outgoingMsg (out s) = M ->
  outgoingMsgIndex (out s) = 29 * Z.of_nat k ->
  Z.of_nat k < fragment_count M ->
  fragment_count M <= 65536 ->
  Radio.payloadSize (radio s) = MAX_PACKET_SIZE ->
  sendData s
  = let s1 := set_radio (wrote (fragment M k) (radio s)) s in
    if hd false (Radio.acks (radio s)) then
      let s2 := set_out (set_outgoingMsgIndex
                           (Z.min (29 * Z.of_nat (S k)) (Z.of_nat (length M)))
                           (out s1)) s1 in
      if Z.of_nat (S k) <? fragment_count M then s2 else end_transfer 1 s2
    else end_transfer (-1) s1.
Proof.
  intros HM Hidx Hk HF Hps.
  pose proof (proj1 (fragment_count_spec M k) Hk) as Hlt.
  assert (Hlen : Z.of_nat (length M) <= 29 * 65536).
  { unfold fragment_count in HF. Z.div_mod_to_equations. lia. }
  unfold sendData. rewrite HM, Hidx.
  change (uint16 (MAX_PACKET_SIZE - HEADER_SIZE)) with 29.
  destruct (Z.ltb_spec (29 * Z.of_nat k) (Z.of_nat (length M))) as [_|]; [|lia].
  assert (Hu1 : uint32 (Z.of_nat (length M) + 29 - 1)
                = Z.of_nat (length M) + 28).
  { unfold uint32. rewrite Z.mod_small; lia. }
  assert (Hu2 : uint32 (Z.of_nat (length M) - 29 * Z.of_nat k)
                = Z.of_nat (length M) - 29 * Z.of_nat k).
  { unfold uint32. rewrite Z.mod_small; lia. }
  rewrite Hu1, Hu2.
  fold (fragment_count M).
  set (rem := Z.of_nat (length M) - 29 * Z.of_nat k) in *.
  assert (Hchunk : take (Z.to_nat (Z.min 29 rem)) (drop (Z.to_nat (29 * Z.of_nat k)) M)
                   = chunk M k).
  { unfold chunk. replace (Z.to_nat (29 * Z.of_nat k)) with (29 * k)%nat by lia.
    replace (Z.to_nat (Z.min 29 rem)) with (29 `min` Z.to_nat rem)%nat by lia.
    apply take_min_length. rewrite length_drop. subst rem. lia. }
  rewrite Hchunk.
  assert (Hindex :
    (if 29 * Z.of_nat k =? 0 then uint16 (fragment_count M - 1)
     else if rem <=? 29 then 0
          else uint16 (fragment_count M - 1 - 29 * Z.of_nat k / 29))
    = fragment_count M - 1 - Z.of_nat k).
  { unfold uint16.
    destruct (Z.eqb_spec (29 * Z.of_nat k) 0) as [E|E].
    - replace (Z.of_nat k) with 0 by lia. rewrite Z.mod_small; lia.
    - destruct (Z.leb_spec rem 29) as [Hr|Hr].
      + subst rem. unfold fragment_count. Z.div_mod_to_equations. lia.
      + replace (29 * Z.of_nat k / 29) with (Z.of_nat k)
          by (Z.div_mod_to_equations; lia).
        rewrite Z.mod_small; lia. }
  rewrite Hindex.
  assert (Hcode : (if 29 * Z.of_nat k =? 0 then START_CODE else CONTINUE_CODE)
                  = if (k =? 0)%nat then START_CODE else CONTINUE_CODE).
  { destruct k; [reflexivity|].
    destruct (Z.eqb_spec (29 * Z.of_nat (S k)) 0); [lia|reflexivity]. }
  rewrite Hcode.
  set (code := if (k =? 0)%nat then START_CODE else CONTINUE_CODE).
  set (idx := fragment_count M - 1 - Z.of_nat k).
  pose proof (chunk_length M k) as Hcl. fold rem in Hcl.
  assert (Hpacket :
    pad (memcpy_at
           (memcpy_at (replicate (Z.to_nat MAX_PACKET_SIZE) x00) 0
              (code :: le16_bytes idx))
           (Z.to_nat HEADER_SIZE) (chunk M k)) MAX_PACKET_SIZE
    = fragment M k).
  { change (Z.to_nat MAX_PACKET_SIZE) with 32%nat.
    change (Z.to_nat HEADER_SIZE) with 3%nat.
    rewrite memcpy_header, memcpy_payload.
    assert (Hfrag : code :: byte_of_Z idx :: byte_of_Z (Z.shiftr idx 8)
                    :: chunk M k ++ replicate (29 - length (chunk M k)) x00
                    = fragment M k) by reflexivity.
    rewrite Hfrag. unfold pad. rewrite fragment_length.
    reflexivity. }
  rewrite Hpacket.
  assert (Hframe :
    Radio.resize (Z.to_nat (Radio.payloadSize (radio s)))
      (take (Z.to_nat (HEADER_SIZE + Z.min 29 rem)) (fragment M k))
    = fragment M k).
  { rewrite Hps. change (Z.to_nat MAX_PACKET_SIZE) with 32%nat.
    replace (Z.to_nat (HEADER_SIZE + Z.min 29 rem))
      with (3 + length (chunk M k))%nat by (unfold HEADER_SIZE; lia).
    unfold fragment at 1. cbn [le16_bytes app firstn Nat.add].
    rewrite take_app_length. unfold Radio.resize.
    cbn [length].
    rewrite take_ge by (cbn [length]; lia).
    replace (32 - S (S (S (length (chunk M k)))))%nat
      with (29 - length (chunk M k))%nat by lia.
    reflexivity. }
  unfold Radio.write. rewrite Hframe.
  assert (Hu3 : uint32 (29 * Z.of_nat k + Z.min 29 rem)
                = Z.min (29 * Z.of_nat (S k)) (Z.of_nat (length M))).
  { unfold uint32. rewrite Z.mod_small; subst rem; lia. }
  rewrite Hu3. fold (wrote (fragment M k) (radio s)).
  assert (Hlast : (Z.of_nat (length M)
                   <=? Z.min (29 * Z.of_nat (S k)) (Z.of_nat (length M)))
                  = negb (Z.of_nat (S k) <? fragment_count M)).
  { pose proof (fragment_count_spec M (S k)) as Hs.
    destruct (Z.ltb_spec (Z.of_nat (S k)) (fragment_count M));
      destruct (Z.leb_spec (Z.of_nat (length M))
                  (Z.min (29 * Z.of_nat (S k)) (Z.of_nat (length M))));
      try reflexivity; lia. }
  rewrite Hlast.
  assert (Hhd : match Radio.acks (radio s) with [] => false | a :: _ => a end
                = hd false (Radio.acks (radio s))) by reflexivity.
  rewrite Hhd.
  destruct (hd false (Radio.acks (radio s))); cbn [negb];
    [destruct (Z.of_nat (S k) <? fragment_count M); cbn [negb]|];
    reflexivity.
Qed.

Lemma same_apart_refl s : same_apart_from_transfer s s.
Proof. repeat split. Qed.

Lemma same_apart_trans s1 s2 s3 :
  same_apart_from_transfer s1 s2 -> same_apart_from_transfer s2 s3 ->
  same_apart_from_transfer s1 s3.
Proof.
  unfold same_apart_from_transfer. intros H1 H2.
  destruct H1 as (?&?&?&?&?&?&?&?&?), H2 as (?&?&?&?&?&?&?&?&?).
  repeat split; congruence.
Qed.

(** A tick in the middle of a transfer, acknowledged. *)
Lemma sending_step M k now iv s :
  sending M k s -> fragment_count M <= 65536 ->
  Z.of_nat (S k) < fragment_count M ->
  hd false (Radio.acks (radio s)) = true ->
  exists s',
    loop now iv s = Some s' /\ s' = sendData s /\ sending M (S k) s'
    /\ Radio.txLog (radio s') = Radio.txLog (radio s) ++ [fragment M k]
    /\ Radio.acks (radio s') = tl (Radio.acks (radio s))
    /\ Radio.listening (radio s') = Radio.listening (radio s)
    /\ currentMsgStatus (out s') = currentMsgStatus (out s)
    /\ same_apart_from_transfer s s'.
Proof.
  intros (Hen & Hst & HM & Hidx & Hps) HF Hk Hack.
  exists (sendData s). unfold loop. rewrite Hen, Hst. cbn [negb].
  split; [reflexivity|]. split; [reflexivity|].
  rewrite (sendData_exact M k s) by (assumption || lia).
  cbv zeta. rewrite Hack.
  destruct (Z.ltb_spec (Z.of_nat (S k)) (fragment_count M)) as [_|]; [|lia].
  pose proof (proj1 (fragment_count_spec M (S k)) Hk).
  unfold sending, same_apart_from_transfer, wrote. state_simpl.
  repeat split; try assumption. lia.
Qed.

(** The tick that sends the last fragment, acknowledged. *)
Lemma sending_last M k now iv s :
  sending M k s -> fragment_count M <= 65536 ->
  Z.of_nat (S k) = fragment_count M ->
  hd false (Radio.acks (radio s)) = true ->
  exists s',
    loop now iv s = Some s' /\ s' = sendData s
    /\ currentState s' = IDLE /\ isEnabled s' = true
    /\ Radio.listening (radio s') = true
    /\ currentMsgStatus (out s')
       = store_status (currentMsgStatus (out s)) 1
    /\ outgoingMsgIndex (out s') = Z.of_nat (length M)
    /\ Radio.txLog (radio s') = Radio.txLog (radio s) ++ [fragment M k]
    /\ Radio.acks (radio s') = tl (Radio.acks (radio s))
    /\ Radio.payloadSize (radio s') = MAX_PACKET_SIZE
    /\ same_apart_from_transfer s s'.
Proof.
  intros (Hen & Hst & HM & Hidx & Hps) HF Hk Hack.
  exists (sendData s). unfold loop. rewrite Hen, Hst. cbn [negb].
  split; [reflexivity|]. split; [reflexivity|].
  rewrite (sendData_exact M k s) by (assumption || lia).
  cbv zeta. rewrite Hack.
  destruct (Z.ltb_spec (Z.of_nat (S k)) (fragment_count M)) as [|_]; [lia|].
  pose proof (fragment_count_spec M (S k)) as Hs.
  unfold end_transfer, same_apart_from_transfer, wrote. state_simpl.
  repeat split; try assumption. lia.
Qed.

(** A tick whose fragment is not acknowledged. *)
Lemma sending_unacknowledged M k now iv s :
  sending M k s -> fragment_count M <= 65536 ->
  Z.of_nat k < fragment_count M ->
  hd false (Radio.acks (radio s)) = false ->
  exists s',
    loop now iv s = Some s' /\ s' = sendData s
    /\ currentState s' = IDLE /\ isEnabled s' = true
    /\ Radio.listening (radio s') = true
    /\ currentMsgStatus (out s')
       = store_status (currentMsgStatus (out s)) (-1)
    /\ outgoingMsgIndex (out s') = 29 * Z.of_nat k
    /\ Radio.txLog (radio s') = Radio.txLog (radio s) ++ [fragment M k]
    /\ same_apart_from_transfer s s'.
Proof.
  intros (Hen & Hst & HM & Hidx & Hps) HF Hk Hack.
  exists (sendData s). unfold loop. rewrite Hen, Hst. cbn [negb].
  split; [reflexivity|]. split; [reflexivity|].
  rewrite (sendData_exact M k s) by (assumption || lia).
  cbv zeta. rewrite Hack.
  unfold end_transfer, same_apart_from_transfer, wrote. state_simpl.
  repeat split; assumption.
Qed.

(** [n] ticks in the middle of a transfer, all acknowledged. *)
Lemma sending_run M iv (n : nat) :
  forall k nows s,
    sending M k s -> fragment_count M <= 65536 ->
    Z.of_nat (k + n) < fragment_count M ->
    take n (Radio.acks (radio s)) = replicate n true ->
    length nows = n ->
    exists s',
      run_loop iv nows s = Some s' /\ sending M (k + n) s'
      /\ Radio.txLog (radio s')
         = Radio.txLog (radio s) ++ map (fragment M) (seq k n)
      /\ Radio.acks (radio s') = drop n (Radio.acks (radio s))
      /\ Radio.listening (radio s') = Radio.listening (radio s)
      /\ currentMsgStatus (out s') = currentMsgStatus (out s)
      /\ same_apart_from_transfer s s'.
Proof.
  induction n as [|n IH]; intros k [|now nows] s Hs HF Hk Hacks Hlen;
    try discriminate.
  - exists s. cbn [run_loop seq map]. rewrite Nat.add_0_r, app_nil_r, drop_0.
    repeat split; try assumption; apply Hs.
  - cbn [run_loop].
    assert (Hhd : hd false (Radio.acks (radio s)) = true).
    { destruct (Radio.acks (radio s)) as [|a l]; [discriminate|].
      cbn in Hacks. now injection Hacks as ->. }
    destruct (sending_step M k now iv s Hs HF ltac:(lia) Hhd)
      as (s1 & Hloop & _ & Hs1 & Hlog1 & Hack1 & Hl1 & Hst1 & Hsame1).
    rewrite Hloop. cbn [mbind option_bind].
    destruct (IH (S k) nows s1 Hs1 HF ltac:(lia)) as
      (s' & Hrun & Hs' & Hlog & Hack & Hl & Hst & Hsame).
    { rewrite Hack1. destruct (Radio.acks (radio s)) as [|a l];
        [discriminate|]. cbn in Hacks |- *. now injection Hacks. }
    { cbn [length] in Hlen. lia. }
    exists s'. split; [exact Hrun|].
    replace (k + S n)%nat with (S k + n)%nat by lia.
    split; [exact Hs'|]. rewrite Hlog, Hlog1, Hack, Hack1, Hl, Hl1, Hst, Hst1.
    split; [now rewrite <- app_assoc|].
    split; [now destruct (Radio.acks (radio s))|].
    repeat split; try reflexivity.
    all: try apply (same_apart_trans s s1 s'); assumption.
  Qed.

(** An accepted send whose message goes out as it is. *)
Lemma sendMsgToAddr_plain iv msg a status encryption s :
  accepts_send msg s ->
  encryption = false \/ find_target a s = None ->
  sendMsgToAddr iv msg a status encryption s
  = (true, currentMsgStatus (out (sendData (begin_transfer msg a status s))),
     sendData (begin_transfer msg a status s)).
Proof.
  intros (Hen & Hst & Hlen) Hplain. unfold sendMsgToAddr.
  rewrite Hen, Hst. cbn [negb State_eqb orb].
  destruct (Z.ltb_spec MAX_MSG_SIZE (Z.of_nat (length msg))); [lia|].
  cbv zeta. destruct encryption; [|reflexivity].
  destruct Hplain as [|Hnone]; [discriminate|].
  change (find_target a (set_out _ (set_currentState TRANSMITTING s)))
    with (find_target a s).
  rewrite Hnone. reflexivity.
Qed.

Lemma begin_transfer_sending M a status s :
  isEnabled s = true -> Radio.payloadSize (radio s) = MAX_PACKET_SIZE ->
  sending M 0 (begin_transfer M a status s).
Proof. intros Hen Hps. repeat split; assumption. Qed.

(** The first [j] fragments of a transfer, all acknowledged, with more to
    come: the first goes out in the call that started the transfer, the
    others one per tick. *)
Lemma transfer_progress M iv s0 (j : nat) nows :
  sending M 0 s0 -> fragment_count M <= 65536 ->
  (1 <= j)%nat -> Z.of_nat j < fragment_count M ->
  take j (Radio.acks (radio s0)) = replicate j true ->
  length nows = (j - 1)%nat ->
  exists sj,
    run_loop iv nows (sendData s0) = Some sj /\ sending M j sj
    /\ Radio.txLog (radio sj)
       = Radio.txLog (radio s0) ++ map (fragment M) (seq 0 j)
    /\ Radio.acks (radio sj) = drop j (Radio.acks (radio s0))
    /\ Radio.listening (radio sj) = Radio.listening (radio s0)
    /\ currentMsgStatus (out sj) = currentMsgStatus (out s0)
    /\ same_apart_from_transfer s0 sj.
Proof.
  intros Hs HF Hj1 Hj Hacks Hlen.
  destruct j as [|j]; [lia|].
  assert (Hhd : hd false (Radio.acks (radio s0)) = true).
  { destruct (Radio.acks (radio s0)) as [|b l]; [discriminate|].
    cbn in Hacks. now injection Hacks as ->. }
  destruct (sending_step M 0 0 iv s0 Hs HF ltac:(lia) Hhd)
    as (s1 & _ & -> & Hs1 & Hlog1 & Hack1 & Hl1 & Hst1 & Hsame1).
  destruct (sending_run M iv j 1 nows (sendData s0) Hs1 HF ltac:(lia))
    as (sj & Hrun & Hsj & Hlog & Hack & Hl & Hst & Hsame).
  { rewrite Hack1. destruct (Radio.acks (radio s0)) as [|b l];
      [discriminate|]. cbn in Hacks |- *. now injection Hacks. }
  { lia. }
  exists sj. split; [exact Hrun|]. split; [exact Hsj|].
  rewrite Hlog, Hlog1, Hack, Hack1, Hl, Hl1, Hst, Hst1.
  split; [now rewrite <- app_assoc|].
  split; [now destruct (Radio.acks (radio s0))|].
  split; [reflexivity|]. split; [reflexivity|].
  now apply (same_apart_trans s0 (sendData s0) sj).
Qed.

Lemma run_loop_snoc iv nows now s :
  run_loop iv (nows ++ [now]) s = (s' ← run_loop iv nows s; loop now iv s').
Proof.
  rewrite run_loop_app. destruct (run_loop iv nows s) as [s'|];
    cbn [mbind option_bind run_loop]; [|reflexivity].
  now destruct (loop now iv s').
Qed.

Lemma length_snoc_inv {A} (l : list A) (n : nat) :
  length l = S n -> exists l' x, l = l' ++ [x] /\ length l' = n.
Proof.
  intros H. destruct l as [|x l] using rev_ind; [discriminate|].
  rewrite length_app in H. cbn in H. exists l, x. split; [reflexivity|lia].
Qed.

Lemma store_status_twice status v w :
  store_status (store_status status v) w = store_status status w.
Proof. now destruct status. Qed.

Lemma fragment_count_pos M : (0 < length M)%nat -> 1 <= fragment_count M.
Proof. unfold fragment_count. intros H. Z.div_mod_to_equations. lia. Qed.

Lemma fragment_count_small M :
  Z.of_nat (length M) <= MAX_MSG_SIZE + SimpleCha2.NONCE_SIZE ->
  fragment_count M <= 65536.
Proof. intros H. pose proof (fragment_count_bound M H). lia. Qed.

(** A transfer whose fragments are all acknowledged, from the state in
    which [sendMsgToAddr] calls [sendData]. *)
Lemma transfer_completes M iv s0 nows :
  sending M 0 s0 -> (0 < length M)%nat -> fragment_count M <= 65536 ->
  let F := Z.to_nat (fragment_count M) in
  take F (Radio.acks (radio s0)) = replicate F true ->
  length nows = (F - 1)%nat ->
  exists s',
    run_loop iv nows (sendData s0) = Some s'
    /\ currentState s' = IDLE /\ isEnabled s' = true
    /\ Radio.listening (radio s') = true
    /\ currentMsgStatus (out s') = store_status (currentMsgStatus (out s0)) 1
    /\ outgoingMsgIndex (out s') = Z.of_nat (length M)
    /\ Radio.txLog (radio s')
       = Radio.txLog (radio s0) ++ map (fragment M) (seq 0 F)
    /\ Radio.acks (radio s') = drop F (Radio.acks (radio s0))
    /\ Radio.payloadSize (radio s') = MAX_PACKET_SIZE
    /\ same_apart_from_transfer s0 s'.
Proof.
  intros Hs Hpos HF F Hacks Hlen.
  pose proof (fragment_count_pos M Hpos) as H1.
  destruct (Nat.eq_dec F 1%nat) as [E1|Hne].
  - destruct nows; [|cbn in Hlen; lia]. cbn [run_loop].
    assert (Hhd : hd false (Radio.acks (radio s0)) = true).
    { rewrite E1 in Hacks. destruct (Radio.acks (radio s0)) as [|b l];
        [discriminate|]. cbn in Hacks. now injection Hacks as ->. }
    destruct (sending_last M 0 0 iv s0 Hs HF ltac:(lia) Hhd)
      as (s' & _ & -> & Hst & Hen & Hl & Hstat & Hidx & Hlog & Hack & Hps
          & Hsame).
    exists (sendData s0). rewrite E1.
    repeat split; try assumption; try apply Hsame.
  - destruct (length_snoc_inv nows (F - 2)) as (l1 & tl & -> & Hl1); [lia|].
    destruct (acks_prefix (F - 1) (Radio.acks (radio s0))) as [Hpre Hhd].
    { replace (S (F - 1)) with F by lia. exact Hacks. }
    destruct (transfer_progress M iv s0 (F - 1) l1 Hs HF ltac:(lia)
                ltac:(lia) Hpre ltac:(lia))
      as (sj & Hrun & Hsj & Hlog & Hack & Hl & Hst & Hsame).
    rewrite run_loop_snoc, Hrun. cbn [mbind option_bind].
    destruct (sending_last M (F - 1) tl iv sj Hsj HF ltac:(lia))
      as (s' & Hloop & _ & Hst' & Hen' & Hl' & Hstat' & Hidx' & Hlog' & Hack'
          & Hps' & Hsame').
    { rewrite Hack. exact Hhd. }
    exists s'. split; [exact Hloop|]. split; [exact Hst'|].
    split; [exact Hen'|]. split; [exact Hl'|].
    split; [now rewrite Hstat', Hst|]. split; [exact Hidx'|].
    split.
    { rewrite Hlog', Hlog, <- app_assoc. f_equal.
      assert (EF : seq 0 F = seq 0 (F - 1) ++ [(F - 1)%nat]).
      { replace F with (S (F - 1)) at 1 by lia. apply seq_S. }
      rewrite EF, map_app. reflexivity. }
    split.
    { rewrite Hack', Hack, tl_drop. f_equal. lia. }
    split; [exact Hps'|].
    now apply (same_apart_trans s0 sj s').
Qed.

(** A transfer whose fragment [k] is the first one not acknowledged. *)
Lemma transfer_aborts M iv s0 (k : nat) nows :
  sending M 0 s0 -> fragment_count M <= 65536 ->
  Z.of_nat k < fragment_count M ->
  take k (Radio.acks (radio s0)) = replicate k true ->
  hd false (drop k (Radio.acks (radio s0))) = false ->
  length nows = k ->
  exists s',
    run_loop iv nows (sendData s0) = Some s'
    /\ currentState s' = IDLE /\ isEnabled s' = true
    /\ Radio.listening (radio s') = true
    /\ currentMsgStatus (out s')
       = store_status (currentMsgStatus (out s0)) (-1)
    /\ outgoingMsgIndex (out s') = 29 * Z.of_nat k
    /\ Radio.txLog (radio s')
       = Radio.txLog (radio s0) ++ map (fragment M) (seq 0 (S k))
    /\ same_apart_from_transfer s0 s'.
Proof.
  intros Hs HF Hk Hacks Hhd Hlen.
  destruct k as [|k].
  - destruct nows; [|discriminate]. cbn [run_loop]. rewrite drop_0 in Hhd.
    destruct (sending_unacknowledged M 0 0 iv s0 Hs HF ltac:(lia) Hhd)
      as (s' & _ & -> & Hst & Hen & Hl & Hstat & Hidx & Hlog & Hsame).
    exists (sendData s0). split; [reflexivity|].
    repeat split; try assumption; try apply Hsame.
  - destruct (length_snoc_inv nows k Hlen) as (l1 & tl & -> & Hl1).
    destruct (transfer_progress M iv s0 (S k) l1 Hs HF ltac:(lia)
                ltac:(lia) Hacks ltac:(lia))
      as (sj & Hrun & Hsj & Hlog & Hack & Hl & Hst & Hsame).
    rewrite run_loop_snoc, Hrun. cbn [mbind option_bind].
    destruct (sending_unacknowledged M (S k) tl iv sj Hsj HF ltac:(lia))
      as (s' & Hloop & _ & Hst' & Hen' & Hl' & Hstat' & Hidx' & Hlog'
          & Hsame').
    { rewrite Hack. exact Hhd. }
    exists s'. split; [exact Hloop|]. split; [exact Hst'|].
    split; [exact Hen'|]. split; [exact Hl'|].
    split; [now rewrite Hstat', Hst|]. split; [exact Hidx'|].
    split.
    { rewrite Hlog', Hlog, <- app_assoc. f_equal.
      rewrite (seq_S (S k) 0), map_app. reflexivity. }
    now apply (same_apart_trans s0 sj s').
Qed.

(** X12. A transfer that succeeds. An enabled, idle manager takes a non-empty
    message of at most [MAX_MSG_SIZE] bytes, to be sent as it is (no
    encryption asked, or the address in no slot); all its F fragments are
    acknowledged. [sendMsgToAddr] returns true; through the next F - 2 ticks
    the manager is TRANSMITTING with status 0; after tick F - 1 it is IDLE and
    listens, the status is 1, the frames written are the fragments 0 to F - 1
    in order, and the directory is as before. *)
Theorem acknowledged_send_completes (iv msg : Bytes) (a : string)
  (status : option Z) (encryption : bool) (s : t) (nows : list Z) :
  accepts_send msg s -> Radio.payloadSize (radio s) = MAX_PACKET_SIZE ->
  encryption = false \/ find_target a s = None ->
  (0 < length msg)%nat ->
  let F := Z.to_nat (fragment_count msg) in
  take F (Radio.acks (radio s)) = replicate F true ->
  length nows = (F - 1)%nat ->
  let r := sendMsgToAddr iv msg a status encryption s in
  fst (fst r) = true
  /\ (forall n, (n < F - 1)%nat ->
        exists sn, run_loop iv (take n nows) (snd r) = Some sn
                   /\ currentState sn = TRANSMITTING
                   /\ currentMsgStatus (out sn) = store_status status 0)
  /\ exists s',
       run_loop iv nows (snd r) = Some s'
       /\ currentState s' = IDLE
       /\ currentMsgStatus (out s') = store_status status 1
       /\ frames_since s s' = map (fragment msg) (seq 0 F)
       /\ Radio.listening (radio s') = true
       /\ Radio.writingPipe (radio s') = a
       /\ pairedDevices s' = pairedDevices s.
Proof.
  intros Hacc Hps Hplain Hpos F Hacks Hlen r. subst r.
  rewrite (sendMsgToAddr_plain iv msg a status encryption s Hacc Hplain).
  cbn [fst snd]. destruct Hacc as (Hen & Hst & Hsize).
  set (s0 := begin_transfer msg a status s).
  pose proof (begin_transfer_sending msg a status s Hen Hps) as Hs0.
  fold s0 in Hs0.
  assert (HF : fragment_count msg <= 65536).
  { apply fragment_count_small. unfold SimpleCha2.NONCE_SIZE. lia. }
  pose proof (fragment_count_pos msg Hpos) as H1.
  split; [reflexivity|]. split.
  - intros n Hn.
    destruct (transfer_progress msg iv s0 (S n) (take n nows) Hs0 HF
                ltac:(lia) ltac:(lia))
      as (sn & Hrun & Hsn & _ & _ & _ & Hstat & _).
    { change (Radio.acks (radio s0)) with (Radio.acks (radio s)).
      replace (take (S n) (Radio.acks (radio s)))
        with (take (S n) (take F (Radio.acks (radio s))))
        by (rewrite take_take; f_equal; lia).
      rewrite Hacks, take_replicate. f_equal. lia. }
    { rewrite length_take. lia. }
    exists sn. split; [exact Hrun|]. split; [apply Hsn|]. exact Hstat.
  - destruct (transfer_completes msg iv s0 nows Hs0 Hpos HF Hacks Hlen)
      as (s' & Hrun & Hst' & _ & Hl & Hstat & _ & Hlog & _ & _ & Hsame).
    exists s'. split; [exact Hrun|]. split; [exact Hst'|].
    split; [rewrite Hstat; apply store_status_twice|].
    split; [unfold frames_since; rewrite Hlog;
            change (Radio.txLog (radio s0)) with (Radio.txLog (radio s));
            now rewrite drop_app_length|].
    split; [exact Hl|].
    destruct Hsame as (Hd & _ & _ & _ & _ & _ & _ & Hw & _).
    split; [rewrite Hw; reflexivity | rewrite Hd; reflexivity].
Qed.

(** X13. A transfer that fails. When fragment [k] is the first that is not
    acknowledged, the transfer ends with it, on tick [k]: the manager is IDLE
    and listens, the status is 255 (the -1 stored through a uint8_t pointer),
    fragments 0 to [k] were written and none after, and the directory is as
    before. *)
Theorem unacknowledged_send_aborts (iv msg : Bytes) (a : string)
  (status : option Z) (encryption : bool) (s : t) (k : nat)
  (nows : list Z) :
  accepts_send msg s -> Radio.payloadSize (radio s) = MAX_PACKET_SIZE ->
  encryption = false \/ find_target a s = None ->
  Z.of_nat k < fragment_count msg ->
  take k (Radio.acks (radio s)) = replicate k true ->
  hd false (drop k (Radio.acks (radio s))) = false ->
  length nows = k ->
  let r := sendMsgToAddr iv msg a status encryption s in
  fst (fst r) = true
  /\ exists s',
       run_loop iv nows (snd r) = Some s'
       /\ currentState s' = IDLE
       /\ currentMsgStatus (out s') = store_status status (-1)
       /\ frames_since s s' = map (fragment msg) (seq 0 (S k))
       /\ outgoingMsgIndex (out s') = 29 * Z.of_nat k
       /\ Radio.listening (radio s') = true
       /\ pairedDevices s' = pairedDevices s.
Proof.
  intros Hacc Hps Hplain Hk Hacks Hhd Hlen r. subst r.
  rewrite (sendMsgToAddr_plain iv msg a status encryption s Hacc Hplain).
  cbn [fst snd]. destruct Hacc as (Hen & Hst & Hsize).
  set (s0 := begin_transfer msg a status s).
  pose proof (begin_transfer_sending msg a status s Hen Hps) as Hs0.
  fold s0 in Hs0.
  assert (HF : fragment_count msg <= 65536).
  { apply fragment_count_small. unfold SimpleCha2.NONCE_SIZE. lia. }
  split; [reflexivity|].
  destruct (transfer_aborts msg iv s0 k nows Hs0 HF Hk Hacks Hhd Hlen)
    as (s' & Hrun & Hst' & _ & Hl & Hstat & Hidx & Hlog & Hsame).
  exists s'. split; [exact Hrun|]. split; [exact Hst'|].
  split; [rewrite Hstat; apply store_status_twice|].
  split; [unfold frames_since; rewrite Hlog;
          change (Radio.txLog (radio s0)) with (Radio.txLog (radio s));
          now rewrite drop_app_length|].
  split; [exact Hidx|]. split; [exact Hl|].
  destruct Hsame as (Hd & _). rewrite Hd. reflexivity.
Qed.

(** X14. The empty message. [sendMsgToAddr] takes an empty message (no
    encryption asked, or the address in no slot) and returns true with status
    0, but [sendData] writes no frame for it and ends no transfer: the manager
    is TRANSMITTING, hence busy, and every later tick leaves it so. *)
Theorem empty_message_never_completes (iv : Bytes) (a : string)
  (status : option Z) (encryption : bool) (s : t) :
  isEnabled s = true -> currentState s = IDLE ->
  encryption = false \/ find_target a s = None ->
  let r := sendMsgToAddr iv [] a status encryption s in
  r = (true, store_status status 0, begin_transfer [] a status s)
  /\ currentState (snd r) = TRANSMITTING
  /\ isBusy (snd r) = true
  /\ forall iv' nows, run_loop iv' nows (snd r) = Some (snd r).
Proof.
  intros Hen Hst Hplain r. subst r.
  rewrite (sendMsgToAddr_plain iv [] a status encryption s)
    by (repeat split; assumption || (cbn; unfold MAX_MSG_SIZE; lia)).
  assert (Hnop : sendData (begin_transfer [] a status s)
                 = begin_transfer [] a status s) by reflexivity.
  rewrite Hnop. cbn [fst snd]. split; [reflexivity|].
  split; [reflexivity|]. split; [reflexivity|].
  intros iv' nows. induction nows as [|now nows IH]; [reflexivity|].
  cbn [run_loop].
  assert (Htick : loop now iv' (begin_transfer [] a status s)
                  = Some (begin_transfer [] a status s)).
  { unfold loop, begin_transfer. state_simpl. now rewrite Hen. }
  rewrite Htick. exact IH.
Qed.

End Transfer.

(** ** From sender to mailbox *)

Section EndToEnd.
Context {crypto : Crypto} {codec : JsonCodec}.
Import RadioManager.

Lemma find_target_slot a s c :
  find_target a s = Some c ->
  0 <= c < MAX_CHANNELS
  /\ exists d, pairedDevices s !! Z.to_nat c = Some d /\ addr d = a.
Proof.
  unfold find_target. intros H.
  destruct (find_channel_Some _ _ _ _ H) as (Hr & Hp & _).
  split; [unfold MAX_CHANNELS in *; lia|].
  destruct (pairedDevices s !! Z.to_nat c) as [d|]; [|discriminate].
  exists d. split; [reflexivity|]. now apply String.eqb_eq.
Qed.

(** An accepted send whose message is encrypted for the slot of the
    target. *)
Lemma sendMsgToAddr_encrypted iv msg a status s c d :
  accepts_send msg s ->
  find_target a s = Some c -> pairedDevices s !! Z.to_nat c = Some d ->
  let e := SimpleCha2.encrypt iv msg (chaObject d) in
  let s0 := begin_transfer (fst e) a status
              (on_device c (set_chaObject (snd e)) s) in
  sendMsgToAddr iv msg a status true s
  = (true, currentMsgStatus (out (sendData s0)), sendData s0).
Proof.
  intros (Hen & Hst & Hlen) Hfind Hd e s0. subst e s0.
  destruct (find_target_slot a s c Hfind) as (Hc & _).
  unfold sendMsgToAddr.
  rewrite Hen, Hst. cbn [negb State_eqb orb].
  destruct (Z.ltb_spec MAX_MSG_SIZE (Z.of_nat (length msg))); [lia|].
  cbv zeta.
  change (find_target a (set_out _ (set_currentState TRANSMITTING s)))
    with (find_target a s).
  rewrite Hfind. unfold encryptMessage. state_simpl.
  destruct (Z.ltb_spec c MAX_CHANNELS); [|lia]. rewrite Hd.
  destruct (SimpleCha2.encrypt iv msg (chaObject d)) as [C cha].
  reflexivity.
Qed.

(** X15. From the sender to the mailbox. A non-empty message that
    [sendMsgToAddr] encrypts for the slot of the target address, all fragments
    acknowledged, is sent in F - 1 further ticks; the sender is then IDLE with
    status 1 and the secure channel of the slot has counted the message. A
    polling receiver that gets these frames, one per tick, on a pipe whose
    slot is occupied, has the same key and has not seen the counter yet, puts
    the plaintext in the mailbox of that slot as [push_mailbox] does and
    records the counter. No fragment payload of the ciphertext ends in a zero
    byte. *)
Theorem encrypted_message_delivered (iv msg : Bytes) (a : string)
  (status : option Z) (sender receiver : t) (c pipe : Z)
  (ds dr : PairedDevice) (ticks arrivals : list Z) :
  accepts_send msg sender ->
  Radio.payloadSize (radio sender) = MAX_PACKET_SIZE ->
  msg <> [] -> length iv = 8%nat ->
  find_target a sender = Some c -> device c sender = Some ds ->
  let e := SimpleCha2.encrypt iv msg (chaObject ds) in
  let F := Z.to_nat (fragment_count (fst e)) in
  payloads_end_nonzero (fst e) = true ->
  take F (Radio.acks (radio sender)) = replicate F true ->
  length ticks = (F - 1)%nat ->
  polling receiver -> well_formed receiver -> 1 <= pipe <= MAX_CHANNELS ->
  device (pipe - 1) receiver = Some dr -> addr dr <> EmptyString ->
  SimpleCha2.key (chaObject dr) = SimpleCha2.key (chaObject ds) ->
  SimpleCha2.decryptCounter (chaObject dr)
    < SimpleCha2.encryptCounter (snd e) ->
  length arrivals = F ->
  let r := sendMsgToAddr iv msg a status true sender in
  fst (fst r) = true
  /\ exists sender' receiver' dr',
       run_loop iv ticks (snd r) = Some sender'
       /\ currentState sender' = IDLE
       /\ currentMsgStatus (out sender') = store_status status 1
       /\ device c sender' = Some (set_chaObject (snd e) ds)
       /\ receive_frames iv pipe
            (zip arrivals (frames_since sender sender')) receiver
          = Some receiver'
       /\ device (pipe - 1) receiver' = Some dr'
       /\ mailbox dr' = mailbox (push_mailbox msg dr)
       /\ SimpleCha2.decryptCounter (chaObject dr')
          = SimpleCha2.encryptCounter (snd e).
Proof.
  intros Hacc Hps Hmsg Hiv Hfind Hds e F Hends Hacks Hticks Hpoll Hwf Hpipe
    Hdr Haddr Hkey Hfresh Harr r. subst r.
  destruct (find_target_slot a sender c Hfind) as (Hc & _).
  rewrite device_lookup in Hds by exact Hc.
  rewrite (sendMsgToAddr_encrypted iv msg a status sender c ds Hacc Hfind Hds).
  cbv zeta. fold e. cbn [fst snd].
  set (s0 := begin_transfer (fst e) a status
               (on_device c (set_chaObject (snd e)) sender)).
  destruct Hacc as (Hen & Hst & Hsize).
  assert (Hs0 : sending (fst e) 0 s0) by (repeat split; assumption).
  pose proof (encrypt_length iv msg (chaObject ds) Hiv) as HClen.
  fold e in HClen.
  assert (Hpos : (0 < length (fst e))%nat) by lia.
  assert (HF : 1 <= fragment_count (fst e) <= MAX_PACKETS_RCV).
  { unfold fragment_count, MAX_PACKETS_RCV, MAX_MSG_SIZE in *.
    rewrite HClen. Z.div_mod_to_equations. lia. }
  unfold MAX_PACKETS_RCV in HF.
  split; [reflexivity|].
  destruct (transfer_completes (fst e) iv s0 ticks Hs0 Hpos ltac:(lia)
              Hacks Hticks)
    as (sender' & Hrun & Hst' & _ & _ & Hstat & _ & Hlog & _ & _ & Hsame).
  assert (Hframes : frames_since sender sender'
                    = map (fragment (fst e)) (seq 0 F)).
  { unfold frames_since. rewrite Hlog.
    change (Radio.txLog (radio s0)) with (Radio.txLog (radio sender)).
    apply drop_app_length. }
  assert (Hch : 0 <= pipe - 1 < MAX_CHANNELS) by lia.
  destruct (receive_all_frames (fst e) receiver pipe arrivals iv
              ltac:(unfold MAX_PACKETS_RCV; lia) Hends Hpoll Hwf Hpipe Harr)
    as (receiver' & Hrecv & Hdev & _).
  rewrite device_lookup in Hdr by exact Hch.
  destruct (store_message_slot (pipe - 1) (fst e) receiver dr Hch Hdr Haddr)
    as (s1 & Hs1 & Hslot & _).
  rewrite Hs1 in Hdev. cbn [fmap option_fmap option_map] in Hdev.
  injection Hdev as Hdev.
  pose proof (uint32_range (SimpleCha2.encryptCounter (chaObject ds) + 1))
    as Hcnt.
  assert (Hdec : SimpleCha2.decrypt (fst e) (chaObject dr)
                 = (msg, SimpleCha2.mk (SimpleCha2.key (chaObject ds))
                           (SimpleCha2.encryptCounter (chaObject dr))
                           (SimpleCha2.encryptCounter (snd e)))).
  { subst e. rewrite encrypt_ciphertext. now apply decrypt_fresh. }
  rewrite Hdec in Hslot. cbn [fst snd] in Hslot.
  destruct msg as [|x0 msg']; [contradiction|].
  eexists sender', receiver', _.
  split; [exact Hrun|]. split; [exact Hst'|].
  split; [rewrite Hstat; apply store_status_twice|].
  split.
  { destruct Hsame as (Hd & _). rewrite device_lookup, Hd by exact Hc.
    unfold s0, begin_transfer. state_simpl.
    now rewrite on_device_lookup, Hds. }
  split; [rewrite Hframes; exact Hrecv|].
  split; [rewrite device_lookup, Hdev by exact Hch; exact Hslot|].
  destruct (push_mailbox_fields (x0 :: msg')
              (set_chaObject
                 (SimpleCha2.mk (SimpleCha2.key (chaObject ds))
                    (SimpleCha2.encryptCounter (chaObject dr))
                    (SimpleCha2.encryptCounter (snd e))) dr))
    as (_ & Hcha & _).
  split; [|rewrite Hcha; reflexivity].
  unfold push_mailbox. cbn [set_chaObject mailbox].
  destruct (Z.of_nat (length (mailbox dr)) <? MAX_MAILBOX_MSG); reflexivity.
Qed.

End EndToEnd.

(** ** RadioManager.cpp: sizes *)

Section Memory.
Context {crypto : Crypto} {codec : JsonCodec}.
Import RadioManager.






Lemma removelast_shorter {A} (l : list A) :
  (length (removelast l) <= length l)%nat.
Proof.
  induction l as [|x l IH]; [cbn; lia|]. cbn [removelast].
  destruct l; cbn [length] in *; lia.
Qed.











End Memory.

Section Padding.
Context {crypto : Crypto} {codec : JsonCodec}.
Import RadioManager.

Lemma unpad_loop_all_zeros (n fuel : nat) :
  (n <= fuel)%nat -> unpad_loop fuel (replicate n x00) = [].
Proof.
  revert fuel. induction n as [|n IH]; intros fuel Hfuel.
  - now destruct fuel.
  - destruct fuel as [|fuel]; [lia|].
    rewrite replicate_S_end. cbn [unpad_loop]. rewrite last_snoc.
    change (is_zero_byte x00) with true. cbv iota.
    rewrite removelast_last. apply IH. lia.
Qed.

Lemma unpad_loop_ends fuel l :
  (length l <= fuel)%nat ->
  unpad_loop fuel l = [] \/ ends_nonzero (unpad_loop fuel l) = true.
Proof.
  revert l. induction fuel as [|fuel IH]; intros l Hl.
  - destruct l; [now left | cbn in Hl; lia].
  - cbn [unpad_loop]. unfold ends_nonzero.
    destruct (last l) as [b|] eqn:El.
    + destruct (is_zero_byte b) eqn:Eb.
      * apply IH. pose proof (removelast_shorter l).
        destruct l as [|x l] using rev_ind; [discriminate|].
        rewrite removelast_last, length_app in *. cbn in *. lia.
      * right. now rewrite El, Eb.
    + left. destruct l as [|x l] using rev_ind; [reflexivity|].
      now rewrite last_snoc in El.
Qed.

(** X17. Padding and its removal. For a payload no longer than the padding
    size, [unpad] after [pad] gives the payload back exactly when the payload
    is empty or does not end in a zero byte. *)
Theorem unpad_pad (payload : Bytes) (paddingSize : Z) :
  Z.of_nat (length payload) <= paddingSize ->
  (unpad (pad payload paddingSize) = payload
   <-> payload = [] \/ ends_nonzero payload = true).
Proof.
  intros Hlen. unfold pad.
  assert (Hpad : (if Z.of_nat (length payload) <? paddingSize
                  then payload ++ replicate
                         (Z.to_nat (paddingSize - Z.of_nat (length payload)))
                         x00
                  else if paddingSize <? Z.of_nat (length payload)
                       then take (Z.to_nat paddingSize) payload
                       else payload)
                 = payload ++ replicate
                     (Z.to_nat (paddingSize - Z.of_nat (length payload))) x00).
  { destruct (Z.ltb_spec (Z.of_nat (length payload)) paddingSize);
      [reflexivity|].
    destruct (Z.ltb_spec paddingSize (Z.of_nat (length payload))); [lia|].
    replace (paddingSize - Z.of_nat (length payload)) with 0 by lia.
    cbn. now rewrite app_nil_r. }
  rewrite Hpad. set (n := Z.to_nat _). split.
  - intros H. unfold unpad in H.
    destruct (unpad_loop_ends (length (payload ++ replicate n x00))
                (payload ++ replicate n x00) ltac:(lia)) as [E|E];
      rewrite H in E; auto.
  - intros [-> | Hend].
    + cbn [app]. unfold unpad. rewrite length_replicate.
      now apply unpad_loop_all_zeros.
    + unfold unpad. apply unpad_loop_zeros; [|exact Hend].
      rewrite length_app, length_replicate. lia.
Qed.

End Padding.

(** ** RadioManager.cpp: the pairing of two devices *)

Section Handshake.
Context {crypto : Crypto} {codec : JsonCodec}.
Import RadioManager.

Lemma getAvailableChannel_ext s s' :
  pairedDevices s = pairedDevices s' ->
  getAvailableChannel s = getAvailableChannel s'.
Proof.
  intros H. unfold getAvailableChannel, getPairedAddr, device. now rewrite H.
Qed.

Lemma getAvailableChannel_range s :
  getAvailableChannel s < MAX_CHANNELS ->
  0 <= getAvailableChannel s < MAX_CHANNELS.
Proof.
  unfold getAvailableChannel.
  destruct (find_channel _ 0 _) as [j|] eqn:E; [|unfold MAX_CHANNELS; lia].
  apply find_channel_Some in E. lia.
Qed.

Lemma clearPairedUID_unknown uid s0 s :
  getPairedChannel uid s0 = 255 -> pairedDevices s = pairedDevices s0 ->
  clearPairedUID uid s = (false, s).
Proof.
  unfold getPairedChannel, clearPairedUID, getPairedUID, device.
  intros H ->. destruct (find_channel _ 0 _) as [j|] eqn:E; [|reflexivity].
  apply find_channel_Some in E. unfold MAX_CHANNELS in E. lia.
Qed.

Lemma setPairedAddr_exact address channel pk shared s :
  0 <= channel < MAX_CHANNELS -> x25519 pk (privateKey s) = Some shared ->
  setPairedAddr address channel (Some pk) s
  = (true,
     on_radio (Radio.openReadingPipe (channel + 1) (own_address channel s))
       (set_pairedDevices
          (pairedDevices (snd (setPairedAddr address channel (Some pk) s)))
          s)).
Proof.
  intros Hch Hx. unfold setPairedAddr.
  rewrite (in_range_true channel Hch).
  unfold generateX25519SharedKey. rewrite Hx.
  unfold setDeviceSharedKey, setDevicePublicKey, clearPairedAddr.
  rewrite (in_range_true channel Hch).
  destruct (Z.ltb_spec channel MAX_CHANNELS) as [_|]; [|lia].
  reflexivity.
Qed.

Lemma open_all_pipes_frame i n id r :
  Radio.txLog (open_all_pipes i n id r) = Radio.txLog r
  /\ Radio.writingPipe (open_all_pipes i n id r) = Radio.writingPipe r
  /\ Radio.listening (open_all_pipes i n id r) = Radio.listening r.
Proof.
  revert i r. induction n as [|n IH]; intros i r; [now repeat split|].
  cbn [open_all_pipes]. destruct (IH (i + 1)
    (Radio.openReadingPipe (i + 1) (String_of_Z (i + 1) ++ id) r))
    as (H1 & H2 & H3).
  rewrite H1, H2, H3. now repeat split.
Qed.

Lemma initRadio_txLog s :
  Radio.txLog (radio (initRadio s)) = Radio.txLog (radio s).
Proof.
  unfold initRadio. state_simpl.
  now destruct (open_all_pipes_frame 0 (Z.to_nat MAX_CHANNELS) (radioID s)
                  (Radio.setChannel DATA_CHANNEL (radio s))) as (-> & _).
Qed.

Lemma initRadio_writingPipe s :
  Radio.writingPipe (radio (initRadio s)) = Radio.writingPipe (radio s).
Proof.
  unfold initRadio. state_simpl.
  now destruct (open_all_pipes_frame 0 (Z.to_nat MAX_CHANNELS) (radioID s)
                  (Radio.setChannel DATA_CHANNEL (radio s))) as (_ & -> & _).
Qed.

Lemma checkValidAddr_length a :
  checkValidAddr a = true -> String.length a = 5%nat.
Proof.
  unfold checkValidAddr. intros H.
  rewrite <- (string_of_list_ascii_of_string a).
  destruct (list_ascii_of_string a) as [|c0 [|c1 [|c2 [|c3 [|c4 [|c5 l]]]]]];
    try discriminate. reflexivity.
Qed.

Lemma length_bytes_of_String a :
  length (bytes_of_String a) = String.length a.
Proof.
  unfold bytes_of_String, list_byte_of_string.
  induction a as [|c a IH]; cbn; [reflexivity | now rewrite IH].
Qed.

Lemma String_of_Z_digit c :
  0 <= c < MAX_CHANNELS ->
  exists d, String_of_Z (c + 1) = String d EmptyString /\ d <> "0"%char.
Proof.
  unfold MAX_CHANNELS. intros H.
  assert (Hc : c = 0 \/ c = 1 \/ c = 2 \/ c = 3 \/ c = 4) by lia.
  destruct Hc as [->|[->|[->|[->| ->]]]]; eexists; split;
    try reflexivity; discriminate.
Qed.

Lemma substring_all n (a : string) :
  String.length a = n -> substring 0 n a = a.
Proof.
  revert n. induction a as [|c a IH]; intros n Hn; cbn in Hn; subst n;
    [reflexivity|]. cbn. now rewrite IH.
Qed.

(** The two halves of a pairing address of a device with a free channel. *)
Lemma own_address_parts c s :
  0 <= c < MAX_CHANNELS -> checkValidAddr (own_address (c + 1) s) = true ->
  substring 1 4 (own_address (c + 1) s) = radioID s
  /\ String.eqb (substring 0 1 (own_address (c + 1) s)) "0" = false.
Proof.
  intros Hc Hvalid. apply checkValidAddr_length in Hvalid.
  unfold own_address in *.
  destruct (String_of_Z_digit c Hc) as (d & E & Hd). rewrite E in *.
  cbn [append] in *. cbn [String.length] in Hvalid. split.
  - cbn [substring]. apply substring_all. lia.
  - cbn [substring]. destruct (radioID s); cbn [substring];
      apply String.eqb_neq; congruence.
Qed.

Lemma decryptToStr_encryptStr iv (x : string) K e d e' d' :
  length iv = 8%nat -> x <> EmptyString -> 0 <= e < 2 ^ 32 - 1 -> d' <= e ->
  SimpleCha2.decryptToStr
    (fst (SimpleCha2.encryptStr iv x (SimpleCha2.mk K e d)))
    (SimpleCha2.mk K e' d')
  = (x, SimpleCha2.mk K e' (e + 1)).
Proof.
  intros Hiv Hx He Hd. unfold SimpleCha2.decryptToStr, SimpleCha2.encryptStr.
  rewrite encrypt_ciphertext.
  cbn [SimpleCha2.key SimpleCha2.encryptCounter].
  assert (Hu : uint32 (e + 1) = e + 1) by (apply Z.mod_small; lia).
  rewrite Hu.
  rewrite (decrypt_fresh iv (bytes_of_String x) K (e + 1))
    by (try assumption; try reflexivity; cbn; lia).
  cbn [SimpleCha2.encryptCounter].
  unfold String_of_bytes, bytes_of_String.
  rewrite string_of_list_byte_of_string.
  destruct (list_byte_of_string x) eqn:E; [|reflexivity].
  destruct x; [congruence | discriminate].
Qed.

(** What [encrypt] returns does not depend on the counter of [decrypt]. *)
Lemma encryptStr_ciphertext iv x K e d :
  fst (SimpleCha2.encryptStr iv x (SimpleCha2.mk K e d))
  = fst (SimpleCha2.encryptStr iv x (SimpleCha2.mk K e 0)).
Proof. reflexivity. Qed.

(** A ciphered address goes through a frame unharmed when it does not end
    in a zero byte. *)
Lemma ciphered_address_frame iv K c s :
  length iv = 8%nat -> checkValidAddr (own_address (c + 1) s) = true ->
  ends_nonzero (ciphered_address iv K c s) = true ->
  let payload := pad (ciphered_address iv K c s) MAX_PACKET_SIZE in
  length payload = 32%nat
  /\ unpad payload = ciphered_address iv K c s.
Proof.
  intros Hiv Hvalid Hend. cbv zeta.
  assert (Hlen : length (ciphered_address iv K c s) = 17%nat).
  { unfold ciphered_address, SimpleCha2.encryptStr.
    rewrite encrypt_length, length_bytes_of_String by exact Hiv.
    now rewrite (checkValidAddr_length _ Hvalid). }
  unfold pad, MAX_PACKET_SIZE. rewrite Hlen.
  change (Z.of_nat 17 <? 32) with true. cbv iota.
  change (Z.to_nat (32 - Z.of_nat 17)) with 15%nat. split.
  - rewrite length_app, Hlen, length_replicate. reflexivity.
  - unfold unpad. apply unpad_loop_zeros; [|exact Hend].
    rewrite length_app, length_replicate. lia.
Qed.

Lemma device_ext i s s' :
  pairedDevices s = pairedDevices s' -> device i s = device i s'.
Proof. intros H. unfold device. now rewrite H. Qed.

Lemma setPairedAddr_device address channel pk shared s :
  well_formed s -> 0 <= channel < MAX_CHANNELS ->
  x25519 pk (privateKey s) = Some shared ->
  device channel (snd (setPairedAddr address channel (Some pk) s))
  = Some (mkPairedDevice address [] shared pk (SimpleCha2.mk shared 0 0))
  /\ forall i, i <> channel ->
       device i (snd (setPairedAddr address channel (Some pk) s))
       = device i s.
Proof.
  intros Hwf Hch Hx.
  destruct (setPairedAddr_effect address channel pk shared s Hwf Hch Hx)
    as (_ & (d & Hd & Ha & Hm & Hp & Hs & Hc) & Hother & _).
  split; [|exact Hother]. rewrite Hd. f_equal.
  destruct d; cbn in *; now subst.
Qed.

Lemma bind_Some {A B} (f : A -> option B) (x : A) : Some x ≫= f = f x.
Proof. reflexivity. Qed.

Lemma on_air_delivers sender receiver frame address :
  last (Radio.txLog (radio sender)) = Some frame ->
  Radio.readingPipe 1 (radio receiver) = Some address ->
  Radio.listening (radio receiver) = true ->
  Radio.writingPipe (radio sender) = address ->
  on_air sender receiver = Some (on_radio (Radio.deliver 1 frame) receiver).
Proof.
  intros Hf Ha Hl Hw. unfold on_air. rewrite Hf, Ha, Hl, Hw.
  now rewrite String.eqb_refl.
Qed.

(** X20. Two devices pair. Device [b] has called [startPairing] and listened
    for more than [PAIRING_LISTEN_TIME]; device [a] has called [startPairing]
    and listens. Before that both were enabled and idle; each has a free
    channel, [cA] and [cB], a public key of 32 bytes, and no slot with the UID
    of the other; the secrets the two derive are the same [K]. Every frame
    written is acknowledged and reaches the other device, which ticks next;
    the ticks come more than [PAIRING_INTERVAL] after the last attempt and
    before the pairing timeout; neither ciphered address ends in a zero byte.
    Then after six ticks (of [b], which turns to transmitting, and again [b],
    then [a], [b], [a], [b]) both devices poll again. Slot [cA] of [a] holds
    the address String(cB + 1) + radioID of [b], the public key of [b] and
    [K]; slot [cB] of [b] holds String(cA + 1) + radioID of [a], the public
    key of [a] and [K]; both secure channels are keyed with [K], counters at
    0. No other slot changes, and each device listens, on the pipe of its
    channel, on the address that the other has stored. *)
Theorem pairing_handshake_completes (a b : t) (K ivA ivB : Bytes)
  (tA tB tF t1 t2 t3 t4 t5 : Z) :
  let cA := getAvailableChannel a in
  let cB := getAvailableChannel b in
  polling a -> polling b -> well_formed a -> well_formed b ->
  cA < MAX_CHANNELS -> cB < MAX_CHANNELS ->
  getPairedChannel (radioID b) a = 255 ->
  getPairedChannel (radioID a) b = 255 ->
  checkValidAddr (own_address (cA + 1) a) = true ->
  checkValidAddr (own_address (cB + 1) b) = true ->
  length (personalPublicKey a) = 32%nat ->
  length (personalPublicKey b) = 32%nat ->
  x25519 (personalPublicKey b) (privateKey a) = Some K ->
  x25519 (personalPublicKey a) (privateKey b) = Some K ->
  length ivA = 8%nat -> length ivB = 8%nat ->
  ends_nonzero (ciphered_address ivA K cA a) = true ->
  ends_nonzero (ciphered_address ivB K cB b) = true ->
  take 2 (Radio.acks (radio a)) = [true; true] ->
  take 2 (Radio.acks (radio b)) = [true; true] ->
  PAIRING_LISTEN_TIME < elapsed tF tB ->
  PAIRING_INTERVAL < elapsed t1 (lastPairingAttempt (pairing b)) ->
  elapsed t1 tF <= PAIRING_TIMEOUT ->
  PAIRING_INTERVAL < elapsed t2 (lastPairingAttempt (pairing a)) ->
  elapsed t2 tA <= PAIRING_TIMEOUT ->
  PAIRING_INTERVAL < elapsed t3 t1 ->
  elapsed t3 tF <= PAIRING_TIMEOUT ->
  exists a' b',
    handshake ivA ivB tF t1 t2 t3 t4 t5
      (snd (startPairing tA a)) (snd (startPairing tB b))
    = Some (a', b')
    /\ polling a' /\ polling b'
    /\ device cA a'
       = Some (mkPairedDevice (own_address (cB + 1) b) [] K
                 (personalPublicKey b) (SimpleCha2.mk K 0 0))
    /\ device cB b'
       = Some (mkPairedDevice (own_address (cA + 1) a) [] K
                 (personalPublicKey a) (SimpleCha2.mk K 0 0))
    /\ (forall i, i <> cA -> device i a' = device i a)
    /\ (forall i, i <> cB -> device i b' = device i b)
    /\ Radio.readingPipe (cA + 1) (radio a')
       = Some (own_address (cA + 1) a)
    /\ Radio.readingPipe (cB + 1) (radio b')
       = Some (own_address (cB + 1) b).
Proof.
  intros cA cB (HenA & HstA & HfifoA & HpsA) (HenB & HstB & HfifoB & HpsB)
    HwfA HwfB HcA HcB HnewB HnewA HvalidA HvalidB HpubA HpubB HKA HKB
    HivA HivB HendA HendB HacksA HacksB
    HtF Ht1 Ht1' Ht2 Ht2' Ht3 Ht3'.
  apply getAvailableChannel_range in HcA, HcB. fold cA in HcA. fold cB in HcB.
  destruct (own_address_parts cA a HcA HvalidA) as (HuidA & HpipeA).
  destruct (own_address_parts cB b HcB HvalidB) as (HuidB & HpipeB).
  destruct (ciphered_address_frame ivA K cA a HivA HvalidA HendA)
    as (HlenA & HunpadA).
  destruct (ciphered_address_frame ivB K cB b HivB HvalidB HendB)
    as (HlenB & HunpadB).
  assert (HtakeA : take 32 (personalPublicKey a) = personalPublicKey a)
    by (apply take_ge; lia).
  assert (HtakeB : take 32 (personalPublicKey b) = personalPublicKey b)
    by (apply take_ge; lia).
  assert (HnofullA : (MAX_CHANNELS <=? cA) = false) by (apply Z.leb_gt; lia).
  assert (HnofullB : (MAX_CHANNELS <=? cB) = false) by (apply Z.leb_gt; lia).
  assert (HroomA : (cA <? MAX_CHANNELS) = true) by (apply Z.ltb_lt; lia).
  assert (HpipeIDA : uint8 (cA + 1) = cA + 1)
    by (apply Z.mod_small; unfold MAX_CHANNELS in HcA; lia).
  assert (HpipeIDB : uint8 (cB + 1) = cB + 1)
    by (apply Z.mod_small; unfold MAX_CHANNELS in HcB; lia).
  assert (HencA : SimpleCha2.encryptStr ivA (own_address (cA + 1) a)
                    (SimpleCha2.mk K 0 1)
                  = (ciphered_address ivA K cA a, SimpleCha2.mk K 1 1))
    by reflexivity.
  assert (HencB : SimpleCha2.encryptStr ivB (own_address (cB + 1) b)
                    (SimpleCha2.mk K 0 0)
                  = (ciphered_address ivB K cB b, SimpleCha2.mk K 1 0))
    by reflexivity.
  assert (HdecA : SimpleCha2.decryptToStr (ciphered_address ivA K cA a)
                    (SimpleCha2.mk K 1 0)
                  = (own_address (cA + 1) a, SimpleCha2.mk K 1 1)).
  { apply (decryptToStr_encryptStr ivA _ K 0 0 1 0); try lia.
    intros E. rewrite E in HvalidA. discriminate. }
  assert (HdecB : SimpleCha2.decryptToStr (ciphered_address ivB K cB b)
                    (SimpleCha2.mk K 0 0)
                  = (own_address (cB + 1) b, SimpleCha2.mk K 0 1)).
  { apply (decryptToStr_encryptStr ivB _ K 0 0 0 0); try lia.
    intros E. rewrite E in HvalidB. discriminate. }
  apply Z.ltb_lt in HtF, Ht1, Ht2, Ht3.
  apply Z.leb_le in Ht1', Ht2', Ht3'.
  rewrite Z.leb_antisym in Ht1', Ht2', Ht3'.
  apply negb_true_iff in Ht1', Ht2', Ht3'.
  assert (HtFF : (PAIRING_TIMEOUT <? elapsed tF tF) = false)
    by (unfold elapsed; now rewrite Z.sub_diag).
  unfold handshake, startPairing. rewrite HenA, HstA, HenB, HstB.
  cbn [negb State_eqb snd].
  rewrite (getAvailableChannel_ext (set_currentState PAIRING_LISTEN a) a)
    by reflexivity.
  rewrite (getAvailableChannel_ext (set_currentState PAIRING_LISTEN b) b)
    by reflexivity.
  fold cA cB.
  (* the addresses and what they are ciphered to, by name; the two devices,
     field by field *)
  set (addrA := own_address (cA + 1) a) in *.
  set (addrB := own_address (cB + 1) b) in *.
  set (ctA := ciphered_address ivA K cA a) in *.
  set (ctB := ciphered_address ivB K cB b) in *.
  assert (EaddrA : (String_of_Z (cA + 1) ++ radioID a)%string = addrA)
    by reflexivity.
  assert (EaddrB : (String_of_Z (cB + 1) ++ radioID b)%string = addrB)
    by reflexivity.
  clearbody addrA addrB ctA ctB cA cB.
  destruct a as [enA [prA chA rpA wpA liA psA fifoA acksA logA]
                   stA idA devsA rxA
                   [lpaA pstA uA gkA skA gaA saA tpkA tskA tpA pcA tcA]
                   oA pubA privA].
  destruct b as [enB [prB chB rpB wpB liB psB fifoB acksB logB]
                   stB idB devsB rxB
                   [lpaB pstB uB gkB skB gaB saB tpkB tskB tpB pcB tcB]
                   oB pubB privB].
  state_simpl. subst enA stA fifoA psA enB stB fifoB psB.
  destruct acksA as [|ackA1 [|ackA2 acksA]]; try discriminate.
  injection HacksA as -> ->.
  destruct acksB as [|ackB1 [|ackB2 acksB]]; try discriminate.
  injection HacksB as -> ->.
  (* b gives up listening *)
  tick tF; [|rewrite ?bind_Some].
  { unfold handlePairing. pairing_fields.
    unfold listen_step1, is_available, Radio.available. pairing_fields.
    unfold listen_step2. pairing_fields.
    unfold listen_step3. pairing_fields.
    unfold listen_step4. pairing_fields.
    unfold listen_flip. pairing_fields. rewrite HtF. pairing_fields.
    unfold pairing_timeout. pairing_fields. rewrite HtFF. reflexivity. }
  (* b sends its public key *)
  tick t1; [|rewrite ?bind_Some].
  { unfold handlePairing. pairing_fields.
    unfold transmit_step1. pairing_fields. rewrite Ht1.
    unfold send_public_key, Radio.write. pairing_fields. cbn [tl].
    change (Z.to_nat KEY_SIZE) with 32%nat.
    change (Z.to_nat MAX_PACKET_SIZE) with 32%nat.
    rewrite HtakeB, resize_same by exact HpubB.
    unfold transmit_step2, is_available, Radio.available. pairing_fields.
    unfold transmit_step3. pairing_fields.
    unfold transmit_step4. pairing_fields.
    unfold pairing_timeout. pairing_fields. rewrite Ht1'. reflexivity. }
  erewrite on_air_delivers;
    [rewrite ?bind_Some
    |rewrite ?initRadio_txLog; apply last_snoc
    |reflexivity
    |reflexivity
    |rewrite ?initRadio_writingPipe; reflexivity].
  (* a takes it, derives the secret and answers with its own key *)
  tick t2; [|rewrite ?bind_Some].
  { unfold handlePairing. pairing_fields.
    unfold listen_step1, is_available, Radio.available. pairing_fields.
    cbn [app]. pairing_fields.
    unfold receive_public_key, Radio.read. pairing_fields.
    cbn [app]. pairing_fields.
    change (Z.to_nat KEY_SIZE) with 32%nat.
    rewrite resize_same by exact HpubB.
    unfold generateX25519SharedKey. pairing_fields. rewrite HKA.
    unfold with_tempCha. pairing_fields.
    unfold listen_step2. pairing_fields. rewrite Ht2.
    unfold send_public_key, Radio.write. pairing_fields. cbn [tl].
    change (Z.to_nat KEY_SIZE) with 32%nat.
    change (Z.to_nat MAX_PACKET_SIZE) with 32%nat.
    rewrite HtakeA, resize_same by exact HpubA.
    unfold listen_step3, is_available, Radio.available. pairing_fields.
    unfold listen_step4. pairing_fields.
    unfold listen_flip. pairing_fields.
    unfold pairing_timeout. pairing_fields. rewrite Ht2'. reflexivity. }
  erewrite on_air_delivers;
    [rewrite ?bind_Some
    |rewrite ?initRadio_txLog; apply last_snoc
    |reflexivity
    |reflexivity
    |rewrite ?initRadio_writingPipe; reflexivity].
  (* b derives the secret and sends its address *)
  tick t3; [|rewrite ?bind_Some].
  { unfold handlePairing. pairing_fields.
    unfold transmit_step1. pairing_fields.
    unfold transmit_step2, is_available, Radio.available. pairing_fields.
    cbn [app]. pairing_fields.
    unfold receive_public_key, Radio.read. pairing_fields.
    cbn [app]. pairing_fields.
    change (Z.to_nat KEY_SIZE) with 32%nat.
    rewrite resize_same by exact HpubA.
    unfold generateX25519SharedKey. pairing_fields. rewrite HKB.
    unfold with_tempCha. pairing_fields.
    rewrite HnofullB. pairing_fields. rewrite HpipeIDB.
    unfold encrypt_pairing_address, with_tempCha. pairing_fields.
    rewrite EaddrB.
    change (SimpleCha2.setKey K (SimpleCha2.new zero_key))
      with (SimpleCha2.mk K 0 0).
    rewrite HencB. pairing_fields.
    unfold transmit_step3. pairing_fields. rewrite Ht3.
    unfold Radio.write. pairing_fields.
    rewrite HlenB. change (Z.to_nat (Z.of_nat 32)) with 32%nat.
    change (Z.to_nat MAX_PACKET_SIZE) with 32%nat.
    rewrite (take_ge _ 32), resize_same by (rewrite ?HlenB; lia).
    cbn [tl]. pairing_fields.
    unfold transmit_step4, is_available, Radio.available. pairing_fields.
    unfold pairing_timeout. pairing_fields. rewrite Ht3'. reflexivity. }
  erewrite on_air_delivers;
    [rewrite ?bind_Some
    |rewrite ?initRadio_txLog; apply last_snoc
    |reflexivity
    |reflexivity
    |rewrite ?initRadio_writingPipe; reflexivity].
  (* a stores the address of b and sends its own *)
  tick t4; [|rewrite ?bind_Some].
  { unfold handlePairing. pairing_fields.
    unfold listen_step1, is_available, Radio.available. pairing_fields.
    cbn [app]. pairing_fields.
    unfold listen_step2. pairing_fields.
    unfold listen_step3, is_available, Radio.available. pairing_fields.
    cbn [app]. pairing_fields.
    unfold receive_ack, Radio.read. pairing_fields. cbn [app]. pairing_fields.
    change (Z.to_nat MAX_PACKET_SIZE) with 32%nat.
    rewrite resize_same, HunpadB by exact HlenB.
    unfold with_tempCha. pairing_fields.
    change (SimpleCha2.setKey K (SimpleCha2.new zero_key))
      with (SimpleCha2.mk K 0 0).
    rewrite HdecB, HvalidB. pairing_fields.
    rewrite HuidB, HpipeB.
    erewrite clearPairedUID_unknown; [|exact HnewB|reflexivity].
    pairing_fields. rewrite HroomA.
    erewrite setPairedAddr_exact; [|exact HcA|exact HKA].
    pairing_fields.
    unfold listen_step4. pairing_fields. rewrite HpipeIDA.
    unfold encrypt_pairing_address, with_tempCha. pairing_fields.
    rewrite EaddrA, HencA. pairing_fields.
    unfold Radio.write. pairing_fields.
    rewrite HlenA. change (Z.to_nat (Z.of_nat 32)) with 32%nat.
    change (Z.to_nat MAX_PACKET_SIZE) with 32%nat.
    rewrite (take_ge _ 32), resize_same by (rewrite ?HlenA; lia).
    cbn [tl]. pairing_fields.
    unfold abort_pairing. pairing_fields. reflexivity. }
  erewrite on_air_delivers;
    [rewrite ?bind_Some
    |rewrite ?initRadio_txLog; apply last_snoc
    |reflexivity
    |reflexivity
    |rewrite ?initRadio_writingPipe; reflexivity].
  (* b stores the address of a *)
  tick t5; [|rewrite ?bind_Some].
  { unfold handlePairing. pairing_fields.
    unfold transmit_step1. pairing_fields.
    unfold transmit_step2. pairing_fields.
    unfold transmit_step3. pairing_fields.
    unfold transmit_step4, is_available, Radio.available. pairing_fields.
    cbn [app]. pairing_fields.
    unfold receive_ack, Radio.read. pairing_fields. cbn [app]. pairing_fields.
    change (Z.to_nat MAX_PACKET_SIZE) with 32%nat.
    rewrite resize_same, HunpadA by exact HlenA.
    unfold with_tempCha. pairing_fields.
    rewrite HdecA, HvalidA. pairing_fields.
    rewrite HpipeA.
    erewrite setPairedAddr_exact; [|exact HcB|exact HKB].
    unfold abort_pairing. pairing_fields. reflexivity. }
  eexists. eexists. split; [reflexivity|].
  split; [repeat split|]. split; [repeat split|].
  rewrite (device_initRadio cA), (device_initRadio cB).
  split.
  { apply (setPairedAddr_device addrB cA pubB K);
      [exact HwfA | exact HcA | exact HKA]. }
  split.
  { apply (setPairedAddr_device addrA cB pubA K);
      [exact HwfB | exact HcB | exact HKB]. }
  split.
  { intros i Hi. rewrite device_initRadio.
    match goal with
    | |- context [setPairedAddr addrB cA _ ?s] =>
        transitivity (device i s); [|apply device_ext; reflexivity];
        exact (proj2 (setPairedAddr_device addrB cA pubB K s HwfA HcA HKA)
                 i Hi)
    end. }
  split.
  { intros i Hi. rewrite device_initRadio.
    match goal with
    | |- context [setPairedAddr addrA cB _ ?s] =>
        transitivity (device i s); [|apply device_ext; reflexivity];
        exact (proj2 (setPairedAddr_device addrA cB pubA K s HwfB HcB HKB)
                 i Hi)
    end. }
  split.
  - match goal with
    | |- Radio.readingPipe _ (radio (initRadio ?x)) = _ =>
        pose proof (initRadio_pipes x cA HcA) as Hp
    end.
    unfold own_address in Hp. pairing_fields. now rewrite <- EaddrA.
  - match goal with
    | |- Radio.readingPipe _ (radio (initRadio ?x)) = _ =>
        pose proof (initRadio_pipes x cB HcB) as Hp
    end.
    unfold own_address in Hp. now rewrite <- EaddrB.
Qed.

End Handshake.

(** ** RadioManager.cpp: fragments that do not arrive *)

Section Lost.
Context {crypto : Crypto} {codec : JsonCodec}.
Import RadioManager.

(** A tick that finds fragment [k] of [M], in full. *)
Lemma loop_data_frame M (k : nat) now iv pipe s :
  polling s -> Z.of_nat k < fragment_count M -> fragment_count M <= 65536 ->
  ends_nonzero (chunk M k) = true ->
  loop now iv (on_radio (Radio.deliver pipe (fragment M k)) s)
  = let code := if (k =? 0)%nat then START_CODE else CONTINUE_CODE in
    let index := fragment_count M - 1 - Z.of_nat k in
    let r := accept_fragment now code index (chunk M k) (rx s) in
    let hw := snd (Radio.read MAX_PACKET_SIZE
                     (Radio.deliver pipe (fragment M k) (radio s))) in
    let s1 := set_rx r (set_radio hw
                (set_currentState RECEIVING
                   (on_pairing (set_tempCha None)
                      (on_radio (Radio.deliver pipe (fragment M k)) s)))) in
    s2 ← (if index =? 0 then
            s3 ← (if receivedFragments r =? expectedFragments r
                  then store_message (uint8 (pipe - 1)) (rxBuffer r) s1
                  else Some s1);
            Some (set_rx (reset_rx (rx s3)) s3)
          else Some s1);
    Some (set_currentState IDLE (expire_partial now s2)).
Proof.
  intros (Hen & Hst & Hfifo & Hps) Hk HF Hend.
  unfold loop. state_simpl. rewrite Hen, Hst. cbn [negb].
  unfold Radio.available. state_simpl. rewrite Hfifo. cbn [app].
  unfold receiveData. state_simpl. rewrite Hen, Hps. cbn [negb].
  change ((HEADER_SIZE <=? MAX_PACKET_SIZE) && (MAX_PACKET_SIZE <=? NRF_BUF_SIZE))
    with true. cbn iota.
  unfold Radio.read. state_simpl. rewrite Hfifo. cbn [app].
  rewrite resize_same by apply fragment_length.
  rewrite unpad_fragment by exact Hend.
  set (code := if (k =? 0)%nat then START_CODE else CONTINUE_CODE).
  set (idx := fragment_count M - 1 - Z.of_nat k).
  change (read_header (code :: le16_bytes idx ++ chunk M k))
    with (Some (code, le_Z (le16_bytes idx))).
  change (drop (Z.to_nat HEADER_SIZE) (code :: le16_bytes idx ++ chunk M k))
    with (chunk M k).
  rewrite le_Z_le16_bytes by (change (2 ^ 16) with 65536; subst idx; lia).
  cbn [mbind option_bind]. reflexivity.
Qed.

Lemma length_succ_snoc_inv {A} (l : list A) (n : nat) :
  length l = (n + 1)%nat -> exists l' x, l = l' ++ [x] /\ length l' = n.
Proof.
  intros H. destruct l as [|x l] using rev_ind; [cbn in H; lia|].
  rewrite length_app in H. cbn in H. exists l, x. split; [reflexivity|lia].
Qed.

Lemma not_expired now : (RECEIVE_TIMEOUT <? elapsed now now) = false.
Proof. unfold elapsed. now rewrite Z.sub_diag. Qed.

(** A tick that finds a continuation fragment, not the last one: it is
    appended and counted, whatever was there. *)
Lemma loop_continuation M (k : nat) e n now iv pipe s :
  polling s -> counting e n s -> 0 <= n < MAX_PACKETS_RCV ->
  (1 <= k)%nat -> Z.of_nat (S k) < fragment_count M ->
  fragment_count M <= 65536 -> ends_nonzero (chunk M k) = true ->
  exists s',
    loop now iv (on_radio (Radio.deliver pipe (fragment M k)) s) = Some s'
    /\ polling s' /\ counting e (n + 1) s'
    /\ rxBuffer (rx s') = rxBuffer (rx s) ++ chunk M k
    /\ pairedDevices s' = pairedDevices s.
Proof.
  intros Hpoll [He Hn] Hrange Hk1 Hk HF Hend.
  rewrite loop_data_frame by (assumption || lia). cbv zeta.
  destruct Hpoll as (Hen & Hst & Hfifo & Hps).
  destruct k as [|k]; [lia|]. cbn [Nat.eqb].
  destruct (Z.eqb_spec (fragment_count M - 1 - Z.of_nat (S k)) 0); [lia|].
  cbn [mbind option_bind]. eexists. split; [reflexivity|].
  unfold accept_fragment.
  change (Byte.eqb CONTINUE_CODE START_CODE) with false. cbv iota.
  rewrite Hn. destruct (Z.ltb_spec n MAX_PACKETS_RCV); [|lia].
  unfold expire_partial, Radio.read. state_simpl. rewrite Hfifo. cbn [app snd].
  state_simpl. rewrite not_expired.
  unfold MAX_PACKETS_RCV in *.
  assert (Hu : uint16 (n + 1) = n + 1)
    by (unfold uint16; rewrite Z.mod_small; lia).
  destruct (rxBuffer (rx s) ++ chunk M (S k)) eqn:Eb; state_simpl;
    rewrite ?Eb; repeat split; assumption.
Qed.

(** A tick that finds the first fragment of a longer message: it starts
    the count afresh. *)
Lemma loop_start M now iv pipe s :
  polling s -> 1 < fragment_count M ->
  fragment_count M <= MAX_PACKETS_RCV ->
  ends_nonzero (chunk M 0) = true ->
  exists s',
    loop now iv (on_radio (Radio.deliver pipe (fragment M 0)) s) = Some s'
    /\ polling s' /\ counting (fragment_count M) 1 s'
    /\ rxBuffer (rx s') = chunk M 0
    /\ pairedDevices s' = pairedDevices s.
Proof.
  intros Hpoll HF1 HF Hend. unfold MAX_PACKETS_RCV in HF.
  rewrite loop_data_frame by (assumption || lia). cbv zeta.
  destruct Hpoll as (Hen & Hst & Hfifo & Hps). cbn [Nat.eqb].
  destruct (Z.eqb_spec (fragment_count M - 1 - Z.of_nat 0) 0); [lia|].
  cbn [mbind option_bind]. eexists. split; [reflexivity|].
  unfold accept_fragment.
  change (Byte.eqb START_CODE START_CODE) with true. cbv iota. state_simpl.
  change (0 <? MAX_PACKETS_RCV) with true. cbv iota.
  unfold expire_partial, Radio.read. state_simpl. rewrite Hfifo. cbn [app snd].
  state_simpl. rewrite not_expired.
  assert (Hu : uint16 (fragment_count M - 1 - Z.of_nat 0 + 1)
               = fragment_count M)
    by (unfold uint16; rewrite Z.mod_small; lia).
  destruct (chunk M 0) eqn:Eb; state_simpl;
    rewrite ?Eb; repeat split; assumption.
Qed.

(** A tick that finds the last fragment of a longer message while the
    count does not add up: everything is dropped. *)
Lemma loop_last_mismatch M (k : nat) e n now iv pipe s :
  polling s -> counting e n s -> 0 <= n < MAX_PACKETS_RCV ->
  (1 <= k)%nat -> Z.of_nat (S k) = fragment_count M ->
  fragment_count M <= 65536 -> ends_nonzero (chunk M k) = true ->
  n + 1 <> e ->
  exists s',
    loop now iv (on_radio (Radio.deliver pipe (fragment M k)) s) = Some s'
    /\ polling s' /\ between_messages s'
    /\ pairedDevices s' = pairedDevices s.
Proof.
  intros Hpoll [He Hn] Hrange Hk1 Hk HF Hend Hne.
  rewrite loop_data_frame by (assumption || lia). cbv zeta.
  destruct Hpoll as (Hen & Hst & Hfifo & Hps).
  destruct k as [|k]; [lia|]. cbn [Nat.eqb].
  destruct (Z.eqb_spec (fragment_count M - 1 - Z.of_nat (S k)) 0); [|lia].
  unfold accept_fragment.
  change (Byte.eqb CONTINUE_CODE START_CODE) with false. cbv iota.
  rewrite Hn. destruct (Z.ltb_spec n MAX_PACKETS_RCV); [|lia].
  state_simpl. unfold MAX_PACKETS_RCV in *.
  assert (Hu : uint16 (n + 1) = n + 1)
    by (unfold uint16; rewrite Z.mod_small; lia).
  rewrite Hu, He. destruct (Z.eqb_spec (n + 1) e); [contradiction|].
  cbn [mbind option_bind]. eexists. split; [reflexivity|].
  unfold expire_partial, Radio.read. state_simpl. rewrite Hfifo. cbn [app snd].
  state_simpl. repeat split; assumption.
Qed.

Lemma receive_frames_app iv pipe a1 a2 s :
  receive_frames iv pipe (a1 ++ a2) s
  = (s' ← receive_frames iv pipe a1 s; receive_frames iv pipe a2 s').
Proof.
  revert s. induction a1 as [|[now f] a1 IH]; intros s; [reflexivity|].
  cbn [app receive_frames].
  destruct (loop now iv _) as [s1|]; cbn [mbind option_bind];
    [apply IH | reflexivity].
Qed.

(** Continuation fragments [k .. k+m-1], none of them the last. *)
Lemma receive_continuations M iv pipe (m : nat) :
  forall (k : nat) nows s e n,
    polling s -> counting e n s -> 0 <= n ->
    n + Z.of_nat m <= MAX_PACKETS_RCV ->
    (1 <= k)%nat -> Z.of_nat (k + m) < fragment_count M ->
    fragment_count M <= 65536 -> payloads_end_nonzero M = true ->
    length nows = m ->
    exists s',
      receive_frames iv pipe (zip nows (map (fragment M) (seq k m))) s
      = Some s'
      /\ polling s' /\ counting e (n + Z.of_nat m) s'
      /\ pairedDevices s' = pairedDevices s.
Proof.
  induction m as [|m IH]; intros k [|now nows] s e n Hpoll Hcnt Hn Hmax Hk1
    Hk HF Hends Hlen; try discriminate.
  - exists s. cbn [seq map zip zip_with receive_frames]. rewrite Z.add_0_r.
    split; [reflexivity|]. split; [assumption|]. split; [assumption|].
    reflexivity.
  - cbn [seq map zip zip_with receive_frames].
    destruct (loop_continuation M k e n now iv pipe s Hpoll Hcnt)
      as (s1 & Hloop & Hpoll1 & Hcnt1 & _ & Hd1); try lia.
    { apply payloads_end_nonzero_chunk; [assumption | lia]. }
    rewrite Hloop. cbn [mbind option_bind].
    destruct (IH (S k) nows s1 e (n + 1) Hpoll1 Hcnt1)
      as (s' & Hrun & Hpoll' & Hcnt' & Hd'); try assumption; try lia.
    { cbn [length] in Hlen. lia. }
    exists s'. split; [exact Hrun|]. split; [exact Hpoll'|].
    split; [|congruence].
    replace (n + Z.of_nat (S m)) with (n + 1 + Z.of_nat m) by lia.
    exact Hcnt'.
Qed.

(** The fragments of a message from [k] to the last one, when the count
    they find does not lead to the expected one. *)
Lemma receive_tail_mismatch M iv pipe (k : nat) nows s e n :
  polling s -> counting e n s -> 0 <= n ->
  (1 <= k)%nat -> Z.of_nat k < fragment_count M ->
  n + (fragment_count M - Z.of_nat k) <= MAX_PACKETS_RCV ->
  n + (fragment_count M - Z.of_nat k) <> e ->
  fragment_count M <= 65536 -> payloads_end_nonzero M = true ->
  length nows = (Z.to_nat (fragment_count M) - k)%nat ->
  exists s',
    receive_frames iv pipe
      (zip nows (map (fragment M)
                   (seq k (Z.to_nat (fragment_count M) - k)))) s
    = Some s'
    /\ polling s' /\ between_messages s'
    /\ pairedDevices s' = pairedDevices s.
Proof.
  intros Hpoll Hcnt Hn Hk1 Hk Hmax Hne HF Hends Hlen.
  set (F := Z.to_nat (fragment_count M)) in *.
  assert (HFk : (F - k = (F - 1 - k) + 1)%nat) by lia.
  rewrite HFk in *. rewrite seq_app, map_app.
  destruct (length_succ_snoc_inv nows (F - 1 - k)) as (l1 & t & -> & Hl1);
    [lia|].
  rewrite zip_with_app by (rewrite length_map, length_seq; exact Hl1).
  rewrite receive_frames_app.
  destruct (receive_continuations M iv pipe (F - 1 - k) k l1 s e n Hpoll Hcnt)
    as (s1 & Hrun & Hpoll1 & Hcnt1 & Hd1); try assumption; try lia.
  rewrite Hrun. cbn [mbind option_bind seq map zip zip_with receive_frames].
  destruct (loop_last_mismatch M (k + (F - 1 - k)) e
              (n + Z.of_nat (F - 1 - k)) t iv pipe s1 Hpoll1 Hcnt1)
    as (s' & Hloop & Hpoll' & Hbet & Hd'); try assumption; try lia.
  { apply payloads_end_nonzero_chunk; [assumption | lia]. }
  rewrite Hloop. cbn [mbind option_bind]. exists s'.
  split; [reflexivity|]. split; [assumption|]. split; [assumption|].
  congruence.
Qed.

(** The first [j] fragments of a longer message. *)
Lemma receive_prefix M iv pipe (j : nat) nows s :
  polling s -> (1 <= j)%nat -> Z.of_nat j < fragment_count M ->
  fragment_count M <= MAX_PACKETS_RCV -> payloads_end_nonzero M = true ->
  length nows = j ->
  exists s',
    receive_frames iv pipe (zip nows (map (fragment M) (seq 0 j))) s
    = Some s'
    /\ polling s' /\ counting (fragment_count M) (Z.of_nat j) s'
    /\ pairedDevices s' = pairedDevices s.
Proof.
  intros Hpoll Hj1 Hj HF Hends Hlen.
  destruct j as [|j]; [lia|]. destruct nows as [|now nows]; [discriminate|].
  cbn [seq map zip zip_with receive_frames].
  destruct (loop_start M now iv pipe s Hpoll ltac:(lia) HF)
    as (s1 & Hloop & Hpoll1 & Hcnt1 & _ & Hd1).
  { apply payloads_end_nonzero_chunk; [assumption | lia]. }
  rewrite Hloop. cbn [mbind option_bind]. unfold MAX_PACKETS_RCV in HF.
  destruct (receive_continuations M iv pipe j 1 nows s1 (fragment_count M) 1
              Hpoll1 Hcnt1)
    as (s' & Hrun & Hpoll' & Hcnt' & Hd'); try assumption;
    try (unfold MAX_PACKETS_RCV; lia).
  { cbn [length] in Hlen. lia. }
  exists s'. split; [exact Hrun|]. split; [exact Hpoll'|].
  split; [|congruence].
  replace (Z.of_nat (S j)) with (1 + Z.of_nat j) by lia. exact Hcnt'.
Qed.

(** X18. A message that loses a fragment. The fragments of a message reach a
    polling receiver that is between two messages, one per tick and in order,
    but for one that is lost. Then no mailbox changes and the receiver polls
    again; unless the fragment lost is the last one, the receiver is between
    two messages again. No fragment payload ends in a zero byte. *)
Theorem lost_fragment_not_delivered (M : Bytes) (receiver : t) (pipe : Z)
  (j : nat) (nows : list Z) (iv : Bytes) :
  let F := Z.to_nat (fragment_count M) in
  Z.of_nat (length M) <= MAX_MSG_SIZE + SimpleCha2.NONCE_SIZE ->
  payloads_end_nonzero M = true ->
  polling receiver -> between_messages receiver ->
  (j < F)%nat -> length nows = (F - 1)%nat ->
  let frames := delete j (map (fragment M) (seq 0 F)) in
  exists receiver',
    receive_frames iv pipe (zip nows frames) receiver = Some receiver'
    /\ pairedDevices receiver' = pairedDevices receiver
    /\ polling receiver'
    /\ ((S j < F)%nat -> between_messages receiver').
Proof.
  intros F Hsize Hends Hpoll Hbet Hj Hlen frames.
  pose proof (fragment_count_bound M Hsize) as HF.
  assert (Hframes : frames = map (fragment M) (seq 0 j)
                             ++ map (fragment M) (seq (S j) (F - S j))).
  { subst frames. rewrite delete_take_drop, <- fmap_take, <- fmap_drop.
    rewrite take_seq, drop_seq. do 3 f_equal; lia. }
  rewrite Hframes.
  assert (Hnows : nows = take j nows ++ drop j nows)
    by (symmetry; apply take_drop).
  rewrite Hnows.
  rewrite zip_with_app
    by (rewrite length_map, length_seq, length_take; lia).
  rewrite receive_frames_app.
  assert (Hcnt0 : counting 0 0 receiver) by (split; apply Hbet).
  destruct (Nat.eq_dec j 0%nat) as [->|Hj0].
  - (* the first fragment is lost *)
    cbn [seq map take zip zip_with receive_frames mbind option_bind].
    rewrite drop_0.
    destruct (Nat.eq_dec F 1%nat) as [E1|HF1].
    + rewrite E1 in *. destruct nows; [|discriminate].
      exists receiver. cbn. split; [reflexivity|]. split; [reflexivity|].
      split; [exact Hpoll|]. intros Hbad. lia.
    + destruct (receive_tail_mismatch M iv pipe 1 nows receiver 0 0
                  Hpoll Hcnt0)
        as (s' & Hrun & Hpoll' & Hbet' & Hd'); try assumption;
        try (unfold MAX_PACKETS_RCV; lia).
      exists s'. split; [exact Hrun|]. split; [exact Hd'|].
      split; [exact Hpoll'|]. intros _. exact Hbet'.
  - destruct (receive_prefix M iv pipe j (take j nows) receiver Hpoll)
      as (s1 & Hrun1 & Hpoll1 & Hcnt1 & Hd1); try assumption;
      try (unfold MAX_PACKETS_RCV; lia).
    { rewrite length_take. lia. }
    rewrite Hrun1. cbn [mbind option_bind].
    destruct (Nat.eq_dec (S j) F) as [Elast|Hmid].
    + (* the last fragment is lost *)
      rewrite Elast, Nat.sub_diag.
      cbn [seq map]. rewrite zip_with_nil_r. cbn [receive_frames].
      exists s1. split; [reflexivity|]. split; [exact Hd1|].
      split; [exact Hpoll1|]. intros Hbad. lia.
    + destruct (receive_tail_mismatch M iv pipe (S j) (drop j nows) s1
                  (fragment_count M) (Z.of_nat j) Hpoll1 Hcnt1)
        as (s' & Hrun & Hpoll' & Hbet' & Hd'); try assumption;
        try (unfold MAX_PACKETS_RCV; lia).
      { rewrite length_drop. lia. }
      exists s'. split; [exact Hrun|]. split; [congruence|].
      split; [exact Hpoll'|]. intros _. exact Hbet'.
Qed.

(** A tick that finds the last fragment of a longer message while the
    count adds up: what the buffer holds, then the fragment, is stored. *)
Lemma loop_last_match M (k : nat) n now iv pipe s :
  polling s -> counting (n + 1) n s -> 0 <= n < MAX_PACKETS_RCV ->
  (1 <= k)%nat -> Z.of_nat (S k) = fragment_count M ->
  fragment_count M <= 65536 -> ends_nonzero (chunk M k) = true ->
  exists s_mid,
    pairedDevices s_mid = pairedDevices s
    /\ isEnabled s_mid = true
    /\ Radio.rxFifo (radio s_mid) = []
    /\ Radio.payloadSize (radio s_mid) = MAX_PACKET_SIZE
    /\ loop now iv (on_radio (Radio.deliver pipe (fragment M k)) s)
       = (s1 ← store_message (uint8 (pipe - 1))
                 (rxBuffer (rx s) ++ chunk M k) s_mid;
          Some (finish_receive s1)).
Proof.
  intros Hpoll [He Hn] Hrange Hk1 Hk HF Hend.
  rewrite loop_data_frame by (assumption || lia). cbv zeta.
  destruct Hpoll as (Hen & Hst & Hfifo & Hps).
  destruct k as [|k]; [lia|]. cbn [Nat.eqb].
  destruct (Z.eqb_spec (fragment_count M - 1 - Z.of_nat (S k)) 0); [|lia].
  unfold accept_fragment.
  change (Byte.eqb CONTINUE_CODE START_CODE) with false. cbv iota.
  rewrite Hn. destruct (Z.ltb_spec n MAX_PACKETS_RCV); [|lia].
  state_simpl. unfold MAX_PACKETS_RCV in *.
  assert (Hu : uint16 (n + 1) = n + 1)
    by (unfold uint16; rewrite Z.mod_small; lia).
  rewrite Hu, He, Z.eqb_refl.
  match goal with
  | |- context [store_message _ _ ?x] => exists x
  end.
  unfold Radio.read. state_simpl. rewrite Hfifo. cbn [app snd]. state_simpl.
  repeat split; try assumption.
  destruct (store_message _ _ _) as [s1|] eqn:Es; cbn [mbind option_bind];
    [|reflexivity].
  unfold expire_partial, finish_receive. state_simpl. reflexivity.
Qed.

(** The first [m] fragments after [k], none of them the last, with the
    buffer they build. *)
Lemma receive_partial M iv pipe (m : nat) :
  forall (k : nat) nows s,
    polling s -> reassembling M k s ->
    Z.of_nat (k + m) < fragment_count M ->
    fragment_count M <= MAX_PACKETS_RCV -> payloads_end_nonzero M = true ->
    length nows = m ->
    exists s',
      receive_frames iv pipe (zip nows (map (fragment M) (seq k m))) s
      = Some s'
      /\ polling s' /\ reassembling M (k + m) s'
      /\ pairedDevices s' = pairedDevices s.
Proof.
  induction m as [|m IH]; intros k [|now nows] s Hpoll Hre Hk HF Hends Hlen;
    try discriminate.
  - exists s. cbn [seq map zip zip_with receive_frames]. rewrite Nat.add_0_r.
    split; [reflexivity|]. split; [assumption|]. split; [assumption|].
    reflexivity.
  - cbn [seq map zip zip_with receive_frames].
    destruct (loop_fragment M k now iv pipe s Hpoll Hre)
      as (s1 & Hloop & Hpoll1 & Hre1 & Hd1); try assumption; try lia.
    { apply payloads_end_nonzero_chunk; [assumption | lia]. }
    rewrite Hloop. cbn [mbind option_bind].
    destruct (IH (S k) nows s1 Hpoll1 Hre1) as (s' & Hrun & Hpoll' & Hre' & Hd');
      try assumption; try lia.
    { cbn [length] in Hlen. lia. }
    exists s'. split; [exact Hrun|]. split; [exact Hpoll'|].
    replace (k + S m)%nat with (S k + m)%nat by lia.
    split; [exact Hre' | congruence].
Qed.

(** X19. Fragments of two messages. The receiver counts fragments and does not
    tell messages apart: when all the fragments of a message but the last have
    arrived, and then the last fragment of a two-fragment message, the count
    is the one the first message announced, and the receiver processes as one
    complete message the bytes received of the first followed by the last
    payload of the second. *)
Theorem fragments_of_two_messages_spliced (M1 M2 : Bytes) (receiver : t)
  (pipe : Z) (nows : list Z) (iv : Bytes) :
  let F1 := Z.to_nat (fragment_count M1) in
  2 <= fragment_count M1 <= MAX_PACKETS_RCV -> fragment_count M2 = 2 ->
  payloads_end_nonzero M1 = true -> payloads_end_nonzero M2 = true ->
  polling receiver -> well_formed receiver -> 1 <= pipe <= MAX_CHANNELS ->
  length nows = F1 ->
  let frames := map (fragment M1) (seq 0 (F1 - 1)) ++ [fragment M2 1] in
  let spliced := take (29 * (F1 - 1)) M1 ++ chunk M2 1 in
  exists receiver',
    receive_frames iv pipe (zip nows frames) receiver = Some receiver'
    /\ Some (pairedDevices receiver')
       = pairedDevices <$> store_message (pipe - 1) spliced receiver
    /\ polling receiver'.
Proof.
  intros F1 HF1 HF2 Hends1 Hends2 Hpoll Hwf Hpipe Hlen frames spliced.
  subst frames spliced.
  destruct (length_succ_snoc_inv nows (F1 - 1)) as (l1 & t2 & -> & Hl1); [lia|].
  rewrite zip_with_app by (rewrite length_map, length_seq; exact Hl1).
  rewrite receive_frames_app.
  destruct (receive_partial M1 iv pipe (F1 - 1) 0 l1 receiver Hpoll)
    as (s1 & Hrun1 & Hpoll1 & Hre1 & Hd1); try assumption; try lia;
    [now left|].
  rewrite Hrun1. cbn [mbind option_bind zip zip_with receive_frames].
  cbn [Nat.add] in Hre1. destruct Hre1 as [E0 | (Hbuf & Hexp & Hrcv)]; [lia|].
  unfold MAX_PACKETS_RCV in HF1.
  destruct (loop_last_match M2 1 (Z.of_nat (F1 - 1)) t2 iv pipe s1 Hpoll1)
    as (s_mid & Hd & Hen & Hfifo & Hps & Hloop); try lia.
  { split; [rewrite Hexp; lia | exact Hrcv]. }
  { unfold MAX_PACKETS_RCV. lia. }
  { apply payloads_end_nonzero_chunk; [assumption | lia]. }
  rewrite Hloop, Hbuf.
  assert (Hch : uint8 (pipe - 1) = pipe - 1).
  { unfold uint8, MAX_CHANNELS in *. rewrite Z.mod_small; lia. }
  rewrite Hch.
  destruct (store_message_defined (pipe - 1)
              (take (29 * (F1 - 1)) M1 ++ chunk M2 1) s_mid) as [s2 Hs2].
  { rewrite Hd, Hd1. apply lookup_lt_is_Some_2. rewrite Hwf.
    unfold MAX_CHANNELS in *. lia. }
  rewrite Hs2. cbn [mbind option_bind]. eexists. split; [reflexivity|].
  destruct (store_message_directory _ _ _ _ Hs2) as (devs & -> & Hother).
  rewrite (Hother receiver) by (now rewrite Hd, Hd1).
  unfold finish_receive. state_simpl. cbn [fmap option_fmap option_map].
  repeat split; assumption.
Qed.

End Lost.


(** ** dfs.h: the example application *)


Section AppProps.
Context {crypto : Crypto} {codec : JsonCodec}.
Import RadioManager App.

(** ** The radio ID *)

Lemma zeros_shift (n : nat) (tempID : string) :
  (string_of_list_ascii (replicate n "0"%char) ++ String "0" tempID)%string
  = (string_of_list_ascii (replicate (S n) "0"%char) ++ tempID)%string.
Proof.
  induction n as [|n IH]; [reflexivity|].
  cbn [replicate string_of_list_ascii append] in *. now rewrite IH.
Qed.

Lemma left_pad_0_spec (n : nat) (tempID : string) :
  left_pad_0 n tempID
  = (string_of_list_ascii (replicate n "0"%char) ++ tempID)%string.
Proof.
  revert tempID. induction n as [|n IH]; intros tempID; [reflexivity|].
  cbn [left_pad_0]. rewrite IH. apply zeros_shift.
Qed.

Lemma length_append (a b : string) :
  String.length (a ++ b) = (String.length a + String.length b)%nat.
Proof. induction a as [|c a IH]; cbn; [reflexivity | now rewrite IH]. Qed.

Lemma length_string_of_list_ascii (l : list ascii) :
  String.length (string_of_list_ascii l) = length l.
Proof. induction l as [|c l IH]; cbn; [reflexivity | now rewrite IH]. Qed.

Lemma length_substring (n m : nat) (s : string) :
  (n + m <= String.length s)%nat -> String.length (substring n m s) = m.
Proof.
  revert n m. induction s as [|c s IH]; intros n m H.
  - cbn in H. destruct n, m; cbn; lia.
  - destruct n as [|n].
    + destruct m as [|m]; [reflexivity|]. cbn [substring String.length].
      f_equal. apply (IH 0%nat). cbn in H |- *. lia.
    + cbn [substring]. apply IH. cbn in H. lia.
Qed.

(** X21. The radio ID has four characters. The constructor puts "0" in front
    of a shorter identifier until it has four and keeps the first four of a
    longer one; [getRadioID] returns the result. *)
Theorem radio_id_has_four_characters (hw : Radio.t) (radio_id : string)
  (keys : Bytes * Bytes) :
  let s := new hw radio_id keys in
  String.length (getRadioID s) = 4%nat
  /\ ((String.length radio_id <= 4)%nat ->
      getRadioID s
      = (string_of_list_ascii
           (replicate (4 - String.length radio_id) "0"%char)
         ++ radio_id)%string)
  /\ ((4 <= String.length radio_id)%nat ->
      getRadioID s = substring 0 4 radio_id).
Proof.
  cbv zeta. unfold getRadioID, new. cbn [radioID]. unfold adjust_radio_id.
  cbv zeta.
  destruct (Nat.ltb_spec (String.length radio_id) 4) as [Hlt|Hge].
  - rewrite left_pad_0_spec. split; [|split].
    + rewrite length_append, length_string_of_list_ascii, length_replicate.
      lia.
    + reflexivity.
    + lia.
  - destruct (Nat.ltb_spec 4 (String.length radio_id)) as [Hgt|Hle].
    + split; [apply length_substring; lia|]. split; [lia | reflexivity].
    + assert (Hlen : String.length radio_id = 4%nat) by lia.
      split; [exact Hlen|]. split.
      * intros _. rewrite Hlen. reflexivity.
      * intros _. destruct radio_id as [|c0 [|c1 [|c2 [|c3 [|c4 r]]]]];
          try discriminate. reflexivity.
Qed.

Lemma hex02X_alnum (b : byte) :
  exists c1 c2, hex02X b = String c1 (String c2 EmptyString)
                /\ isAlphaNumeric c1 = true /\ isAlphaNumeric c2 = true.
Proof.
  unfold hex02X. do 2 eexists. split; [reflexivity|].
  destruct b; split; vm_compute; reflexivity.
Qed.

(** X22. The addresses a device gives out pass [checkValidAddr]. The
    constructor keeps the identifier that [getESP32UID] makes of a MAC
    address, and String(pipeID) + radioID is then a valid address for every
    pipeID from 0 to [MAX_CHANNELS], the addresses that the pairing steps
    send. *)
Theorem pairing_addresses_are_valid (baseMac : Bytes) (hw : Radio.t)
  (keys : Bytes * Bytes) (pipeID : Z) :
  0 <= pipeID <= MAX_CHANNELS ->
  let s := new hw (getESP32UID baseMac) keys in
  getRadioID s = getESP32UID baseMac
  /\ checkValidAddr (String_of_Z pipeID ++ getRadioID s) = true.
Proof.
  intros Hp. cbv zeta. unfold getRadioID, new. cbn [radioID].
  unfold getESP32UID.
  destruct (hex02X_alnum (nth 4 baseMac x00)) as (a1 & a2 & -> & Ha1 & Ha2).
  destruct (hex02X_alnum (nth 5 baseMac x00)) as (b1 & b2 & -> & Hb1 & Hb2).
  cbn [append]. unfold adjust_radio_id. cbn [String.length Nat.ltb Nat.leb].
  split; [reflexivity|].
  assert (Hcases : pipeID = 0 \/ pipeID = 1 \/ pipeID = 2 \/ pipeID = 3
                   \/ pipeID = 4 \/ pipeID = 5)
    by (unfold MAX_CHANNELS in Hp; lia).
  assert (Hdigit : exists c0,
            String_of_Z pipeID = String c0 EmptyString
            /\ ((Z.of_N (N_of_ascii c0) <? 48)
                || (53 <? Z.of_N (N_of_ascii c0))) = false).
  { destruct Hcases as [-> | [-> | [-> | [-> | [-> | ->]]]]];
      eexists; split; reflexivity. }
  destruct Hdigit as (c0 & -> & Hc0).
  unfold checkValidAddr.
  cbn [append list_ascii_of_string forallb]. cbv zeta.
  rewrite Hc0, Ha1, Ha2, Hb1, Hb2. reflexivity.
Qed.

(** ** A disabled manager *)

Lemma clearMessages_enabled i s :
  isEnabled (clearMessages i s) = isEnabled s.
Proof. unfold clearMessages. now destruct (_ <? _). Qed.

Lemma clear_all_messages_enabled n i s :
  isEnabled (clear_all_messages i n s) = isEnabled s.
Proof.
  revert i s. induction n as [|n IH]; intros i s; [reflexivity|].
  cbn [clear_all_messages]. now rewrite IH, clearMessages_enabled.
Qed.

Lemma clear_all_messages_lookup n :
  forall i s (j : nat), 0 <= i ->
    pairedDevices (clear_all_messages i n s) !! j
    = (fun d => if (Z.to_nat i <=? j)%nat && (j <? Z.to_nat i + n)%nat
                   && (Z.of_nat j <? MAX_CHANNELS)
                then set_mailbox [] d else d) <$> pairedDevices s !! j.
Proof.
  induction n as [|n IH]; intros i s j Hi.
  - cbn [clear_all_messages].
    destruct (pairedDevices s !! j) as [d|]; [|reflexivity].
    cbn [fmap option_fmap option_map]. f_equal.
    destruct (Nat.leb_spec (Z.to_nat i) j);
      destruct (Nat.ltb_spec j (Z.to_nat i + 0)); cbn; try reflexivity; lia.
  - cbn [clear_all_messages]. rewrite IH by lia.
    unfold clearMessages.
    destruct (Z.ltb_spec i MAX_CHANNELS) as [Hlt|Hge].
    + unfold on_device. state_simpl.
      destruct (Nat.eq_dec j (Z.to_nat i)) as [->|Hne].
      * rewrite list_lookup_alter_eq.
        destruct (pairedDevices s !! Z.to_nat i) as [d|]; [|reflexivity].
        cbn [fmap option_fmap option_map].
        destruct (Nat.leb_spec (Z.to_nat (i + 1)) (Z.to_nat i)); [lia|].
        destruct (Nat.leb_spec (Z.to_nat i) (Z.to_nat i)); [|lia].
        destruct (Nat.ltb_spec (Z.to_nat i) (Z.to_nat i + S n)); [|lia].
        destruct (Z.ltb_spec (Z.of_nat (Z.to_nat i)) MAX_CHANNELS); [|lia].
        reflexivity.
      * rewrite list_lookup_alter_ne by congruence.
        destruct (pairedDevices s !! j) as [d|]; [|reflexivity].
        cbn [fmap option_fmap option_map]. f_equal.
        destruct (Nat.leb_spec (Z.to_nat (i + 1)) j);
          destruct (Nat.leb_spec (Z.to_nat i) j);
          destruct (Nat.ltb_spec j (Z.to_nat (i + 1) + n));
          destruct (Nat.ltb_spec j (Z.to_nat i + S n));
          cbn [andb]; try reflexivity; lia.
    + destruct (pairedDevices s !! j) as [d|]; [|reflexivity].
      cbn [fmap option_fmap option_map]. f_equal.
      destruct (Z.ltb_spec (Z.of_nat j) MAX_CHANNELS).
      * destruct (Nat.leb_spec (Z.to_nat (i + 1)) j); [lia|].
        destruct (Nat.leb_spec (Z.to_nat i) j); [lia|]. reflexivity.
      * now rewrite !andb_false_r.
Qed.

Lemma clear_all_messages_frame n :
  forall i s,
    clear_all_messages i n s
    = set_pairedDevices (pairedDevices (clear_all_messages i n s)) s.
Proof.
  induction n as [|n IH]; intros i s; [now destruct s|].
  cbn [clear_all_messages]. rewrite IH at 1. unfold clearMessages.
  destruct (_ <? _); reflexivity.
Qed.

Lemma every_channel_cleared i :
  0 <= i < MAX_CHANNELS ->
  (Z.to_nat 0 <=? Z.to_nat i)%nat
  && (Z.to_nat i <? Z.to_nat 0 + Z.to_nat MAX_CHANNELS)%nat
  && (Z.of_nat (Z.to_nat i) <? MAX_CHANNELS) = true.
Proof.
  intros Hi. unfold MAX_CHANNELS in *.
  destruct (Nat.leb_spec (Z.to_nat 0) (Z.to_nat i)); [|lia].
  destruct (Nat.ltb_spec (Z.to_nat i) (Z.to_nat 0 + Z.to_nat 5)); [|lia].
  destruct (Z.ltb_spec (Z.of_nat (Z.to_nat i)) 5); [reflexivity|lia].
Qed.

(** X23. A disabled manager. After [enable(false)] the manager is disabled, in
    the state it was in, and the mailbox of every slot is empty:
    [isMsgAvailable] is 0 and [readMsg] returns nothing on every channel.
    [loop], [startPairing] and [receiveData] leave it as it is. *)
Theorem disabled_manager_is_inert (s : t) :
  let s' := enable false s in
  isEnabled s' = false
  /\ currentState s' = currentState s
  /\ (forall i d, device i s = Some d ->
        device i s' = Some (set_mailbox [] d))
  /\ (forall i, isMsgAvailable i s' = 0 /\ readMsg i s' = ([], s'))
  /\ (forall now iv, loop now iv s' = Some s')
  /\ (forall now, startPairing now s' = (false, s'))
  /\ (forall now pipe_num, receiveData now pipe_num s' = Some s').
Proof.
  cbv zeta. unfold enable. cbn [negb]. cbv zeta.
  set (s1 := clear_all_messages 0 (Z.to_nat MAX_CHANNELS)
               (set_isEnabled false s)).
  assert (Hen : isEnabled (on_radio Radio.stopListening s1) = false).
  { unfold on_radio. state_simpl. subst s1.
    now rewrite clear_all_messages_enabled. }
  assert (Hdev : forall i d, device i s = Some d ->
            device i (on_radio Radio.stopListening s1)
            = Some (set_mailbox [] d)).
  { intros i d Hd. unfold device in *.
    destruct ((0 <=? i) && (i <? MAX_CHANNELS)) eqn:Ei; [|discriminate].
    apply andb_true_iff in Ei as [H0 H1].
    apply Z.leb_le in H0. apply Z.ltb_lt in H1.
    unfold on_radio. state_simpl. subst s1.
    rewrite clear_all_messages_lookup by lia.
    rewrite every_channel_cleared by lia. state_simpl. now rewrite Hd. }
  split; [exact Hen|]. split.
  { unfold on_radio. state_simpl. subst s1.
    now rewrite clear_all_messages_frame. }
  split; [exact Hdev|]. split.
  { intros i. unfold isMsgAvailable, readMsg.
    destruct (device i (on_radio Radio.stopListening s1)) as [d'|] eqn:Ed;
      [|now split].
    assert (Hm : mailbox d' = []).
    { unfold device in Ed.
      destruct ((0 <=? i) && (i <? MAX_CHANNELS)) eqn:Ei; [|discriminate].
      apply andb_true_iff in Ei as [H0 H1].
      apply Z.leb_le in H0. apply Z.ltb_lt in H1.
      unfold on_radio in Ed. state_simpl. subst s1.
      rewrite clear_all_messages_lookup in Ed by lia.
      rewrite every_channel_cleared in Ed by lia. state_simpl.
      destruct (pairedDevices s !! Z.to_nat i) as [d|]; [|discriminate].
      cbn [fmap option_fmap option_map] in Ed. now injection Ed as <-. }
    rewrite Hm. now destruct (negb _). }
  split; [intros now iv; unfold loop; now rewrite Hen|].
  split; [intros now; unfold startPairing; now rewrite Hen|].
  intros now pipe_num. unfold receiveData. now rewrite Hen.
Qed.

(** ** Reading the mail *)

Lemma set_pairedDevices_same s : set_pairedDevices (pairedDevices s) s = s.
Proof. now destruct s. Qed.

Lemma on_device_insert channel f s d :
  pairedDevices s !! Z.to_nat channel = Some d ->
  on_device channel f s
  = set_pairedDevices (<[Z.to_nat channel := f d]> (pairedDevices s)) s.
Proof.
  intros Hd. unfold on_device. f_equal. apply list_eq. intros j.
  destruct (Nat.eq_dec j (Z.to_nat channel)) as [->|Hne].
  - rewrite list_lookup_alter_eq, Hd, list_lookup_insert_eq;
      [reflexivity|]. now apply lookup_lt_Some in Hd.
  - now rewrite list_lookup_alter_ne, list_lookup_insert_ne by congruence.
Qed.

(** The [while] loop on one channel empties the mailbox of an occupied
    slot, oldest message first, and stops by itself. *)
Lemma read_channel_spec (fuel : nat) (channel : Z) :
  forall s d,
    0 <= channel < MAX_CHANNELS ->
    pairedDevices s !! Z.to_nat channel = Some d ->
    (length (mailbox d) <= fuel)%nat -> (length (mailbox d) < 256)%nat ->
    read_channel fuel channel s
    = (lines_of_slot channel d,
       set_pairedDevices
         (<[Z.to_nat channel := emptied d]> (pairedDevices s)) s).
Proof.
  induction fuel as [|fuel IH]; intros s d Hch Hd Hfuel Hsmall.
  - cbn [read_channel]. unfold lines_of_slot, emptied.
    destruct (mailbox d) as [|m rest] eqn:Em; [|cbn in Hfuel; lia].
    assert (Hsame : set_mailbox [] d = d) by (destruct d; cbn in *; now subst).
    rewrite Hsame. destruct (String_isEmpty (addr d));
      now rewrite list_insert_id, set_pairedDevices_same by exact Hd.
  - cbn [read_channel]. unfold isMsgAvailable, readMsg.
    rewrite device_lookup, Hd by exact Hch.
    unfold lines_of_slot, emptied.
    destruct (String_isEmpty (addr d)) eqn:Ea; cbn [negb].
    + now rewrite list_insert_id, set_pairedDevices_same by exact Hd.
    + destruct (mailbox d) as [|m rest] eqn:Em.
      * cbn [length]. change (uint8 (Z.of_nat 0) =? 0) with true. cbv iota.
        assert (Hsame : set_mailbox [] d = d)
          by (destruct d; cbn in *; now subst).
        now rewrite Hsame, list_insert_id, set_pairedDevices_same
          by exact Hd.
      * assert (Hn : (uint8 (Z.of_nat (length (m :: rest))) =? 0) = false).
        { apply Z.eqb_neq. unfold uint8. rewrite Z.mod_small;
            cbn [length] in *; lia. }
        rewrite Hn.
        rewrite (on_device_insert channel (set_mailbox rest) s d Hd).
        set (s1 := set_pairedDevices _ s).
        assert (Hd1 : pairedDevices s1 !! Z.to_nat channel
                      = Some (set_mailbox rest d)).
        { subst s1. state_simpl. apply list_lookup_insert_eq.
          now apply lookup_lt_Some in Hd. }
        rewrite (IH s1 (set_mailbox rest d) Hch Hd1)
          by (cbn [set_mailbox mailbox length] in *; lia).
        unfold lines_of_slot, emptied. cbn [set_mailbox addr mailbox].
        rewrite Ea. cbn [map]. f_equal.
        subst s1. state_simpl. now rewrite list_insert_insert_eq.
Qed.

Lemma read_channels_spec (fuel : nat) (n : nat) :
  forall channel s devs,
    0 <= channel -> channel + Z.of_nat n <= MAX_CHANNELS ->
    drop (Z.to_nat channel) (pairedDevices s) = devs -> length devs = n ->
    Forall (fun d => (length (mailbox d) <= fuel)%nat
                     /\ (length (mailbox d) < 256)%nat) devs ->
    read_channels fuel channel n s
    = (lines_from channel devs,
       set_pairedDevices
         (take (Z.to_nat channel) (pairedDevices s) ++ map emptied devs) s).
Proof.
  induction n as [|n IH]; intros channel s devs Hc Hn Hdrop Hlen Hall.
  - destruct devs; [|discriminate]. cbn [read_channels lines_from map].
    rewrite app_nil_r.
    rewrite take_ge, set_pairedDevices_same; [reflexivity|].
    pose proof (length_drop (pairedDevices s) (Z.to_nat channel)) as Hl.
    rewrite Hdrop in Hl. cbn in Hl. lia.
  - destruct devs as [|d rest]; [discriminate|].
    assert (Hd : pairedDevices s !! Z.to_nat channel = Some d).
    { rewrite <- (Nat.add_0_r (Z.to_nat channel)), <- lookup_drop, Hdrop.
      reflexivity. }
    inversion Hall as [|? ? [Hf Hs] Hrest]; subst.
    cbn [read_channels lines_from map].
    rewrite (read_channel_spec fuel channel s d) by (assumption || lia).
    set (s1 := set_pairedDevices _ s).
    assert (Hdrop1 : drop (Z.to_nat (channel + 1)) (pairedDevices s1) = rest).
    { subst s1. state_simpl. rewrite drop_insert_lt by lia.
      rewrite (drop_S _ _ _ Hd) in Hdrop. injection Hdrop as Hdrop.
      replace (Z.to_nat (channel + 1)) with (S (Z.to_nat channel)) by lia.
      exact Hdrop. }
    rewrite (IH (channel + 1) s1 rest) by
      (try assumption; try lia; cbn [length] in Hlen; lia).
    f_equal. subst s1. state_simpl.
    assert (Hdevs : take (Z.to_nat (channel + 1))
                      (<[Z.to_nat channel := emptied d]> (pairedDevices s))
                    ++ map emptied rest
                    = take (Z.to_nat channel) (pairedDevices s)
                      ++ emptied d :: map emptied rest).
    { replace (Z.to_nat (channel + 1)) with (S (Z.to_nat channel)) by lia.
      rewrite (take_S_r _ _ (emptied d))
        by (apply list_lookup_insert_eq; now apply lookup_lt_Some in Hd).
      rewrite take_insert_ge by lia. now rewrite <- app_assoc. }
    rewrite Hdevs. reflexivity.
Qed.

Lemma list_lookup_map {A B} (f : A -> B) (l : list A) (i : nat) :
  map f l !! i = f <$> l !! i.
Proof.
  revert i. induction l as [|x l IH]; intros [|i]; cbn; try reflexivity.
  apply IH.
Qed.

(** X24. The application reads every mailbox dry. On a directory of five
    records with fewer than 256 messages in each mailbox, [readMessages]
    prints one line for each message of each occupied slot, channel after
    channel and oldest first, and leaves the mailboxes of the occupied slots
    empty; nothing else changes, and [isMsgAvailable] is then 0 on every
    channel. [fuel], the bound on the turns of the [while] loop, is at least
    the length of the longest mailbox. *)
Theorem readMessages_empties_mailboxes (fuel : nat) (s : t) :
  well_formed s ->
  Forall (fun d => (length (mailbox d) <= fuel)%nat
                   /\ (length (mailbox d) < 256)%nat) (pairedDevices s) ->
  let r := readMessages fuel s in
  fst r = lines_from 0 (pairedDevices s)
  /\ snd r = set_pairedDevices (map emptied (pairedDevices s)) s
  /\ forall i, isMsgAvailable i (snd r) = 0.
Proof.
  intros Hwf Hall r. subst r. unfold readMessages.
  rewrite (read_channels_spec fuel (Z.to_nat MAX_CHANNELS) 0 s
             (pairedDevices s))
    by (try reflexivity; try assumption; unfold MAX_CHANNELS; lia).
  cbn [fst snd take app]. split; [reflexivity|]. split; [reflexivity|].
  intros i. unfold isMsgAvailable, device. state_simpl.
  destruct ((0 <=? i) && (i <? MAX_CHANNELS)); [|reflexivity].
  change (take (Z.to_nat 0) (pairedDevices s)) with (@nil PairedDevice).
  cbn [app]. rewrite list_lookup_map.
  destruct (pairedDevices s !! Z.to_nat i) as [d|]; [|reflexivity].
  cbn [fmap option_fmap option_map]. unfold emptied.
  destruct (String_isEmpty (addr d)) eqn:Ea; cbn [negb set_mailbox addr];
    rewrite Ea; reflexivity.
Qed.

(** ** The status of a transfer *)

(** X25. A failed transfer is not reported. [sendData] stores -1 through the
    uint8_t pointer, which leaves 255 in [messageStatus]; [checkSendingStatus]
    compares it with -1, which no uint8_t value equals: with 255 it prints
    nothing and leaves [messageSending] set, and it prints "Failed to send
    message" for no value at all. *)
Theorem failed_transfer_is_not_reported (M : Bytes) (k : nat) (s : t)
  (v : Z) :
  sending M k s -> fragment_count M <= 65536 ->
  Z.of_nat k < fragment_count M ->
  hd false (Radio.acks (radio s)) = false ->
  currentMsgStatus (out s) = Some v ->
  currentMsgStatus (out (sendData s)) = Some 255
  /\ checkSendingStatus 255 true = (None, true)
  /\ forall messageStatus messageSending,
       0 <= messageStatus < 256 ->
       fst (checkSendingStatus messageStatus messageSending)
       <> Some "Failed to send message"%string.
Proof.
  intros Hs HF Hk Hack Hv.
  destruct (sending_unacknowledged M k 0 [] s Hs HF Hk Hack)
    as (s' & _ & -> & _ & _ & _ & Hstat & _).
  split; [now rewrite Hstat, Hv|]. split; [reflexivity|].
  intros st sending Hst. unfold checkSendingStatus.
  destruct sending; [|discriminate].
  destruct (st =? 1); [discriminate|].
  destruct (Z.eqb_spec st (-1)); [lia | discriminate].
Qed.

End AppProps.

(** * Concrete runs *)

(** The examples and counterexamples are computed with the stand-ins of
    [Example]. *)
#[local] Existing Instance Example.crypto.
#[local] Existing Instance Example.codec.

Import RadioManager.

(** Example of C2: a first message between two channels keyed alike. *)
Lemma decrypt_encrypt_once_then_rejected_example :
  let iv := replicate 8 "042"%byte in
  let x := bytes_of_String "hello" in
  let sender := SimpleCha2.new Example.privA in
  let receiver := SimpleCha2.new Example.privA in
  let ciphertext := fst (SimpleCha2.encrypt iv x sender) in
  let first := SimpleCha2.decrypt ciphertext receiver in
  let second := SimpleCha2.decrypt ciphertext (snd first) in
  fst first = x /\ fst second = [] /\ snd second = snd first.
Proof.
  apply (decrypt_encrypt_once_then_rejected (replicate 8 "042"%byte)
           (bytes_of_String "hello") (SimpleCha2.new Example.privA)
           (SimpleCha2.new Example.privA));
    [reflexivity | reflexivity | vm_compute; reflexivity].
Defined.

(** Example of C10: unpairing slot 0 of a paired device. *)
Lemma clearPairedAddr_postcondition_example :
  well_formed Example.pairedA /\ 0 <= 0 < MAX_CHANNELS
  /\ getPairedAddr 0 Example.pairedA = "1BBBB"%string
  /\ getPairedAddr 0 (clearPairedAddr 0 Example.pairedA) = EmptyString.
Proof.
  split; [reflexivity|]. split; [unfold MAX_CHANNELS; lia|].
  split; [reflexivity|].
  destruct (clearPairedAddr_postcondition 0 Example.pairedA)
    as ((d & Hd & Haddr & _) & _); [reflexivity | unfold MAX_CHANNELS; lia |].
  unfold getPairedAddr. now rewrite Hd.
Defined.

(** Example of C9: an oversized message on a paired channel. The call is
    rejected and the status variable, 0 before, holds 255, for which the
    application prints nothing. *)
Lemma send_rejected_example :
  let c := SendMsg (replicate 2049 "001"%byte) 0 in
  MAX_MSG_SIZE < message_size c
  /\ run_send [] c (Some 0) false Example.pairedA
     = (false, Some 255, Example.pairedA)
  /\ Some 255 <> Some (-1)
  /\ App.checkSendingStatus 255 true = (None, true).
Proof.
  split; [vm_compute; reflexivity|].
  destruct (send_rejected [] (SendMsg (replicate 2049 "001"%byte) 0) (Some 0)
              false Example.pairedA) as (Hrun & Hstatus);
    [right; right; left; vm_compute; reflexivity|].
  split; [exact Hrun|]. rewrite Hrun in Hstatus.
  destruct (Hstatus 255 eq_refl) as (_ & Hne & Happ).
  split; [congruence | exact Happ].
Defined.

(** Example of C8: the second of the four frames of a 100-byte message. *)
Lemma fragment_header_encoding_example :
  let M := replicate 100 "001"%byte in
  let s := Example.acknowledged 4
             (set_out (mkOutgoing M 0 "1BBBB" None) Example.pairedA) in
  exists frame,
    frames_since s (Nat.iter 2 sendData s) !! 1%nat = Some frame
    /\ read_header frame = Some (CONTINUE_CODE, 2).
Proof.
  apply (fragment_header_encoding (replicate 100 "001"%byte)
           (Example.acknowledged 4
              (set_out (mkOutgoing (replicate 100 "001"%byte) 0 "1BBBB" None)
                 Example.pairedA)) 1).
  - repeat split.
  - vm_compute. discriminate.
  - vm_compute. reflexivity.
  - reflexivity.
Defined.

(** Counterexample to C1 as stated: the two-byte message 01 00 leaves as one
    frame, whose padding and final zero byte [unpad] strips alike; the
    receiver stores the one-byte message 01. *)
Lemma fragmentation_round_trip_counterexample :
  let M := ["001"%byte; "000"%byte] in
  let sent := sendMsgToAddr [] M "1BBBB" None false
                (Example.acknowledged 1 Example.pairedA) in
  let frames := Radio.txLog (radio (snd sent)) in
  (0 < length M)%nat /\ Z.of_nat (length M) <= MAX_MSG_SIZE
  /\ fst (fst sent) = true /\ length frames = 1%nat
  /\ exists receiver',
       receive_frames [] 1 (zip [0] frames) Example.pairedB = Some receiver'
       /\ fst (readMsg 0 receiver') = ["001"%byte]
       /\ Some (pairedDevices receiver')
          <> pairedDevices <$> store_message 0 M Example.pairedB.
Proof.
  cbv zeta. split; [cbn; lia|]. split; [vm_compute; discriminate|].
  split; [vm_compute; reflexivity|]. split; [vm_compute; reflexivity|].
  eexists. split; [vm_compute; reflexivity|].
  split; [vm_compute; reflexivity|].
  vm_compute. discriminate.
Qed.

(** Example of C1: a 40-byte message in two frames, whose bytes 8 to 11 are
    zero so that the receiving slot's secure channel leaves it alone. *)
Lemma fragmentation_round_trip_example :
  let M := Example.two_frame_message in
  let sender := Example.acknowledged 2
                  (set_out (mkOutgoing M 0 "1BBBB" None) Example.pairedA) in
  let frames := frames_since sender (Nat.iter 2 sendData sender) in
  payloads_end_nonzero M = true
  /\ length frames = 2%nat
  /\ (exists f code, last frames = Some f /\ read_header f = Some (code, 0))
  /\ exists receiver',
       receive_frames [] 1 (zip [0; 1] frames) Example.pairedB
       = Some receiver'
       /\ Some (pairedDevices receiver')
          = pairedDevices <$> store_message (1 - 1) M Example.pairedB
       /\ polling receiver' /\ rxBuffer (rx receiver') = []
       /\ (forall d,
             device (1 - 1) Example.pairedB = Some d -> addr d <> EmptyString ->
             fst (SimpleCha2.decrypt M (chaObject d)) = [] ->
             exists d', device (1 - 1) receiver' = Some d'
                        /\ mailbox d' = mailbox (push_mailbox M d)).
Proof.
  split; [reflexivity|].
  apply (fragmentation_round_trip Example.two_frame_message
           (Example.acknowledged 2
              (set_out (mkOutgoing Example.two_frame_message 0 "1BBBB" None)
                 Example.pairedA))
           Example.pairedB 1 [0; 1] []).
  - cbn. lia.
  - vm_compute. discriminate.
  - reflexivity.
  - repeat split.
  - reflexivity.
  - repeat split.
  - reflexivity.
  - unfold MAX_CHANNELS. lia.
  - reflexivity.
Defined.

(** The receiver of that run reads the 40 bytes that were sent. *)
Lemma two_frame_message_read :
  let M := Example.two_frame_message in
  let sender := Example.acknowledged 2
                  (set_out (mkOutgoing M 0 "1BBBB" None) Example.pairedA) in
  let frames := frames_since sender (Nat.iter 2 sendData sender) in
  exists receiver',
    receive_frames [] 1 (zip [0; 1] frames) Example.pairedB = Some receiver'
    /\ fst (readMsg 0 receiver') = M.
Proof.
  cbv zeta. eexists. split; vm_compute; reflexivity.
Qed.

(** Counterexample to C3 as stated: the receiver reads the plaintext, the
    captured frame is injected again, and [readMsg] then returns the
    17-byte ciphertext, not the empty byte string: a second message was
    delivered to the mailbox. *)
Lemma replay_counterexample :
  let sent := sendMsgToAddr Example.replay_iv Example.replay_plaintext "1BBBB" None true
                (Example.acknowledged 1 Example.pairedA) in
  let frames := Radio.txLog (radio (snd sent)) in
  exists r1 r2,
    receive_frames [] 1 (zip [0] frames) Example.pairedB = Some r1
    /\ fst (readMsg 0 r1) = Example.replay_plaintext
    /\ receive_frames [] 1 (zip [5000] frames) (snd (readMsg 0 r1)) = Some r2
    /\ isMsgAvailable 0 r2 = 1
    /\ length (fst (readMsg 0 r2)) = 17%nat
    /\ fst (readMsg 0 r2) <> [].
Proof.
  cbv zeta. eexists. eexists.
  split; [vm_compute; reflexivity|].
  split; [vm_compute; reflexivity|].
  split; [vm_compute; reflexivity|].
  split; [vm_compute; reflexivity|].
  split; [vm_compute; reflexivity|].
  vm_compute. discriminate.
Qed.

(** Example of C3, as the code has it, on the same message. *)
Lemma replayed_ciphertext_is_stored_example :
  let sender := SimpleCha2.new
                  (default [] (x25519 Example.pubB Example.privA)) in
  let C := fst (SimpleCha2.encrypt Example.replay_iv Example.replay_plaintext sender) in
  let frames := map (fragment C) (seq 0 1) in
  payloads_end_nonzero C = true
  /\ exists r1 r2 d1 d2,
       receive_frames [] 1 (zip [0] frames) Example.pairedB = Some r1
       /\ receive_frames [] 1 (zip [5000] frames) r1 = Some r2
       /\ device (1 - 1) r1 = Some d1
       /\ mailbox d1 = [Example.replay_plaintext]
       /\ device (1 - 1) r2 = Some d2
       /\ mailbox d2 = [Example.replay_plaintext; C].
Proof.
  split; [vm_compute; reflexivity|].
  destruct (replayed_ciphertext_is_stored Example.replay_plaintext Example.replay_iv
              (SimpleCha2.new (default [] (x25519 Example.pubB Example.privA)))
              Example.pairedB 1 [0] [5000]
              (default empty_device (device 0 Example.pairedB)))
    as (r1 & r2 & d1 & d2 & H1 & H2 & H3 & H4 & H5 & H6 & _);
    [ discriminate | vm_compute; discriminate | reflexivity
    | vm_compute; reflexivity | repeat split | reflexivity
    | unfold MAX_CHANNELS; lia | reflexivity | discriminate
    | reflexivity | vm_compute; reflexivity | reflexivity | reflexivity | ].
  exists r1, r2, d1, d2.
  split; [exact H1|]. split; [exact H2|]. split; [exact H3|].
  split; [rewrite H4; reflexivity|]. split; [exact H5|].
  rewrite H6. unfold push_mailbox. rewrite H4. reflexivity.
Defined.

(** Failing input of C4: the configuration exported by "AAAA", which holds
    "1BBBB" in slot 0, is imported by the freshly constructed "BBBB". The
    import succeeds and brings the personal keys of "AAAA", and slot 0 of the
    importer stays empty. *)
Lemma importCfg_leaves_directory_example :
  let cfg := exportCfg Example.pairedA in
  deserializeJson cfg = Some (exportCfg_doc Example.pairedA)
  /\ getPairedAddr 0 Example.pairedA = "1BBBB"%string
  /\ fst (importCfg cfg Example.freshB) = true
  /\ getPersonalKeys (snd (importCfg cfg Example.freshB))
     = getPersonalKeys Example.pairedA
  /\ pairedDevices (snd (importCfg cfg Example.freshB))
     = pairedDevices Example.freshB
  /\ getPairedAddr 0 (snd (importCfg cfg Example.freshB)) = EmptyString.
Proof.
  assert (Hparse : deserializeJson (exportCfg Example.pairedA)
                   = Some (exportCfg_doc Example.pairedA))
    by (vm_compute; reflexivity).
  destruct (importCfg_leaves_directory Example.pairedA Example.freshB Hparse)
    as [Himport Hdir].
  cbv zeta. split; [exact Hparse|]. split; [reflexivity|].
  split; [now rewrite Himport|]. split; [vm_compute; reflexivity|].
  split; [exact Hdir|]. unfold getPairedAddr, device. now rewrite Hdir.
Defined.



(** Counterexample to C6 as stated: slot 0 of "AAAA" is occupied and, after
    [initRadio], pipe 1 listens on "1AAAA", not on "0AAAA". *)
Lemma pipe_addressing_counterexample :
  let s := initRadio
             (snd (setPairedAddr "1BBBB" 0 (Some Example.pubB) Example.freshA)) in
  getPairedAddr 0 s = "1BBBB"%string
  /\ Radio.readingPipe (0 + 1) (radio s) = Some "1AAAA"%string
  /\ Radio.readingPipe (0 + 1) (radio s) <> Some (own_address 0 s).
Proof.
  cbv zeta. split; [reflexivity|]. split; [reflexivity|].
  vm_compute. discriminate.
Qed.




(** ** Runs of the further properties *)

(** Example of X1: a public key through Base64. *)
Lemma base64_round_trip_example :
  Base64.decode (Base64.encode Example.pubA) = Example.pubA
  /\ Base64.decode_raw (Base64.encode Example.pubA) = (Example.pubA, 32)
  /\ Base64.decodedLength (Base64.encode Example.pubA) = 32.
Proof.
  apply (base64_round_trip Example.pubA). vm_compute. reflexivity.
Defined.


(** Example of X3: two messages in a row. *)
Lemma stream_in_order_example :
  let l := [(replicate 8 "042"%byte, bytes_of_String "hello");
            (replicate 8 "043"%byte, bytes_of_String "world")] in
  let sent := encrypt_all l (SimpleCha2.new Example.privA) in
  let received := decrypt_all (fst sent) (SimpleCha2.new Example.privA) in
  fst received = [bytes_of_String "hello"; bytes_of_String "world"]
  /\ SimpleCha2.encryptCounter (snd sent) = 2
  /\ SimpleCha2.decryptCounter (snd received) = 2.
Proof.
  destruct (stream_in_order
              [(replicate 8 "042"%byte, bytes_of_String "hello");
               (replicate 8 "043"%byte, bytes_of_String "world")]
              (SimpleCha2.new Example.privA) (SimpleCha2.new Example.privA))
    as (H1 & H2 & H3);
    [reflexivity | repeat constructor | vm_compute; split; discriminate
    | vm_compute; reflexivity |].
  split; [exact H1|]. split; [exact H2|].
  rewrite H3 by discriminate. exact H2.
Defined.

(** Example of X4: the last counter value. *)
Lemma encrypt_counter_wrap_example :
  let iv := replicate 8 "042"%byte in
  let x := bytes_of_String "hello" in
  let sender := SimpleCha2.mk Example.privA (2 ^ 32 - 1) 0 in
  let receiver := SimpleCha2.mk Example.privA 0 (2 ^ 32 - 1) in
  SimpleCha2.encryptCounter (snd (SimpleCha2.encrypt iv x sender)) = 0
  /\ SimpleCha2.decrypt (fst (SimpleCha2.encrypt iv x sender)) receiver
     = ([], receiver).
Proof.
  apply (encrypt_counter_wrap (replicate 8 "042"%byte)
           (bytes_of_String "hello")
           (SimpleCha2.mk Example.privA (2 ^ 32 - 1) 0)
           (SimpleCha2.mk Example.privA 0 (2 ^ 32 - 1)));
    [reflexivity | reflexivity | vm_compute; discriminate].
Defined.

(** Example of X5: two messages that arrive the other way round. *)
Lemma decrypt_out_of_order_example :
  let iv := replicate 8 "042"%byte in
  let sender := SimpleCha2.new Example.privA in
  let receiver := SimpleCha2.new Example.privA in
  let first := SimpleCha2.encrypt iv (bytes_of_String "hello") sender in
  let second := SimpleCha2.encrypt iv (bytes_of_String "world") (snd first) in
  let r := SimpleCha2.decrypt (fst second) receiver in
  fst r = bytes_of_String "world"
  /\ SimpleCha2.decrypt (fst first) (snd r) = ([], snd r).
Proof.
  apply (decrypt_out_of_order (replicate 8 "042"%byte)
           (replicate 8 "042"%byte) (bytes_of_String "hello")
           (bytes_of_String "world") (SimpleCha2.new Example.privA)
           (SimpleCha2.new Example.privA));
    [reflexivity | reflexivity | reflexivity
    | vm_compute; split; discriminate | vm_compute; reflexivity].
Defined.

(** Example of X8: device "AAAA" pairs its channel 2 with "BBBB" by hand. *)
Lemma setPairedAddr_postcondition_example :
  let shared := zip_with Example.dh_byte Example.pubB Example.privA in
  let r := setPairedAddr "3BBBB" 2 (Some Example.pubB) Example.freshA in
  fst r = true
  /\ (exists d, device 2 (snd r) = Some d
        /\ addr d = "3BBBB"%string /\ mailbox d = []
        /\ publicKey d = Example.pubB /\ sharedKey d = shared
        /\ chaObject d = SimpleCha2.mk shared 0 0)
  /\ (forall i, i <> 2 -> device i (snd r) = device i Example.freshA)
  /\ Radio.readingPipe (2 + 1) (radio (snd r))
     = Some (own_address 2 Example.freshA)
  /\ snd r = set_radio (radio (snd r))
               (set_pairedDevices (pairedDevices (snd r)) Example.freshA).
Proof.
  apply (setPairedAddr_postcondition "3BBBB" 2 Example.pubB
           (zip_with Example.dh_byte Example.pubB Example.privA)
           Example.freshA);
    [reflexivity | unfold MAX_CHANNELS; lia | reflexivity].
Defined.

Lemma device_channels (s : t) (i : Z) (d : PairedDevice) :
  device i s = Some d -> i = 0 \/ i = 1 \/ i = 2 \/ i = 3 \/ i = 4.
Proof.
  intros Hd. unfold device, MAX_CHANNELS in Hd.
  destruct (Z.leb_spec 0 i), (Z.ltb_spec i 5); cbn in Hd;
    try discriminate. lia.
Qed.

(** Example of X9: the directory of "AAAA" taken over by "BBBB". *)
Lemma directory_json_round_trip_example :
  let r := setPairedDevicesJson (getPairedDevicesJson true Example.pairedA)
             Example.freshB in
  fst r = true
  /\ forall i d, device i Example.pairedA = Some d ->
       exists d', device i (snd r) = Some d'
         /\ addr d' = addr d /\ mailbox d' = []
         /\ (addr d = EmptyString -> d' = empty_device)
         /\ (addr d <> EmptyString ->
             publicKey d' = publicKey d
             /\ x25519 (publicKey d) (privateKey Example.freshB)
                = Some (sharedKey d')
             /\ chaObject d' = SimpleCha2.mk (sharedKey d') 0 0).
Proof.
  apply (directory_json_round_trip Example.pairedA Example.freshB);
    [reflexivity | reflexivity | vm_compute; reflexivity |].
  intros i d Hd Ha.
  destruct (device_channels _ i d Hd) as [->|[->|[->|[->| ->]]]];
    vm_compute in Hd; injection Hd as <-;
    try (exfalso; apply Ha; reflexivity).
  split; [discriminate|]. split; [reflexivity|].
  eexists. vm_compute. reflexivity.
Defined.

(** Example of X10: the same directory exported without the keys. *)
Lemma directory_without_keys_not_imported_example :
  let r := setPairedDevicesJson (getPairedDevicesJson false Example.pairedA)
             Example.freshB in
  fst r = true
  /\ forall i d, device i Example.pairedA = Some d ->
       (addr d = EmptyString -> device i (snd r) = Some empty_device)
       /\ (addr d <> EmptyString -> addr d <> "0"%string ->
           device i (snd r) = device i Example.freshB).
Proof.
  apply (directory_without_keys_not_imported Example.pairedA Example.freshB);
    [reflexivity | reflexivity | vm_compute; reflexivity | reflexivity].
Defined.

(** Example of X11: the keys of "AAAA" imported by "BBBB". *)
Lemma importCfg_restores_personal_keys_example :
  let r := importCfg (exportCfg Example.pairedA) Example.freshB in
  fst r = true
  /\ getPersonalKeys (snd r) = (Example.pubA, Example.privA)
  /\ snd r = set_personalKeys Example.pubA Example.privA Example.freshB.
Proof.
  apply (importCfg_restores_personal_keys Example.pairedA Example.freshB);
    [vm_compute; reflexivity | reflexivity | reflexivity].
Defined.

(** Example of X12: 100 bytes in four acknowledged fragments. *)
Lemma acknowledged_send_completes_example :
  let msg := replicate 100 "001"%byte in
  let s := Example.acknowledged 4 Example.pairedA in
  let r := sendMsgToAddr [] msg "1BBBB" (Some 0) false s in
  fst (fst r) = true
  /\ (forall n, (n < 4 - 1)%nat ->
        exists sn, run_loop [] (take n [1; 2; 3]) (snd r) = Some sn
                   /\ currentState sn = TRANSMITTING
                   /\ currentMsgStatus (out sn) = Some 0)
  /\ exists s',
       run_loop [] [1; 2; 3] (snd r) = Some s'
       /\ currentState s' = IDLE
       /\ currentMsgStatus (out s') = Some 1
       /\ frames_since s s' = map (fragment msg) (seq 0 4)
       /\ Radio.listening (radio s') = true
       /\ Radio.writingPipe (radio s') = "1BBBB"%string
       /\ pairedDevices s' = pairedDevices s.
Proof.
  apply (acknowledged_send_completes [] (replicate 100 "001"%byte) "1BBBB"
           (Some 0) false (Example.acknowledged 4 Example.pairedA)
           [1; 2; 3]);
    [repeat split; vm_compute; discriminate | reflexivity | now left
    | cbn; lia | reflexivity | reflexivity].
Defined.

(** Example of X13: the second of four fragments is not acknowledged. *)
Lemma unacknowledged_send_aborts_example :
  let msg := replicate 100 "001"%byte in
  let s := on_radio (Radio.set_acks [true; false]) Example.pairedA in
  let r := sendMsgToAddr [] msg "1BBBB" (Some 0) false s in
  fst (fst r) = true
  /\ exists s',
       run_loop [] [1] (snd r) = Some s'
       /\ currentState s' = IDLE
       /\ currentMsgStatus (out s') = Some 255
       /\ frames_since s s' = map (fragment msg) (seq 0 2)
       /\ outgoingMsgIndex (out s') = 29 * 1
       /\ Radio.listening (radio s') = true
       /\ pairedDevices s' = pairedDevices s.
Proof.
  apply (unacknowledged_send_aborts [] (replicate 100 "001"%byte) "1BBBB"
           (Some 0) false
           (on_radio (Radio.set_acks [true; false]) Example.pairedA) 1 [1]);
    [repeat split; vm_compute; discriminate | reflexivity | now left
    | vm_compute; reflexivity | reflexivity | reflexivity | reflexivity].
Defined.

(** Example of X14: the empty message. *)
Lemma empty_message_never_completes_example :
  let r := sendMsgToAddr [] [] "1BBBB" (Some 0) false Example.pairedA in
  r = (true, Some 0, begin_transfer [] "1BBBB" (Some 0) Example.pairedA)
  /\ currentState (snd r) = TRANSMITTING
  /\ isBusy (snd r) = true
  /\ forall iv' nows, run_loop iv' nows (snd r) = Some (snd r).
Proof.
  apply (empty_message_never_completes [] "1BBBB" (Some 0) false
           Example.pairedA); [reflexivity | reflexivity | now left].
Defined.

(** Example of X15: "hello" from "AAAA" to the mailbox of "BBBB". *)
Lemma encrypted_message_delivered_example :
  let iv := replicate 8 "042"%byte in
  let msg := bytes_of_String "hello" in
  let sender := Example.acknowledged 1 Example.pairedA in
  let r := sendMsgToAddr iv msg "1BBBB" (Some 0) true sender in
  fst (fst r) = true
  /\ exists sender' receiver' dr',
       run_loop iv [] (snd r) = Some sender'
       /\ currentState sender' = IDLE
       /\ currentMsgStatus (out sender') = Some 1
       /\ receive_frames iv 1 (zip [5] (frames_since sender sender'))
            Example.pairedB
          = Some receiver'
       /\ device (1 - 1) receiver' = Some dr'
       /\ mailbox dr' = [msg]
       /\ SimpleCha2.decryptCounter (chaObject dr') = 1.
Proof.
  destruct (encrypted_message_delivered (replicate 8 "042"%byte)
              (bytes_of_String "hello") "1BBBB" (Some 0)
              (Example.acknowledged 1 Example.pairedA) Example.pairedB 0 1
              (nth 0 (pairedDevices Example.pairedA) empty_device)
              (nth 0 (pairedDevices Example.pairedB) empty_device) [] [5])
    as (H1 & sender' & receiver' & dr' & H2 & H3 & H4 & _ & H5 & H6 & H7 & H8);
    [repeat split; vm_compute; discriminate | reflexivity | discriminate
    | reflexivity | reflexivity | reflexivity | reflexivity | reflexivity
    | reflexivity | repeat split | reflexivity | unfold MAX_CHANNELS; lia
    | reflexivity | discriminate | reflexivity | vm_compute; reflexivity
    | reflexivity |].
  split; [exact H1|]. exists sender', receiver', dr'.
  repeat split; assumption.
Defined.


(** Example of X17: two bytes padded to a frame and back. *)
Lemma unpad_pad_example :
  unpad (pad ["001"%byte; "002"%byte] 32) = ["001"%byte; "002"%byte].
Proof.
  apply (unpad_pad ["001"%byte; "002"%byte] 32);
    [vm_compute; discriminate | right; reflexivity].
Defined.

(** Example of X18: the first of two fragments is lost. *)
Lemma lost_fragment_not_delivered_example :
  let M := Example.two_frame_message in
  let frames := delete 0%nat (map (fragment M) (seq 0 2)) in
  exists receiver',
    receive_frames [] 1 (zip [1] frames) Example.pairedB = Some receiver'
    /\ pairedDevices receiver' = pairedDevices Example.pairedB
    /\ polling receiver'
    /\ ((1 < 2)%nat -> between_messages receiver').
Proof.
  apply (lost_fragment_not_delivered Example.two_frame_message
           Example.pairedB 1 0 [1] []);
    [vm_compute; discriminate | reflexivity | repeat split | repeat split
    | vm_compute; lia | reflexivity].
Defined.

(** Example of X19: the first fragment of one message and the last of
    another. *)
Lemma fragments_of_two_messages_spliced_example :
  let M1 := Example.two_frame_message in
  let M2 := replicate 40 "007"%byte in
  let frames := map (fragment M1) (seq 0 (2 - 1)) ++ [fragment M2 1] in
  let spliced := take (29 * (2 - 1)) M1 ++ chunk M2 1 in
  exists receiver',
    receive_frames [] 1 (zip [1; 2] frames) Example.pairedB = Some receiver'
    /\ Some (pairedDevices receiver')
       = pairedDevices <$> store_message (1 - 1) spliced Example.pairedB
    /\ polling receiver'.
Proof.
  apply (fragments_of_two_messages_spliced Example.two_frame_message
           (replicate 40 "007"%byte) Example.pairedB 1 [1; 2] []);
    [vm_compute; split; discriminate | reflexivity | reflexivity
    | reflexivity | repeat split | reflexivity | unfold MAX_CHANNELS; lia
    | reflexivity].
Defined.

(** Example of X22: the address a device with a given MAC gives out. *)
Lemma pairing_addresses_are_valid_example :
  let baseMac := ["036"%byte; "010"%byte; "196"%byte; "000"%byte;
                  "171"%byte; "205"%byte] in
  let s := new Example.hw (App.getESP32UID baseMac)
             (Example.pubA, Example.privA) in
  getRadioID s = "ABCD"%string
  /\ checkValidAddr (String_of_Z 1 ++ getRadioID s) = true.
Proof.
  apply (pairing_addresses_are_valid
           ["036"%byte; "010"%byte; "196"%byte; "000"%byte;
            "171"%byte; "205"%byte] Example.hw
           (Example.pubA, Example.privA) 1).
  unfold MAX_CHANNELS. lia.
Defined.

(** Example of X24: two messages wait in slot 0. *)
Lemma readMessages_empties_mailboxes_example :
  let s := on_device 0 (set_mailbox [bytes_of_String "one";
                                     bytes_of_String "two"])
             Example.pairedB in
  let r := App.readMessages 3 s in
  fst r = ["Message received on channel 0: one"%string;
           "Message received on channel 0: two"%string]
  /\ snd r = set_pairedDevices (map emptied (pairedDevices s)) s
  /\ forall i, isMsgAvailable i (snd r) = 0.
Proof.
  apply (readMessages_empties_mailboxes 3
           (on_device 0 (set_mailbox [bytes_of_String "one";
                                      bytes_of_String "two"])
              Example.pairedB)); [reflexivity|].
  repeat constructor; vm_compute; lia.
Defined.

(** Example of X25: the only fragment of a message is not acknowledged. *)
Lemma failed_transfer_is_not_reported_example :
  let M := ["001"%byte] in
  let s := begin_transfer M "1BBBB" (Some 0) Example.pairedA in
  currentMsgStatus (out (sendData s)) = Some 255
  /\ App.checkSendingStatus 255 true = (None, true)
  /\ forall messageStatus messageSending,
       0 <= messageStatus < 256 ->
       fst (App.checkSendingStatus messageStatus messageSending)
       <> Some "Failed to send message"%string.
Proof.
  apply (failed_transfer_is_not_reported ["001"%byte] 0
           (begin_transfer ["001"%byte] "1BBBB" (Some 0) Example.pairedA) 0);
    [repeat split | vm_compute; discriminate | reflexivity | reflexivity
    | reflexivity].
Defined.

(** Example of X20: "BBBB" has listened for six seconds
    when "AAAA", a second into its own pairing, hears its call. *)
Lemma pairing_handshake_completes_example :
  let a := Example.acknowledged 2 Example.freshA in
  let b := Example.acknowledged 2 Example.freshB in
  let K := zip_with Example.dh_byte Example.pubB Example.privA in
  let iv := replicate 8 "042"%byte in
  exists a' b',
    handshake iv iv 6000 6300 6400 6600 6700 6800
      (snd (startPairing 5000 a)) (snd (startPairing 0 b))
    = Some (a', b')
    /\ polling a' /\ polling b'
    /\ device 0 a'
       = Some (mkPairedDevice "1BBBB" [] K Example.pubB (SimpleCha2.mk K 0 0))
    /\ device 0 b'
       = Some (mkPairedDevice "1AAAA" [] K Example.pubA (SimpleCha2.mk K 0 0))
    /\ (forall i, i <> 0 -> device i a' = device i a)
    /\ (forall i, i <> 0 -> device i b' = device i b)
    /\ Radio.readingPipe (0 + 1) (radio a') = Some "1AAAA"%string
    /\ Radio.readingPipe (0 + 1) (radio b') = Some "1BBBB"%string.
Proof.
  apply (pairing_handshake_completes
           (Example.acknowledged 2 Example.freshA)
           (Example.acknowledged 2 Example.freshB)
           (zip_with Example.dh_byte Example.pubB Example.privA)
           (replicate 8 "042"%byte) (replicate 8 "042"%byte)
           5000 0 6000 6300 6400 6600 6700 6800);
    try reflexivity; try (repeat split; fail);
    try (vm_compute; reflexivity); vm_compute; discriminate.
Defined.
